(** * Gaussian-splat record stream: converter, downsampler, demo preparation

    A shallow embedding of [converter.py], [downsample_dat.py] and
    [prepare_demo.py].  Python integers are [Z]; Python floats are IEEE-754
    binary64 numbers, modelled by the Standard Library's [SpecFloat] at
    precision 53 and maximal exponent 1024; byte strings are lists of
    [Byte.byte]; a Python exception is the [Err] branch of [result]. *)

From Stdlib.Strings Require Import String Byte.
From Stdlib Require Import ZArith List Bool Lia SpecFloat QArith Qabs Qround.
Import ListNotations.
Local Open Scope Z_scope.

(** ** Exceptions and the error monad *)

(** Python exceptions raised by the modelled code; [OutOfFuel] is not one of
    them: it marks a bounded loop of the model that ran out of steps. *)
Inductive pyerr : Set :=
| StructError
| OverflowError
| ValueError
| ZeroDivisionError
| RuntimeError
| OutOfFuel.

Inductive result (A : Type) : Type :=
| Ok (a : A)
| Err (e : pyerr).
Arguments Ok {A} a.
Arguments Err {A} e.

Definition bind {A B : Type} (r : result A) (k : A -> result B) : result B :=
  match r with
  | Ok a => k a
  | Err e => Err e
  end.

Notation "x <- c ;; k" := (bind c (fun x => k))
  (at level 61, c at next level, right associativity).
Notation "' p <- c ;; k" := (bind c (fun x => let 'p := x in k))
  (at level 61, p pattern, c at next level, right associativity).

(** ** Bytes and big-endian integers *)

Definition Z_of_byte (b : byte) : Z := Z.of_N (Byte.to_N b).

Definition byte_of_Z (z : Z) : byte :=
  match Byte.of_N (Z.to_N (z mod 256)) with
  | Some b => b
  | None => x00
  end.

(** [n.to_bytes(k, 'big')] for [0 <= n < 256^k]. *)
Fixpoint be_bytes (k : nat) (n : Z) : list byte :=
  match k with
  | O => []
  | S k' => be_bytes k' (n / 256) ++ [byte_of_Z n]
  end.

(** [int.from_bytes(bs, 'big')]. *)
Definition be_int (bs : list byte) : Z :=
  fold_left (fun acc b => acc * 256 + Z_of_byte b) bs 0.

(** Python slices [b[:n]] and [b[n:]] on byte strings. *)
Definition take {A} (n : nat) (l : list A) : list A := firstn n l.
Definition drop {A} (n : nat) (l : list A) : list A := skipn n l.

(** The same with an integer bound, [n <= 0] selecting nothing. *)
Fixpoint takeZ {A} (n : Z) (l : list A) : list A :=
  match l with
  | [] => []
  | a :: l' => if n <=? 0 then [] else a :: takeZ (n - 1) l'
  end.

Fixpoint dropZ {A} (n : Z) (l : list A) : list A :=
  match l with
  | [] => []
  | a :: l' => if n <=? 0 then l else dropZ (n - 1) l'
  end.

(** [if x:] on an [int | None]. *)
Definition truthy (x : option Z) : bool :=
  match x with
  | None => false
  | Some n => negb (n =? 0)
  end.

(** ** Python floats *)

Module PyFloat.

Definition prec : Z := 53.
Definition emax : Z := 1024.

(** A Python [float]: a binary64 number. *)
Definition t : Set := spec_float.

Definition of_int (n : Z) : t := binary_normalize prec emax n 0 false.
Definition zero : t := S754_zero false.
Definition one : t := of_int 1.

Definition mul : t -> t -> t := SFmul prec emax.
Definition add : t -> t -> t := SFadd prec emax.
Definition eqb : t -> t -> bool := SFeqb.
Definition ltb : t -> t -> bool := SFltb.
Definition leb : t -> t -> bool := SFleb.

(** [x / y]: division by a zero raises. *)
Definition div (x y : t) : result t :=
  if eqb y zero then Err ZeroDivisionError else Ok (SFdiv prec emax x y).

(** [math.sqrt]: a negative argument is a domain error. *)
Definition sqrt (x : t) : result t :=
  if ltb x zero then Err ValueError else Ok (SFsqrt prec emax x).

(** [int(x)]: truncation toward zero; NaN and the infinities raise. *)
Definition to_int (x : t) : result Z :=
  match x with
  | S754_nan => Err ValueError
  | S754_infinity _ => Err OverflowError
  | S754_zero _ => Ok 0
  | S754_finite s m e => Ok (cond_Zopp s (Z.shiftl (Zpos m) e))
  end.

(** [round(x)]: the nearest integer, ties to the even one. *)
Definition round (x : t) : result Z :=
  match x with
  | S754_nan => Err ValueError
  | S754_infinity _ => Err OverflowError
  | S754_zero _ => Ok 0
  | S754_finite s m e =>
      if 0 <=? e then Ok (cond_Zopp s (Z.shiftl (Zpos m) e))
      else
        let d := 2 ^ (- e) in
        let q := Zpos m / d in
        let r := Zpos m mod d in
        let up := match 2 * r ?= d with
                  | Lt => false
                  | Gt => true
                  | Eq => negb (Z.even q)
                  end in
        Ok (cond_Zopp s (if up then q + 1 else q))
  end.

End PyFloat.

(** ** IEEE-754 binary32, the [f] fields of the record *)

Module Binary32.

Definition prec : Z := 24.
Definition emax : Z := 128.

(** The C cast [(float)x] of a double, as [struct.pack] and
    [numpy.astype(float32)] perform it: rounding to nearest, ties to even. *)
Definition of_double (x : PyFloat.t) : spec_float :=
  match x with
  | S754_finite s m e => binary_round prec emax s m e
  | _ => x
  end.

(** Widening a binary32 to a double ([float(np.float32)], C's [(double)y]). *)
Definition to_double (y : spec_float) : PyFloat.t :=
  match y with
  | S754_finite s m e => binary_round PyFloat.prec PyFloat.emax s m e
  | _ => y
  end.

Definition sign_bit (s : bool) : Z := if s then 2 ^ 31 else 0.

(** The 32-bit pattern of a binary32 number; the NaN is the quiet one. *)
Definition bits_of (y : spec_float) : Z :=
  match y with
  | S754_zero s => sign_bit s
  | S754_infinity s => sign_bit s + 255 * 2 ^ 23
  | S754_nan => 255 * 2 ^ 23 + 2 ^ 22
  | S754_finite s m e =>
      if Zpos m <? 2 ^ 23
      then sign_bit s + Zpos m
      else sign_bit s + (e + 150) * 2 ^ 23 + (Zpos m - 2 ^ 23)
  end.

Definition of_bits (b : Z) : spec_float :=
  let s := Z.testbit b 31 in
  let biased := (b / 2 ^ 23) mod 256 in
  let frac := b mod 2 ^ 23 in
  if biased =? 0 then
    match frac with
    | Zpos m => S754_finite s m (-149)
    | _ => S754_zero s
    end
  else if biased =? 255 then
    if frac =? 0 then S754_infinity s else S754_nan
  else
    match frac + 2 ^ 23 with
    | Zpos m => S754_finite s m (biased - 150)
    | _ => S754_nan
    end.

Definition is_infinite (x : spec_float) : bool :=
  match x with
  | S754_infinity _ => true
  | _ => false
  end.

End Binary32.

(** ** The [struct] module, for the format characters the repository uses *)

Module Struct.

(** [H]: uint16, [B]: uint8, [f]: float32; the byte order is always ['!']
    (network order, no padding). *)
Inductive code : Set := H | B | f.

Inductive pyval : Set :=
| VInt (n : Z)
| VFloat (x : PyFloat.t).

Definition size_of (c : code) : nat :=
  match c with
  | H => 2
  | B => 1
  | f => 4
  end.

Definition calcsize (fmt : list code) : nat :=
  fold_right (fun c n => (size_of c + n)%nat) 0%nat fmt.

(** [PyFloat_Pack4]: narrow, refuse a finite double that overflows, store. *)
Definition pack_f (x : PyFloat.t) : result (list byte) :=
  let y := Binary32.of_double x in
  if Binary32.is_infinite y && negb (Binary32.is_infinite x)
  then Err OverflowError
  else Ok (be_bytes 4 (Binary32.bits_of y)).

Definition unpack_f (bs : list byte) : PyFloat.t :=
  Binary32.to_double (Binary32.of_bits (be_int bs)).

Definition pack_uint (k : nat) (n : Z) : result (list byte) :=
  if (0 <=? n) && (n <? 256 ^ Z.of_nat k)
  then Ok (be_bytes k n)
  else Err StructError.

Definition pack_one (c : code) (v : pyval) : result (list byte) :=
  match c, v with
  | H, VInt n => pack_uint 2 n
  | B, VInt n => pack_uint 1 n
  | f, VFloat x => pack_f x
  | f, VInt n =>
      let x := PyFloat.of_int n in
      if Binary32.is_infinite x then Err OverflowError else pack_f x
  | _, VFloat _ => Err StructError
  end.

(** [struct.pack(fmt, *vals)]. *)
Fixpoint pack (fmt : list code) (vals : list pyval) : result (list byte) :=
  match fmt, vals with
  | [], [] => Ok []
  | c :: fmt', v :: vals' =>
      bs <- pack_one c v ;;
      rest <- pack fmt' vals' ;;
      Ok (bs ++ rest)
  | _, _ => Err StructError
  end.

Definition unpack_one (c : code) (bs : list byte) : pyval :=
  match c with
  | H | B => VInt (be_int bs)
  | f => VFloat (unpack_f bs)
  end.

Fixpoint unpack_fields (fmt : list code) (buf : list byte) : list pyval :=
  match fmt with
  | [] => []
  | c :: fmt' =>
      unpack_one c (take (size_of c) buf) :: unpack_fields fmt' (drop (size_of c) buf)
  end.

(** [struct.unpack(fmt, buf)]: the buffer must have exactly the format's size. *)
Definition unpack (fmt : list code) (buf : list byte) : result (list pyval) :=
  if Nat.eqb (length buf) (calcsize fmt)
  then Ok (unpack_fields fmt buf)
  else Err StructError.

(** [struct.unpack_from(fmt, buf, offset)] for [offset >= 0]: the buffer must
    hold at least the format's size from the offset on. *)
Definition unpack_from (fmt : list code) (buf : list byte) (offset : nat)
  : result (list pyval) :=
  if Nat.leb (offset + calcsize fmt) (length buf)
  then Ok (unpack_fields fmt (drop offset buf))
  else Err StructError.

End Struct.

(** ** converter.py: quaternion quantization *)

Module Converter.

Definition quaternion : Set := (PyFloat.t * PyFloat.t * PyFloat.t * PyFloat.t)%type.

(** The inner function [to_byte] of [normalize_quaternion_to_bytes]. *)
Definition to_byte (val : PyFloat.t) : result Z :=
  b <- PyFloat.to_int (PyFloat.add (PyFloat.mul val (PyFloat.of_int 128)) (PyFloat.of_int 128)) ;;
  Ok (Z.max 0 (Z.min 255 b)).

(** [length] as computed on line 69. *)
Definition quaternion_length (q : quaternion) : result PyFloat.t :=
  let '(w, x, y, z) := q in
  PyFloat.sqrt
    (PyFloat.add (PyFloat.add (PyFloat.add (PyFloat.mul w w) (PyFloat.mul x x))
                              (PyFloat.mul y y))
                 (PyFloat.mul z z)).

(** The quaternion after the [if length == 0 ... else ...] statement. *)
Definition normalized (q : quaternion) : result quaternion :=
  let '(w, x, y, z) := q in
  length <- quaternion_length q ;;
  if PyFloat.eqb length PyFloat.zero
  then Ok (PyFloat.one, PyFloat.zero, PyFloat.zero, PyFloat.zero)
  else
    w' <- PyFloat.div w length ;;
    x' <- PyFloat.div x length ;;
    y' <- PyFloat.div y length ;;
    z' <- PyFloat.div z length ;;
    Ok (w', x', y', z').

Definition normalize_quaternion_to_bytes (q : quaternion) : result (Z * Z * Z * Z) :=
  '(w, x, y, z) <- normalized q ;;
  bw <- to_byte w ;;
  bx <- to_byte x ;;
  by_ <- to_byte y ;;
  bz <- to_byte z ;;
  Ok (bw, bx, by_, bz).

(** [WRITE_FORMAT], an insertion-ordered dict. *)
Definition WRITE_FORMAT : list (String.string * list Struct.code) :=
  [ ("start_frame"%string, [Struct.H]);
    ("end_frame"%string, [Struct.H]);
    ("xyz"%string, [Struct.f; Struct.f; Struct.f]);
    ("color"%string, [Struct.B; Struct.B; Struct.B]);
    ("opacity"%string, [Struct.B]);
    ("scaling"%string, [Struct.f; Struct.f; Struct.f]);
    ("rotation"%string, [Struct.B; Struct.B; Struct.B; Struct.B]) ].

Definition FMT_STR : list Struct.code := concat (map snd WRITE_FORMAT).
Definition RECORD_SIZE : nat := Struct.calcsize FMT_STR.

(** One row of what [read_vertices_colors] returns: a float32 position and a
    uint8 colour.  Parsing the PLY file itself is the work of [plyfile]. *)
Record vertex : Set := mkVertex {
  vx : spec_float; vy : spec_float; vz : spec_float;
  red : Z; green : Z; blue : Z
}.

(** [np.full(shape, v, dtype=np.uint8)]: the fill value must fit the dtype. *)
Definition np_full_uint8 (v : Z) : result Z :=
  if (0 <=? v) && (v <=? 255) then Ok v else Err OverflowError.

(** [np.full(shape, v, dtype=np.float32)]: the fill value is narrowed. *)
Definition np_full_float32 (v : PyFloat.t) : spec_float := Binary32.of_double v.

Definition generate_records_for_file
    (ply : list vertex) (start_frame end_frame default_opacity : Z)
    (default_scale : PyFloat.t) (rotation_wxyz : quaternion)
  : result (list (list Struct.pyval)) :=
  o <- np_full_uint8 default_opacity ;;
  let scaling := np_full_float32 default_scale in
  '(rw, rx, ry, rz) <- normalize_quaternion_to_bytes rotation_wxyz ;;
  Ok (map (fun v =>
             [ Struct.VInt start_frame; Struct.VInt end_frame;
               Struct.VFloat (Binary32.to_double (vx v));
               Struct.VFloat (Binary32.to_double (vy v));
               Struct.VFloat (Binary32.to_double (vz v));
               Struct.VInt (red v); Struct.VInt (green v); Struct.VInt (blue v);
               Struct.VInt o;
               Struct.VFloat (Binary32.to_double scaling);
               Struct.VFloat (Binary32.to_double scaling);
               Struct.VFloat (Binary32.to_double scaling);
               Struct.VInt rw; Struct.VInt rx; Struct.VInt ry; Struct.VInt rz ])
          ply).

(** [write_dat]: the bytes written to the output file and the record count. *)
Fixpoint write_dat (records : list (list Struct.pyval)) : result (list byte * Z) :=
  match records with
  | [] => Ok ([], 0)
  | rec :: records' =>
      bs <- Struct.pack FMT_STR rec ;;
      '(rest, count) <- write_dat records' ;;
      Ok (bs ++ rest, count + 1)
  end.

(** What [validate_dat] prints, line by line. *)
Inductive line : Set :=
| Warning (size : Z)
| Format (total : Z)
| Rec (i : Z) (tup : list Struct.pyval).

(** The [for i in range(...)] loop of [validate_dat]; [rest] is the unread
    part of the open file. *)
Fixpoint validate_loop (n : nat) (i : Z) (rest : list byte) : result (list line) :=
  match n with
  | O => Ok []
  | S n' =>
      let data := take RECORD_SIZE rest in
      tup <- Struct.unpack FMT_STR data ;;
      lines <- validate_loop n' (i + 1) (drop RECORD_SIZE rest) ;;
      Ok (Rec i tup :: lines)
  end.

Definition validate_dat (input : list byte) (head : Z) : result (list line) :=
  let size := Z.of_nat (length input) in
  let warning :=
    if negb (size mod Z.of_nat RECORD_SIZE =? 0) then [Warning size] else [] in
  let total := size / Z.of_nat RECORD_SIZE in
  lines <- validate_loop (Z.to_nat (Z.min head total)) 0 input ;;
  Ok (warning ++ Format total :: lines).

(** The command-line arguments [main] uses on the conversion path;
    [ply_files] holds the point set of each existing input file, in order. *)
Record args : Set := mkArgs {
  ply_files : list (list vertex);
  frame_step : Z;
  default_opacity : Z;
  default_scale : PyFloat.t;
  rotation : quaternion
}.

(** The [for idx, ply_path in enumerate(ply_files)] loop of [main] followed by
    [chain_iters]: the records of all files, in file order. *)
Fixpoint chain_records (a : args) (idx : Z) (files : list (list vertex))
  : result (list (list Struct.pyval)) :=
  match files with
  | [] => Ok []
  | ply :: files' =>
      let start_frame := idx * frame_step a in
      let end_frame := start_frame in
      recs <- generate_records_for_file ply start_frame end_frame
                (default_opacity a) (default_scale a) (rotation a) ;;
      rest <- chain_records a (idx + 1) files' ;;
      Ok (recs ++ rest)
  end.

(** [main] on the conversion path: the exit status and, when a file was
    written, its bytes. *)
Definition main (a : args) : result (Z * option (list byte)) :=
  match ply_files a with
  | [] => Ok (2, None)
  | _ =>
      records <- chain_records a 0 (ply_files a) ;;
      '(out, total) <- write_dat records ;;
      Ok (0, Some out)
  end.

End Converter.

(** ** downsample_dat.py *)

Module Downsample.

Definition FMT : list Struct.code :=
  [Struct.H; Struct.H; Struct.f; Struct.f; Struct.f;
   Struct.B; Struct.B; Struct.B; Struct.B;
   Struct.f; Struct.f; Struct.f;
   Struct.B; Struct.B; Struct.B; Struct.B].
Definition RECORD_SIZE : nat := Struct.calcsize FMT.

(** [f.read(n)] on a buffered binary file whose unread part is [rest]:
    the bytes returned and the new unread part. *)
Definition read (rest : list byte) (n : Z) : result (list byte * list byte) :=
  if n <? -1 then Err ValueError
  else if n =? -1 then Ok (rest, [])
  else Ok (takeZ n rest, dropZ n rest).

(** The [for i in range(m)] loop over one chunk. *)
Definition records_of_chunk (chunk : list byte) : list (list byte) :=
  map (fun i => let start := (i * RECORD_SIZE)%nat in
                take RECORD_SIZE (drop start chunk))
      (seq 0 (length chunk / RECORD_SIZE)).

(** The [while True] loop: the chunks read, in order. *)
Fixpoint read_chunks (fuel : nat) (rest : list byte) (chunk_bytes : Z)
  : result (list (list byte)) :=
  match fuel with
  | O => Err OutOfFuel
  | S fuel' =>
      '(chunk, rest') <- read rest chunk_bytes ;;
      match chunk with
      | [] => Ok []
      | _ =>
          chunks <- read_chunks fuel' rest' chunk_bytes ;;
          Ok (chunk :: chunks)
      end
  end.

(** The chunk length after [chunk_bytes -= (chunk_bytes % RECORD_SIZE)]. *)
Definition aligned (chunk_bytes : Z) : Z :=
  chunk_bytes - chunk_bytes mod Z.of_nat RECORD_SIZE.

(** The reads [iter_records] performs when it is run to its end. *)
Definition chunks_read (input : list byte) (chunk_bytes : Z)
  : result (list (list byte)) :=
  read_chunks (S (length input)) input (aligned chunk_bytes).

(** [iter_records]: the records the generator yields when run to its end. *)
Definition iter_records (input : list byte) (chunk_bytes : Z)
  : result (list (list byte)) :=
  chunks <- chunks_read input chunk_bytes ;;
  Ok (flat_map records_of_chunk chunks).

Definition default_chunk_bytes : Z := 4 * 1024 * 1024.

(** The variables of [downsample]'s loop; [out] is the output file. *)
Record state : Set := mkState {
  out : list (list byte);
  kept : Z;
  total : Z
}.

(** How one iteration of the loop ends for a record. *)
Inductive verdict : Set :=
| SkipStride
| SkipSpan
| Keep.

(** The two tests of the loop body, in the order the code makes them. *)
Definition classify (min_span stride total : Z) (rec : list byte) : result verdict :=
  if (1 <? stride) && negb (total mod stride =? 0) then Ok SkipStride
  else
    hdr <- Struct.unpack_from [Struct.H; Struct.H] rec 0 ;;
    match hdr with
    | [Struct.VInt sf; Struct.VInt ef] =>
        if ef - sf <? min_span then Ok SkipSpan else Ok Keep
    | _ => Err StructError
    end.

(** The [for rec in iter_records(...)] loop. *)
Fixpoint downsample_loop (min_span stride : Z) (limit : option Z)
    (recs : list (list byte)) (st : state) : result state :=
  match recs with
  | [] => Ok st
  | rec :: recs' =>
      let total := total st + 1 in
      v <- classify min_span stride total rec ;;
      match v with
      | SkipStride | SkipSpan =>
          downsample_loop min_span stride limit recs' (mkState (out st) (kept st) total)
      | Keep =>
          let st' := mkState (out st ++ [rec]) (kept st + 1) total in
          if truthy limit && (match limit with Some l => l <=? kept st' | None => false end)
          then Ok st'
          else downsample_loop min_span stride limit recs' st'
      end
  end.

(** [downsample] up to its [return]: the final loop variables. *)
Definition downsample_run (input : list byte) (min_span stride : Z) (limit : option Z)
  : result state :=
  recs <- iter_records input default_chunk_bytes ;;
  downsample_loop min_span stride limit recs (mkState [] 0 0).

(** [downsample]: the returned count and the bytes of the output file. *)
Definition downsample (input : list byte) (min_span stride : Z) (limit : option Z)
  : result (Z * list byte) :=
  st <- downsample_run input min_span stride limit ;;
  Ok (kept st, concat (out st)).

(** [main]: the count and the size it prints, and the bytes of the output
    file; [--limit] is always an integer. *)
Definition main (input : list byte) (min_span stride limit : Z)
  : result (Z * Z * list byte) :=
  '(kept, output) <- downsample input min_span stride (Some limit) ;;
  let size := kept * Z.of_nat RECORD_SIZE in
  Ok (kept, size, output).

End Downsample.

(** ** Python strings *)

Module PyStr.

Section Text.
Context {A : Type} (eqb : A -> A -> bool).

(** [s.startswith(p)]. *)
Fixpoint startswith (p s : list A) : bool :=
  match p, s with
  | [], _ => true
  | _ :: _, [] => false
  | a :: p', b :: s' => eqb a b && startswith p' s'
  end.

(** [needle in s]. *)
Fixpoint contains (needle s : list A) : bool :=
  startswith needle s ||
  match s with
  | [] => false
  | _ :: s' => contains needle s'
  end.

(** [s.replace(old, new)] for a non-empty [old]: the occurrences are taken
    from the left and do not overlap; [skip] counts the characters of the
    occurrence just replaced that are still to be passed over. *)
Fixpoint replace_from (old new : list A) (skip : nat) (s : list A) : list A :=
  match s with
  | [] => []
  | c :: s' =>
      match skip with
      | S k => replace_from old new k s'
      | O =>
          if startswith old s
          then new ++ replace_from old new (length old - 1) s'
          else c :: replace_from old new 0 s'
      end
  end.

Definition replace (old new s : list A) : list A := replace_from old new 0 s.

End Text.

End PyStr.

(** ** Text files *)

Module PyText.

(** A [str]: the list of its code points. *)
Definition str : Set := list Z.

(** The continuation bytes [0x80 .. 0xBF]. *)
Definition continuation (b : Z) : bool := (128 <=? b) && (b <=? 191).

(** The surrogates [U+D800 .. U+DFFF]. *)
Definition surrogate (c : Z) : bool := (55296 <=? c) && (c <=? 57343).

(** [bytes.decode('utf-8')] with strict error handling; [None] stands for
    [UnicodeDecodeError]: a stray or missing continuation byte, an overlong
    form, a surrogate or a value above [U+10FFFF]. *)
Fixpoint utf8_decode (bs : list byte) : option str :=
  match bs with
  | [] => Some []
  | b0 :: r0 =>
      let a := Z_of_byte b0 in
      if a <? 128 then option_map (cons a) (utf8_decode r0)
      else if (194 <=? a) && (a <=? 223) then
        match r0 with
        | b1 :: r1 =>
            let b := Z_of_byte b1 in
            if continuation b
            then option_map (cons ((a - 192) * 64 + (b - 128))) (utf8_decode r1)
            else None
        | _ => None
        end
      else if (224 <=? a) && (a <=? 239) then
        match r0 with
        | b1 :: b2 :: r2 =>
            let b := Z_of_byte b1 in
            let c := Z_of_byte b2 in
            let cp := (a - 224) * 4096 + (b - 128) * 64 + (c - 128) in
            if continuation b && continuation c && (2048 <=? cp) && negb (surrogate cp)
            then option_map (cons cp) (utf8_decode r2)
            else None
        | _ => None
        end
      else if (240 <=? a) && (a <=? 244) then
        match r0 with
        | b1 :: b2 :: b3 :: r3 =>
            let b := Z_of_byte b1 in
            let c := Z_of_byte b2 in
            let d := Z_of_byte b3 in
            let cp := (a - 240) * 262144 + (b - 128) * 4096 + (c - 128) * 64 + (d - 128) in
            if continuation b && continuation c && continuation d &&
               (65536 <=? cp) && (cp <=? 1114111)
            then option_map (cons cp) (utf8_decode r3)
            else None
        | _ => None
        end
      else None
  end.

(** The UTF-8 form of one code point; [None] stands for [UnicodeEncodeError]
    (a surrogate). *)
Definition utf8_encode_char (c : Z) : option (list byte) :=
  if c <? 128 then Some [byte_of_Z c]
  else if c <? 2048 then
    Some [byte_of_Z (192 + c / 64); byte_of_Z (128 + c mod 64)]
  else if c <? 65536 then
    if surrogate c then None
    else Some [byte_of_Z (224 + c / 4096); byte_of_Z (128 + (c / 64) mod 64);
               byte_of_Z (128 + c mod 64)]
  else
    Some [byte_of_Z (240 + c / 262144); byte_of_Z (128 + (c / 4096) mod 64);
          byte_of_Z (128 + (c / 64) mod 64); byte_of_Z (128 + c mod 64)].

(** [str.encode('utf-8')]. *)
Fixpoint utf8_encode (s : str) : option (list byte) :=
  match s with
  | [] => Some []
  | c :: s' =>
      match utf8_encode_char c, utf8_encode s' with
      | Some bs, Some rest => Some (bs ++ rest)
      | _, _ => None
      end
  end.

(** Universal newlines, the translation of a text file opened for reading
    with [newline=None]: ['\r\n'] and ['\r'] become ['\n']. *)
Fixpoint universal_newlines (s : str) : str :=
  match s with
  | [] => []
  | c :: s' =>
      if c =? 13 then
        match s' with
        | d :: s'' =>
            if d =? 10 then 10 :: universal_newlines s''
            else 10 :: universal_newlines s'
        | [] => [10]
        end
      else c :: universal_newlines s'
  end.

(** [open(path, 'r', encoding='utf-8').read()] on the bytes of the file. *)
Definition read_text (file : list byte) : option str :=
  option_map universal_newlines (utf8_decode file).

(** [open(path, 'w', encoding='utf-8').write(s)]: the bytes of the file
    afterwards, on a system whose [os.linesep] is ['\n']. *)
Definition write_text (s : str) : option (list byte) := utf8_encode s.

End PyText.

(** ** prepare_demo.py *)

Module PrepareDemo.

Definition FMT_STR : list Struct.code := Downsample.FMT.
Definition RECORD_SIZE : nat := Struct.calcsize FMT_STR.

(** [count_records]; [os.path.getsize] is the length of the file. *)
Definition count_records (dat : list byte) : result Z :=
  let size := Z.of_nat (length dat) in
  if negb (size mod Z.of_nat RECORD_SIZE =? 0)
  then Err RuntimeError
  else Ok (size / Z.of_nat RECORD_SIZE).

Definition STREAM_ROW_LENGTH : Z := 36.
Definition VERTEX_ROW_LENGTH : Z := 32.

(** The values of the configuration dict: integers, floats, strings and
    lists of integers. *)
Inductive json : Set :=
| JInt (n : Z)
| JFloat (x : PyFloat.t)
| JStr (s : string)
| JList (l : list Z).

(** [write_config]: the dict dumped to [config_local.json], in key order. *)
Definition write_config (model_rel_url : string) (total_cap max_frame : Z)
  : list (string * json) :=
  [ ("MODEL_URL"%string, JStr model_rel_url);
    ("MAX_FRAME"%string, JInt max_frame);
    ("SLICE_NUM"%string, JInt 1);
    ("TOTAL_CAP"%string, JInt total_cap);
    ("STREAM_ROW_LENGTH"%string, JInt STREAM_ROW_LENGTH);
    ("SH_DEGREE"%string, JInt 0);
    ("VERTEX_ROW_LENGTH"%string, JInt VERTEX_ROW_LENGTH);
    ("INIT_VIEW"%string,
     JList [1; 0; 0; 0;  0; 1; 0; 0;  0; 0; 1; 0;  0; 0; 5; 1]);
    ("fx"%string, JFloat (PyFloat.of_int 1835));
    ("fy"%string, JFloat (PyFloat.of_int 1835));
    ("W"%string, JInt 1920);
    ("H"%string, JInt 1080);
    ("FPS"%string, JInt 30);
    ("PREFETCH_SEC"%string, JInt 1) ].


(** The text of [main.js] and the literals of the patch: code points. *)
Definition text : Set := PyText.str.

(** A string literal of the source (ASCII) as a text. *)
Definition literal (s : string) : text :=
  map (fun c => Z.of_N (Ascii.N_of_ascii c)) (list_ascii_of_string s).

Definition newline : string := String (Ascii.ascii_of_nat 10) EmptyString.

(** The text ['config_local.json'] looked for in [main.js]. *)
Definition local_marker : text := literal "config_local.json".

(** The first argument of [src.replace]: the remote URL construction. *)
Definition remote_config : text :=
  literal
    ("    let target_config = new URL(" ++ newline ++
     "        `config_${target}.json`," ++ newline ++
     "        atob('aHR0cHM6Ly9odWdnaW5nZmFjZS5jby9OZXV0cmlub0xpdS90ZXN0R1MvcmF3L21haW4v')," ++ newline ++
     "    );")%string.

(** The second argument of [src.replace]. *)
Definition local_config : text :=
  literal "    let target_config = 'config_local.json';".

(** How a call of [patch_main_js_for_local_config] ends: [main.js] written
    with a new content, [main.js] left as it was (the early [return]), or an
    exception of the text layer. *)
Inductive patch_result : Set :=
| Written (content : list byte)
| Unchanged
| DecodeError
| EncodeError.

(** [patch_main_js_for_local_config] on the bytes of [main.js]. *)
Definition patch_main_js_for_local_config (file : list byte) : patch_result :=
  match PyText.read_text file with
  | None => DecodeError
  | Some src =>
      if PyStr.contains Z.eqb local_marker src then Unchanged
      else
        match PyText.write_text (PyStr.replace Z.eqb remote_config local_config src) with
        | Some content => Written content
        | None => EncodeError
        end
  end.

(** The bytes of [main.js] after a call that does not raise. *)
Definition patched_content (file : list byte) : option (list byte) :=
  match patch_main_js_for_local_config file with
  | Written content => Some content
  | Unchanged => Some file
  | _ => None
  end.

(** The files [main] touches: the directory [demo/data], the configuration
    and [main.js]. *)
Record demo_fs : Set := mkFs {
  data_dir : list (string * list byte);
  config_file : option (list (string * json));
  main_js : option (list byte)
}.

Inductive demo_error : Set :=
| FileNotFoundError
| UnicodeDecodeError
| UnicodeEncodeError
| Raised (e : pyerr).

(** How a run of [main] ends: with the count it prints, or with an
    exception. *)
Inductive outcome : Set :=
| Prepared (total : Z)
| Failed (e : demo_error).

(** [main]; [dat] is the content of the file [--dat] names, [None] when it is
    not an existing file; the file is not the copy [demo/data/<name>]
    itself. *)
Definition main (dat : option (list byte)) (name : string) (max_frame : Z)
    (fs : demo_fs) : demo_fs * outcome :=
  match dat with
  | None => (fs, Failed FileNotFoundError)
  | Some content =>
      let fs1 := mkFs ((name, content) :: data_dir fs) (config_file fs) (main_js fs) in
      match count_records content with
      | Err e => (fs1, Failed (Raised e))
      | Ok total =>
          let config := write_config ("data/" ++ name)%string total max_frame in
          let fs2 := mkFs (data_dir fs1) (Some config) (main_js fs1) in
          match main_js fs2 with
          | None => (fs2, Failed FileNotFoundError)
          | Some file =>
              match patch_main_js_for_local_config file with
              | Written content' =>
                  (mkFs (data_dir fs2) (config_file fs2) (Some content'), Prepared total)
              | Unchanged => (fs2, Prepared total)
              | DecodeError => (fs2, Failed UnicodeDecodeError)
              | EncodeError =>
                  (mkFs (data_dir fs2) (config_file fs2) (Some []),
                   Failed UnicodeEncodeError)
              end
          end
      end
  end.

End PrepareDemo.

(** ** Notions used to state the properties *)

(** Order-preserving subsequence. *)
Inductive Subseq {A : Type} : list A -> list A -> Prop :=
| Subseq_nil : Subseq [] []
| Subseq_skip x l1 l2 : Subseq l1 l2 -> Subseq l1 (x :: l2)
| Subseq_keep x l1 l2 : Subseq l1 l2 -> Subseq (x :: l1) (x :: l2).

(** The frame fields of a record, as its first four bytes encode them. *)
Definition start_frame (rec : list byte) : Z := be_int (take 2 rec).
Definition end_frame (rec : list byte) : Z := be_int (take 2 (drop 2 rec)).

(** The stride test at the 1-indexed input position [pos]. *)
Definition stride_eligible (stride pos : Z) : bool :=
  (stride <=? 1) || (pos mod stride =? 0).

(** The span test. *)
Definition span_ok (min_span : Z) (rec : list byte) : bool :=
  min_span <=? end_frame rec - start_frame rec.

(** The records that pass both tests, in input order; [pos] is the position
    of the record before the first one of [recs]. *)
Fixpoint survivors (min_span stride pos : Z) (recs : list (list byte))
  : list (list byte) :=
  match recs with
  | [] => []
  | rec :: recs' =>
      if stride_eligible stride (pos + 1) && span_ok min_span rec
      then rec :: survivors min_span stride (pos + 1) recs'
      else survivors min_span stride (pos + 1) recs'
  end.

(** The exact value of a finite float; the other floats count as 0. *)
Definition F2Q (x : spec_float) : Q :=
  match x with
  | S754_finite s m e =>
      match e with
      | Zneg p => Qmake (cond_Zopp s (Zpos m)) (2 ^ p)%positive
      | _ => inject_Z (cond_Zopp s (Zpos m) * 2 ^ e)
      end
  | _ => 0%Q
  end.

(** Truncation of a rational toward zero. *)
Definition Qtruncate (q : Q) : Z :=
  if Qle_bool 0 q then Qfloor q else Qceiling q.

(** The float [val * 128 + 128] that [to_byte] converts to an integer. *)
Definition scaled (val : PyFloat.t) : PyFloat.t :=
  PyFloat.add (PyFloat.mul val (PyFloat.of_int 128)) (PyFloat.of_int 128).

(** The byte of a component: its scaled value truncated, then clamped. *)
Definition trunc_byte (val : PyFloat.t) : Z :=
  Z.max 0 (Z.min 255 (Qtruncate (F2Q (scaled val)))).

(** The quantization as the specification words it:
    [byte = round(v*128 + 128)], clamped to [[0,255]]. *)
Definition to_byte_rounding (val : PyFloat.t) : result Z :=
  b <- PyFloat.round (scaled val) ;;
  Ok (Z.max 0 (Z.min 255 b)).

Definition quantize_by_rounding (q : Converter.quaternion) : result (Z * Z * Z * Z) :=
  '(w, x, y, z) <- Converter.normalized q ;;
  bw <- to_byte_rounding w ;;
  bx <- to_byte_rounding x ;;
  by_ <- to_byte_rounding y ;;
  bz <- to_byte_rounding z ;;
  Ok (bw, bx, by_, bz).

(** The quaternion (3, 4, 0, 0), of norm 5. *)
Definition quaternion_3_4 : Converter.quaternion :=
  (PyFloat.of_int 3, PyFloat.of_int 4, PyFloat.zero, PyFloat.zero).

Definition quaternion_zero : Converter.quaternion :=
  (PyFloat.zero, PyFloat.zero, PyFloat.zero, PyFloat.zero).

(** A Python float that holds a binary32 value, as [float(np.float32)]
    and [struct.unpack] produce them. *)
Definition float32_valued (x : PyFloat.t) : Prop :=
  exists y, valid_binary Binary32.prec Binary32.emax y = true /\
            x = Binary32.to_double y.

(** A value that fits the field of a format character. *)
Definition well_typed (c : Struct.code) (v : Struct.pyval) : Prop :=
  match c, v with
  | Struct.H, Struct.VInt n => 0 <= n <= 65535
  | Struct.B, Struct.VInt n => 0 <= n <= 255
  | Struct.f, Struct.VFloat x => float32_valued x
  | _, _ => False
  end.

(** A vertex as [read_vertices_colors] returns it: float32 coordinates and
    uint8 colour channels. *)
Definition vertex_ok (v : Converter.vertex) : Prop :=
  valid_binary Binary32.prec Binary32.emax (Converter.vx v) = true /\
  valid_binary Binary32.prec Binary32.emax (Converter.vy v) = true /\
  valid_binary Binary32.prec Binary32.emax (Converter.vz v) = true /\
  0 <= Converter.red v <= 255 /\
  0 <= Converter.green v <= 255 /\
  0 <= Converter.blue v <= 255.

(** The fields of the record of vertex [v] in a file converted at frame
    [frame] with opacity 200, scale 2.0 and the identity rotation. *)
Definition example_fields (frame : Z) (v : Converter.vertex) : list Struct.pyval :=
  [ Struct.VInt frame; Struct.VInt frame;
    Struct.VFloat (Binary32.to_double (Converter.vx v));
    Struct.VFloat (Binary32.to_double (Converter.vy v));
    Struct.VFloat (Binary32.to_double (Converter.vz v));
    Struct.VInt (Converter.red v); Struct.VInt (Converter.green v);
    Struct.VInt (Converter.blue v);
    Struct.VInt 200;
    Struct.VFloat (PyFloat.of_int 2); Struct.VFloat (PyFloat.of_int 2);
    Struct.VFloat (PyFloat.of_int 2);
    Struct.VInt 255; Struct.VInt 128; Struct.VInt 128; Struct.VInt 128 ].

(** The command line of the example: two files of one vertex each. *)
Definition example_args (v1 v2 : Converter.vertex) : Converter.args :=
  Converter.mkArgs [[v1]; [v2]] 10 200 (PyFloat.of_int 2)
    (PyFloat.one, PyFloat.zero, PyFloat.zero, PyFloat.zero).

Definition sample_vertex : Converter.vertex :=
  Converter.mkVertex (Binary32.of_double (PyFloat.of_int 3))
                     (S754_zero true)
                     (Binary32.of_double (PyFloat.of_int (-7)))
                     255 0 17.

(** The exponent function of binary64. *)
Definition fexp64 (k : Z) : Z := Z.max (k - 53) (-1074).

(** The floats 128.0 and 1.0. *)
Definition float_128 : PyFloat.t := S754_finite false 4503599627370496 (-45).
Definition float_one : PyFloat.t := S754_finite false 4503599627370496 (-52).

(** Modelled from the spec: the decoding of a quantized rotation byte,
    [(byte - 128) / 128]; the repository has no decoder of its own. *)
Definition dequantize (b : Z) : Q := Qmake (b - 128) 128.

(** A component of a unit quaternion: a binary64 number in [[-1, 1]]. *)
Definition unit_component (v : PyFloat.t) : Prop :=
  valid_binary PyFloat.prec PyFloat.emax v = true /\
  PyFloat.leb v PyFloat.one = true /\
  PyFloat.leb (SFopp PyFloat.one) v = true.





(** The number of records the loop still writes before a cap [l <> 0] stops
    it, when [kept] records are written already. *)
Definition quota (l kept : Z) : nat := Z.to_nat (Z.max 1 (l - kept)).

(** A record with the given frame fields and 32 further zero bytes. *)
Definition sample_record (sf ef : Z) : list byte :=
  be_bytes 2 sf ++ be_bytes 2 ef ++ repeat x00 32.

(** Three records with spans 0, 7 and 9, and five stray bytes. *)
Definition sample_file : list byte :=
  sample_record 10 10 ++ sample_record 3 10 ++ sample_record 1 10 ++ repeat xff 5.

(** The [k]-th 36-byte block of a file. *)
Definition block (input : list byte) (k : nat) : list byte :=
  take 36 (drop (36 * k) input).

(** The tuple [generate_records_for_file] yields for vertex [v]. *)
Definition record_fields (start_frame end_frame opacity : Z) (scale : PyFloat.t)
    (rot : Z * Z * Z * Z) (v : Converter.vertex) : list Struct.pyval :=
  let '(rw, rx, ry, rz) := rot in
  let s := Binary32.to_double (Binary32.of_double scale) in
  [ Struct.VInt start_frame; Struct.VInt end_frame;
    Struct.VFloat (Binary32.to_double (Converter.vx v));
    Struct.VFloat (Binary32.to_double (Converter.vy v));
    Struct.VFloat (Binary32.to_double (Converter.vz v));
    Struct.VInt (Converter.red v); Struct.VInt (Converter.green v);
    Struct.VInt (Converter.blue v);
    Struct.VInt opacity;
    Struct.VFloat s; Struct.VFloat s; Struct.VFloat s;
    Struct.VInt rw; Struct.VInt rx; Struct.VInt ry; Struct.VInt rz ].

(** The records of a conversion: file [i] contributes its vertices in order,
    all at frame [i * frame_step]. *)
Definition frame_records (a : Converter.args) (rot : Z * Z * Z * Z)
    (first : nat) (files : list (list Converter.vertex)) : list (list Struct.pyval) :=
  concat (map (fun '(i, ply) =>
                 let frame := Z.of_nat i * Converter.frame_step a in
                 map (record_fields frame frame (Converter.default_opacity a)
                        (Converter.default_scale a) rot) ply)
              (combine (seq first (length files)) files)).

(** The [rec[i]: ...] lines of [validate_dat] for the tuples [recs], numbered
    from [i]. *)
Fixpoint numbered (i : Z) (recs : list (list Struct.pyval)) : list Converter.line :=
  match recs with
  | [] => []
  | r :: recs' => Converter.Rec i r :: numbered (i + 1) recs'
  end.

(** The NaN. *)
Definition is_nan (x : spec_float) : bool :=
  match x with
  | S754_nan => true
  | _ => false
  end.

(** NaN and the two infinities. *)
Definition non_finite (x : spec_float) : bool :=
  match x with
  | S754_nan | S754_infinity _ => true
  | _ => false
  end.

(** A float that is not NaN and carries no minus sign. *)
Definition unsigned_float (x : spec_float) : bool :=
  match x with
  | S754_zero false | S754_infinity false | S754_finite false _ _ => true
  | _ => false
  end.

(** A Unicode scalar value: a code point that is no surrogate. *)
Definition scalar (c : Z) : Prop :=
  0 <= c <= 1114111 /\ PyText.surrogate c = false.




(** ** Lists, slices and bytes *)

Lemma takeZ_firstn {A} (l : list A) : forall n, takeZ n l = firstn (Z.to_nat n) l.
Proof.
  induction l as [|a l IH]; intros n; simpl.
  - now rewrite firstn_nil.
  - destruct (Z.leb_spec n 0) as [Hn|Hn].
    + replace (Z.to_nat n) with 0%nat by lia. reflexivity.
    + replace (Z.to_nat n) with (S (Z.to_nat (n - 1))) by lia.
      simpl. now rewrite IH.
Qed.

Lemma dropZ_skipn {A} (l : list A) : forall n, dropZ n l = skipn (Z.to_nat n) l.
Proof.
  induction l as [|a l IH]; intros n; simpl.
  - now rewrite skipn_nil.
  - destruct (Z.leb_spec n 0) as [Hn|Hn].
    + replace (Z.to_nat n) with 0%nat by lia. reflexivity.
    + replace (Z.to_nat n) with (S (Z.to_nat (n - 1))) by lia.
      simpl. now rewrite IH.
Qed.

Lemma Subseq_nil_l {A} (l : list A) : Subseq [] l.
Proof. induction l; constructor; assumption. Qed.

Lemma Subseq_length {A} (l1 l2 : list A) :
  Subseq l1 l2 -> (length l1 <= length l2)%nat.
Proof. induction 1; simpl; lia. Qed.

Lemma Subseq_trans {A} (l1 l2 l3 : list A) :
  Subseq l1 l2 -> Subseq l2 l3 -> Subseq l1 l3.
Proof.
  intros H12 H23. revert l1 H12.
  induction H23 as [|x l2 l3 H IH|x l2 l3 H IH]; intros l1 H12.
  - assumption.
  - constructor. now apply IH.
  - inversion H12; subst.
    + constructor. now apply IH.
    + apply Subseq_keep. now apply IH.
Qed.

Lemma Subseq_firstn {A} (n : nat) (l : list A) : Subseq (firstn n l) l.
Proof.
  revert n. induction l as [|a l IH]; intros [|n]; simpl.
  - constructor.
  - constructor.
  - apply Subseq_nil_l.
  - apply Subseq_keep, IH.
Qed.

(** ** The chunked record reader *)

Module ReaderFacts.
Import Downsample.

Lemma RECORD_SIZE_eq : RECORD_SIZE = 36%nat.
Proof. reflexivity. Qed.

Lemma aligned_spec (c : Z) :
  aligned c mod 36 = 0 /\ aligned c <= c < aligned c + 36.
Proof.
  unfold aligned. rewrite RECORD_SIZE_eq. change (Z.of_nat 36) with 36.
  pose proof (Z.mod_pos_bound c 36 ltac:(lia)) as Hb.
  split; [|lia].
  rewrite Zminus_mod, Zmod_mod, Z.sub_diag. reflexivity.
Qed.

Lemma aligned_nonneg (c : Z) : 0 <= c -> 0 <= aligned c.
Proof.
  intros Hc. unfold aligned. rewrite RECORD_SIZE_eq. change (Z.of_nat 36) with 36.
  pose proof (Z.mod_le c 36 Hc ltac:(lia)). lia.
Qed.

Lemma aligned_multiple (c : Z) :
  0 <= c -> exists k : nat, aligned c = Z.of_nat (36 * k).
Proof.
  intros Hc. destruct (aligned_spec c) as [Hm _].
  pose proof (aligned_nonneg c Hc) as H0.
  exists (Z.to_nat (aligned c / 36)).
  rewrite (Z.div_mod (aligned c) 36) at 1 by lia. rewrite Hm.
  pose proof (Z.div_pos (aligned c) 36 H0 ltac:(lia)). lia.
Qed.

Lemma read_nonneg (rest : list byte) (n : Z) :
  0 <= n ->
  read rest n = Ok (firstn (Z.to_nat n) rest, skipn (Z.to_nat n) rest).
Proof.
  intros Hn. unfold read.
  destruct (Z.ltb_spec n (-1)); [lia|].
  destruct (Z.eqb_spec n (-1)); [lia|].
  now rewrite takeZ_firstn, dropZ_skipn.
Qed.

Lemma read_negative (rest : list byte) (n : Z) :
  n < -1 -> read rest n = Err ValueError.
Proof.
  intros Hn. unfold read. destruct (Z.ltb_spec n (-1)); [reflexivity|lia].
Qed.

Lemma length_records_of_chunk (l : list byte) :
  length (records_of_chunk l) = (length l / 36)%nat.
Proof. unfold records_of_chunk. now rewrite length_map, length_seq. Qed.

Lemma records_of_chunk_nth (l : list byte) (k : nat) (r : list byte) :
  nth_error (records_of_chunk l) k = Some r ->
  r = block l k /\ (36 * k + 36 <= length l)%nat /\ length r = 36%nat.
Proof.
  unfold records_of_chunk, block, take, drop. rewrite RECORD_SIZE_eq.
  intros Hnth.
  assert (Hk : (k < length l / 36)%nat).
  { assert (Hs : nth_error (map (fun i => firstn 36 (skipn (i * 36) l)) (seq 0 (length l / 36))) k <> None)
      by (rewrite Hnth; discriminate).
    apply nth_error_Some in Hs. now rewrite length_map, length_seq in Hs. }
  rewrite nth_error_map, nth_error_seq in Hnth.
  destruct (Nat.ltb_spec k (length l / 36)) as [_|]; [|lia].
  cbn [option_map Nat.add] in Hnth.
  assert (Hr : r = firstn 36 (skipn (k * 36) l)) by congruence.
  subst r. clear Hnth.
  assert (Hlen : (36 * k + 36 <= length l)%nat).
  { pose proof (Nat.Div0.mul_div_le (length l) 36). lia. }
  repeat split.
  - now rewrite (Nat.mul_comm k 36).
  - exact Hlen.
  - rewrite length_firstn, length_skipn. lia.
Qed.

Lemma records_of_chunk_short (l : list byte) :
  (length l < 36)%nat -> records_of_chunk l = [].
Proof.
  intros Hl. unfold records_of_chunk. rewrite RECORD_SIZE_eq.
  now rewrite Nat.div_small.
Qed.

Lemma records_of_chunk_cons (l : list byte) :
  (36 <= length l)%nat ->
  records_of_chunk l = firstn 36 l :: records_of_chunk (skipn 36 l).
Proof.
  intros Hl. unfold records_of_chunk, take, drop. rewrite RECORD_SIZE_eq.
  rewrite length_skipn.
  replace (length l / 36)%nat with (S ((length l - 36) / 36)).
  2:{ replace (length l) with ((length l - 36) + 1 * 36)%nat at 2 by lia.
      rewrite Nat.div_add by lia. lia. }
  cbn [seq map]. f_equal.
  rewrite <- seq_shift, map_map. apply map_ext. intros i.
  rewrite skipn_skipn. f_equal. f_equal. lia.
Qed.

Lemma records_of_chunk_app (k : nat) : forall a b : list byte,
  length a = (36 * k)%nat ->
  records_of_chunk (a ++ b) = records_of_chunk a ++ records_of_chunk b.
Proof.
  induction k as [|k IH]; intros a b Ha.
  - destruct a; [reflexivity | discriminate].
  - rewrite (records_of_chunk_cons (a ++ b)) by (rewrite length_app; lia).
    rewrite (records_of_chunk_cons a) by lia.
    rewrite firstn_app, skipn_app.
    replace (36 - length a)%nat with 0%nat by lia.
    rewrite firstn_O, skipn_O, app_nil_r, <- app_comm_cons. f_equal.
    apply IH. rewrite length_skipn. lia.
Qed.

Lemma records_of_chunk_concat (l : list byte) :
  concat (records_of_chunk l) = firstn (36 * (length l / 36)) l.
Proof.
  remember (length l / 36)%nat as m eqn:Hm. revert l Hm.
  induction m as [|m IH]; intros l Hm.
  - rewrite records_of_chunk_short; [reflexivity|].
    destruct (Nat.ltb_spec (length l) 36) as [|Hge]; [assumption|].
    pose proof (Nat.Div0.div_le_mono 36 (length l) 36 Hge) as Hd.
    rewrite Nat.div_same in Hd by lia. lia.
  - assert (Hl : (36 <= length l)%nat).
    { destruct (Nat.ltb_spec (length l) 36) as [Hlt|]; [|assumption].
      rewrite Nat.div_small in Hm by assumption. discriminate. }
    rewrite records_of_chunk_cons by assumption. cbn [concat].
    rewrite (IH (skipn 36 l)).
    + replace (36 * S m)%nat with (36 + 36 * m)%nat by lia.
      rewrite <- (firstn_skipn 36 l) at 3.
      rewrite firstn_app, length_firstn.
      replace (Nat.min 36 (length l)) with 36%nat by lia.
      rewrite firstn_firstn.
      replace (Nat.min (36 + 36 * m) 36) with 36%nat by lia.
      f_equal. f_equal. lia.
    + rewrite length_skipn.
      replace (length l) with ((length l - 36) + 1 * 36)%nat in Hm by lia.
      rewrite Nat.div_add in Hm by lia. lia.
Qed.

(** The reads of a run with a positive, aligned chunk length. *)
Lemma read_chunks_aligned (k : nat) : forall (fuel : nat) (rest : list byte),
  (0 < k)%nat ->
  (length rest < fuel)%nat ->
  exists chunks,
    read_chunks fuel rest (Z.of_nat (36 * k)) = Ok chunks /\
    concat chunks = rest /\
    flat_map records_of_chunk chunks = records_of_chunk rest /\
    forall i c, nth_error chunks i = Some c ->
      c = firstn (36 * k) (skipn (i * (36 * k)) rest) /\ c <> [].
Proof.
  intros fuel. induction fuel as [|fuel IH]; intros rest Hk Hfuel; [lia|].
  cbn [read_chunks]. rewrite read_nonneg by lia. rewrite Nat2Z.id. cbn [bind].
  destruct (firstn (36 * k) rest) as [|b chunk] eqn:Hchunk.
  - assert (rest = []) as ->.
    { destruct rest; [reflexivity|].
      replace (36 * k)%nat with (S (36 * k - 1)) in Hchunk by lia. discriminate. }
    exists []. split; [reflexivity|]. split; [reflexivity|]. split; [reflexivity|].
    intros [|i] c Hc; discriminate.
  - destruct (IH (skipn (36 * k) rest) Hk) as (chunks & Hrun & Hcat & Hrecs & Hnth).
    { rewrite length_skipn.
      destruct rest; [rewrite firstn_nil in Hchunk; discriminate|].
      cbn [length] in *. lia. }
    rewrite Hrun. cbn [bind]. exists ((b :: chunk) :: chunks).
    rewrite <- Hchunk. split; [reflexivity|]. split; [|split].
    + cbn [concat]. rewrite Hcat. apply firstn_skipn.
    + cbn [flat_map]. rewrite Hrecs.
      destruct (Nat.leb_spec (36 * k) (length rest)) as [Hle|Hgt].
      * rewrite <- (records_of_chunk_app k).
        -- now rewrite firstn_skipn.
        -- rewrite length_firstn. lia.
      * rewrite firstn_all2 by lia. rewrite skipn_all2 by lia.
        now rewrite app_nil_r.
    + intros [|i] c H; cbn [nth_error] in H.
      * assert (c = firstn (36 * k) rest) as -> by congruence.
        split; [reflexivity|]. rewrite Hchunk. discriminate.
      * apply Hnth in H. destruct H as [-> Hne]. split; [|exact Hne].
        rewrite skipn_skipn. f_equal. f_equal. lia.
Qed.

Lemma read_chunks_zero (fuel : nat) (rest : list byte) :
  read_chunks (S fuel) rest 0 = Ok [].
Proof. cbn [read_chunks]. rewrite read_nonneg by lia. reflexivity. Qed.

Lemma read_chunks_negative (fuel : nat) (rest : list byte) (n : Z) :
  n < -1 -> read_chunks (S fuel) rest n = Err ValueError.
Proof. intros Hn. cbn [read_chunks]. now rewrite read_negative. Qed.

(** Whatever the chunk budget of at least one record, the generator yields
    the blocks of the file. *)
Lemma iter_records_blocks (input : list byte) (c : Z) :
  36 <= c -> iter_records input c = Ok (records_of_chunk input).
Proof.
  intros Hc. unfold iter_records, chunks_read.
  destruct (aligned_multiple c ltac:(lia)) as [k Hk].
  destruct (aligned_spec c) as [_ Hb].
  destruct (read_chunks_aligned k (S (length input)) input) as (chunks & Hrun & _ & Hrecs & _);
    [lia | lia |].
  rewrite Hk, Hrun. cbn [bind]. now rewrite Hrecs.
Qed.

Lemma Forall_records_of_chunk (l : list byte) :
  Forall (fun r => length r = 36%nat) (records_of_chunk l).
Proof.
  apply Forall_forall. intros r Hin.
  apply In_nth_error in Hin. destruct Hin as [k Hk].
  now apply records_of_chunk_nth in Hk.
Qed.

End ReaderFacts.

(** ** The downsample loop *)

Module LoopFacts.
Import Downsample.

Lemma unpack_header (rec : list byte) :
  (4 <= length rec)%nat ->
  Struct.unpack_from [Struct.H; Struct.H] rec 0 =
  Ok [Struct.VInt (start_frame rec); Struct.VInt (end_frame rec)].
Proof.
  intros Hlen. unfold Struct.unpack_from.
  change (Struct.calcsize [Struct.H; Struct.H]) with 4%nat.
  destruct (Nat.leb_spec (0 + 4) (length rec)) as [_|]; [|lia].
  reflexivity.
Qed.

Lemma classify_stride (min_span stride total : Z) (rec : list byte) :
  stride_eligible stride total = false ->
  classify min_span stride total rec = Ok SkipStride.
Proof.
  unfold stride_eligible, classify. intros H.
  apply orb_false_elim in H. destruct H as [Hs Hm].
  rewrite Hm. rewrite Z.leb_antisym in Hs.
  apply negb_false_iff in Hs. now rewrite Hs.
Qed.

Lemma classify_span (min_span stride total : Z) (rec : list byte) :
  (4 <= length rec)%nat ->
  stride_eligible stride total = true ->
  classify min_span stride total rec =
  Ok (if span_ok min_span rec then Keep else SkipSpan).
Proof.
  unfold stride_eligible, classify, span_ok. intros Hlen H.
  replace ((1 <? stride) && negb (total mod stride =? 0)) with false.
  2:{ rewrite Z.leb_antisym in H. destruct (1 <? stride), (total mod stride =? 0);
        simpl in *; congruence. }
  rewrite unpack_header by assumption. cbn [bind].
  rewrite (Z.leb_antisym (end_frame rec - start_frame rec) min_span).
  now destruct (end_frame rec - start_frame rec <? min_span).
Qed.

Lemma survivors_app (min_span stride : Z) (a b : list (list byte)) : forall pos,
  survivors min_span stride pos (a ++ b) =
  survivors min_span stride pos a ++
  survivors min_span stride (pos + Z.of_nat (length a)) b.
Proof.
  induction a as [|r a IH]; intros pos.
  - cbn [app survivors length]. now rewrite Z.add_0_r.
  - cbn [app survivors length]. rewrite IH.
    replace (pos + 1 + Z.of_nat (length a)) with (pos + Z.of_nat (S (length a))) by lia.
    now destruct (stride_eligible stride (pos + 1) && span_ok min_span r).
Qed.

Lemma survivors_Subseq (min_span stride : Z) (recs : list (list byte)) : forall pos,
  Subseq (survivors min_span stride pos recs) recs.
Proof.
  induction recs as [|r recs IH]; intros pos; cbn [survivors].
  - constructor.
  - destruct (stride_eligible stride (pos + 1) && span_ok min_span r);
      constructor; apply IH.
Qed.

Section Loop.
Variables min_span stride : Z.

Let survs := survivors min_span stride.
Let loop := downsample_loop min_span stride.

(** Without a cap the loop writes every survivor and reads every record. *)
Lemma loop_uncapped (limit : option Z) (recs : list (list byte)) :
  truthy limit = false ->
  Forall (fun r => length r = 36%nat) recs ->
  forall st,
    loop limit recs st =
    Ok (mkState (out st ++ survs (total st) recs)
                (kept st + Z.of_nat (length (survs (total st) recs)))
                (total st + Z.of_nat (length recs))).
Proof.
  intros Hlim Hall. subst survs loop.
  induction Hall as [|r recs Hr Hall IH]; intros st.
  - cbn [downsample_loop survivors length]. destruct st as [o k t]; cbn.
    now rewrite app_nil_r, !Z.add_0_r.
  - cbn [downsample_loop survivors].
    destruct (stride_eligible stride (total st + 1)) eqn:Hs.
    + rewrite classify_span by (assumption || lia). cbn [bind andb].
      destruct (span_ok min_span r) eqn:Hp.
      * rewrite Hlim. cbn [andb]. rewrite IH. cbn [out kept total length].
        rewrite <- app_assoc. cbn [app]. do 2 f_equal; lia.
      * rewrite IH. cbn [out kept total length]. do 2 f_equal; lia.
    + rewrite classify_stride by assumption. cbn [bind andb].
      rewrite IH. cbn [out kept total length]. do 2 f_equal; lia.
Qed.

(** With a cap [l <> 0] the loop writes the first [quota] survivors; when
    there are that many it stops at the last of them. *)
Lemma loop_capped (l : Z) (recs : list (list byte)) :
  l <> 0 ->
  Forall (fun r => length r = 36%nat) recs ->
  forall st,
    let n := quota l (kept st) in
    exists st',
      loop (Some l) recs st = Ok st' /\
      out st' = out st ++ firstn n (survs (total st) recs) /\
      kept st' = kept st + Z.of_nat (length (firstn n (survs (total st) recs))) /\
      ((length (survs (total st) recs) < n)%nat ->
         total st' = total st + Z.of_nat (length recs)) /\
      ((n <= length (survs (total st) recs))%nat ->
         exists pre r post,
           recs = pre ++ r :: post /\
           total st' = total st + Z.of_nat (length pre) + 1 /\
           firstn n (survs (total st) recs) = survs (total st) pre ++ [r] /\
           survs (total st) (pre ++ [r]) = survs (total st) pre ++ [r]).
Proof.
  intros Hl Hall. subst survs loop.
  induction Hall as [|r recs Hr Hall IH]; intros st n.
  - exists st. cbn [downsample_loop survivors length].
    rewrite firstn_nil, app_nil_r. cbn [length].
    split; [reflexivity|]. split; [reflexivity|]. split; [lia|].
    split; [intros _; lia|].
    intros Hn. unfold n, quota in Hn. cbn [length] in Hn. lia.
  - cbn [downsample_loop survivors].
    destruct (stride_eligible stride (total st + 1) && span_ok min_span r) eqn:Hpass.
    + apply andb_true_iff in Hpass. destruct Hpass as [Hs Hp].
      rewrite classify_span by (assumption || lia). rewrite Hp. cbn [bind].
      cbn [truthy kept].
      replace (negb (l =? 0)) with true
        by (symmetry; apply negb_true_iff, Z.eqb_neq; assumption).
      cbn [andb].
      destruct (Z.leb_spec l (kept st + 1)) as [Hstop|Hgo].
      * (* the cap is reached by this record *)
        assert (Hn : n = 1%nat) by (unfold n, quota; lia).
        rewrite Hn. cbn [firstn length].
        eexists. split; [reflexivity|]. cbn [out kept total].
        split; [reflexivity|]. split; [lia|]. split; [lia|].
        intros _. exists [], r, recs.
        cbn [app length survivors]. rewrite Hs, Hp. cbn [andb].
        split; [reflexivity|]. split; [lia|]. split; reflexivity.
      * (* more records are wanted *)
        destruct (IH (mkState (out st ++ [r]) (kept st + 1) (total st + 1)))
          as (st' & Hrun & Hout & Hkept & Hshort & Hfull).
        cbn [out kept total] in Hout, Hkept, Hshort, Hfull.
        assert (Hn : n = S (quota l (kept st + 1))) by (unfold n, quota; lia).
        rewrite Hn. cbn [firstn length].
        exists st'. split; [exact Hrun|].
        split; [rewrite Hout, <- app_assoc; reflexivity|].
        split; [lia|]. split; [intros H; rewrite Hshort; lia|].
        intros H.
        destruct Hfull as (pre & r' & post & Hrecs & Htot & Hfirst & Hlast); [lia|].
        exists (r :: pre), r', post. cbn [app length survivors].
        rewrite Hs, Hp. cbn [andb]. rewrite Hfirst, Hlast.
        split; [now rewrite Hrecs|]. split; [lia|]. split; reflexivity.
    + assert (Hclass : classify min_span stride (total st + 1) r = Ok SkipStride \/
                       classify min_span stride (total st + 1) r = Ok SkipSpan).
      { destruct (stride_eligible stride (total st + 1)) eqn:Hs.
        - right. rewrite classify_span by (assumption || lia).
          cbn [andb] in Hpass. now rewrite Hpass.
        - left. now apply classify_stride. }
      destruct (IH (mkState (out st) (kept st) (total st + 1)))
        as (st' & Hrun & Hout & Hkept & Hshort & Hfull).
      cbn [out kept total] in Hout, Hkept, Hshort, Hfull.
      exists st'.
      split; [destruct Hclass as [-> | ->]; exact Hrun|].
      split; [exact Hout|]. split; [exact Hkept|].
      split; [intros H; rewrite Hshort; cbn [length]; lia|].
      intros H.
      destruct Hfull as (pre & r' & post & Hrecs & Htot & Hfirst & Hlast); [exact H|].
      exists (r :: pre), r', post. cbn [app length survivors].
      rewrite Hpass. split; [now rewrite Hrecs|]. split; [lia|].
      split; [exact Hfirst | exact Hlast].
Qed.

End Loop.

End LoopFacts.

(** ** Runs of [downsample] *)

Module RunFacts.
Import Downsample.

Lemma nth_error_flat_map {A B} (g : A -> list B) (l : list A) : forall k r,
  nth_error (flat_map g l) k = Some r ->
  exists i c j, nth_error l i = Some c /\ nth_error (g c) j = Some r.
Proof.
  induction l as [|a l IH]; intros k r Hk; cbn [flat_map] in Hk.
  - destruct k; discriminate.
  - rewrite nth_error_app in Hk.
    destruct (Nat.ltb_spec k (length (g a))) as [Hlt|Hge].
    + exists 0%nat, a, k. split; [reflexivity | exact Hk].
    + apply IH in Hk. destruct Hk as (i & c & j & Hi & Hj).
      exists (S i), c, j. split; assumption.
Qed.

Lemma firstn_snoc {A} (pre post : list A) (r : A) :
  firstn (length pre + 1) (pre ++ r :: post) = pre ++ [r].
Proof.
  induction pre as [|a pre IH]; cbn [length app Nat.add firstn].
  - reflexivity.
  - now rewrite IH.
Qed.

Lemma default_chunk_large : 36 <= default_chunk_bytes.
Proof. unfold default_chunk_bytes. lia. Qed.

Lemma run_uncapped (input : list byte) (min_span stride : Z) (limit : option Z) :
  truthy limit = false ->
  let recs := records_of_chunk input in
  let survs := survivors min_span stride 0 recs in
  downsample_run input min_span stride limit =
  Ok (mkState survs (Z.of_nat (length survs)) (Z.of_nat (length recs))).
Proof.
  intros Hlim recs survs. unfold downsample_run.
  rewrite ReaderFacts.iter_records_blocks by apply default_chunk_large.
  cbn [bind].
  rewrite LoopFacts.loop_uncapped
    by (assumption || apply ReaderFacts.Forall_records_of_chunk).
  reflexivity.
Qed.

Lemma run_capped (input : list byte) (min_span stride l : Z) :
  l <> 0 ->
  let recs := records_of_chunk input in
  let survs := survivors min_span stride 0 recs in
  let n := quota l 0 in
  exists st,
    downsample_run input min_span stride (Some l) = Ok st /\
    out st = firstn n survs /\
    kept st = Z.of_nat (length (out st)) /\
    ((length survs < n)%nat -> total st = Z.of_nat (length recs)) /\
    ((n <= length survs)%nat ->
       exists pre r post,
         recs = pre ++ r :: post /\
         total st = Z.of_nat (length pre) + 1 /\
         out st = survivors min_span stride 0 pre ++ [r] /\
         out st = survivors min_span stride 0 (pre ++ [r])).
Proof.
  intros Hl recs survs n. unfold downsample_run.
  rewrite ReaderFacts.iter_records_blocks by apply default_chunk_large.
  cbn [bind].
  destruct (LoopFacts.loop_capped min_span stride l recs Hl
              (ReaderFacts.Forall_records_of_chunk input) (mkState [] 0 0))
    as (st & Hrun & Hout & Hkept & Hshort & Hfull).
  cbn [out kept total app] in Hout, Hkept, Hshort, Hfull.
  exists st. split; [exact Hrun|]. split; [exact Hout|].
  split; [rewrite Hkept, Hout; lia|].
  split; [intros H; rewrite Hshort by exact H; lia|].
  intros H. destruct (Hfull H) as (pre & r & post & Hrecs & Htot & Hfirst & Hlast).
  exists pre, r, post. split; [exact Hrecs|]. split; [lia|].
  rewrite Hout. split; [exact Hfirst|]. now rewrite Hlast.
Qed.

(** Every run ends normally, having read a prefix of the records and
    written the survivors of that prefix. *)
Lemma run_prefix (input : list byte) (min_span stride : Z) (limit : option Z) :
  let recs := records_of_chunk input in
  exists st,
    downsample_run input min_span stride limit = Ok st /\
    kept st = Z.of_nat (length (out st)) /\
    0 <= total st <= Z.of_nat (length recs) /\
    out st = survivors min_span stride 0 (firstn (Z.to_nat (total st)) recs).
Proof.
  intros recs.
  destruct (truthy limit) eqn:Hlim.
  - destruct limit as [l|]; [|discriminate].
    assert (Hl : l <> 0).
    { cbn [truthy] in Hlim. apply negb_true_iff in Hlim. now apply Z.eqb_neq. }
    destruct (run_capped input min_span stride l Hl)
      as (st & Hrun & Hout & Hkept & Hshort & Hfull).
    exists st. split; [exact Hrun|]. split; [exact Hkept|].
    fold recs in Hout, Hshort, Hfull.
    destruct (Nat.ltb_spec (length (survivors min_span stride 0 recs))
                           (quota l 0)) as [Hlt|Hge].
    + rewrite (Hshort Hlt). split; [lia|].
      rewrite Nat2Z.id, firstn_all, Hout. now rewrite firstn_all2 by lia.
    + destruct (Hfull Hge) as (pre & r & post & Hrecs & Htot & _ & Hpre).
      assert (Hlen : length recs = (length pre + S (length post))%nat)
        by (rewrite Hrecs, length_app; reflexivity).
      split; [lia|].
      replace (Z.to_nat (total st)) with (length pre + 1)%nat by lia.
      now rewrite Hrecs, firstn_snoc.
  - rewrite run_uncapped by assumption. subst recs.
    eexists. split; [reflexivity|]. cbn [out kept total].
    split; [reflexivity|]. split; [lia|].
    now rewrite Nat2Z.id, firstn_all.
Qed.

Lemma run_cap_bound (input : list byte) (min_span stride l : Z) :
  0 < l ->
  exists st,
    downsample_run input min_span stride (Some l) = Ok st /\
    Z.of_nat (length (out st)) <= l.
Proof.
  intros Hl.
  destruct (run_capped input min_span stride l ltac:(lia))
    as (st & Hrun & Hout & _).
  exists st. split; [exact Hrun|].
  rewrite Hout, length_firstn. unfold quota. lia.
Qed.

End RunFacts.

(** ** Big-endian integers *)

Module ByteFacts.

Lemma Z_of_byte_range (b : byte) : 0 <= Z_of_byte b < 256.
Proof.
  unfold Z_of_byte. pose proof (Byte.to_N_bounded b) as H. lia.
Qed.

Lemma Z_of_byte_of_Z (z : Z) : Z_of_byte (byte_of_Z z) = z mod 256.
Proof.
  unfold Z_of_byte, byte_of_Z.
  pose proof (Z.mod_pos_bound z 256 ltac:(lia)) as Hb.
  destruct (Byte.of_N (Z.to_N (z mod 256))) as [b|] eqn:Hof.
  - apply Byte.to_of_N in Hof. rewrite Hof. lia.
  - apply Byte.of_N_None_iff in Hof. lia.
Qed.

Lemma be_int_snoc (l : list byte) (b : byte) :
  be_int (l ++ [b]) = be_int l * 256 + Z_of_byte b.
Proof. unfold be_int. now rewrite fold_left_app. Qed.

Lemma length_be_bytes (k : nat) : forall n, length (be_bytes k n) = k.
Proof.
  induction k as [|k IH]; intros n; cbn [be_bytes].
  - reflexivity.
  - rewrite length_app, IH. cbn [length]. lia.
Qed.

Lemma be_int_be_bytes (k : nat) : forall n,
  0 <= n < 256 ^ Z.of_nat k -> be_int (be_bytes k n) = n.
Proof.
  induction k as [|k IH]; intros n Hn.
  - cbn in *. lia.
  - cbn [be_bytes]. rewrite be_int_snoc, Z_of_byte_of_Z.
    rewrite Nat2Z.inj_succ, Z.pow_succ_r in Hn by lia.
    rewrite IH.
    + pose proof (Z.div_mod n 256 ltac:(lia)). lia.
    + split; [apply Z.div_pos; lia|].
      apply Z.div_lt_upper_bound; lia.
Qed.

End ByteFacts.

(** ** Rounding in [SpecFloat] *)

Module FloatFacts.

Lemma digits2_size (m : positive) : digits2_pos m = Pos.size m.
Proof. induction m; cbn; congruence. Qed.

Lemma digits2_bounds (m : positive) :
  2 ^ (Zpos (digits2_pos m) - 1) <= Zpos m < 2 ^ Zpos (digits2_pos m).
Proof.
  rewrite digits2_size.
  pose proof (Pos.size_gt m) as Hgt. pose proof (Pos.size_le m) as Hle.
  apply Pos2Z.pos_lt_pos in Hgt. apply Pos2Z.pos_le_pos in Hle.
  rewrite Pos2Z.inj_pow in Hgt, Hle.
  assert (Hpow : 2 ^ Zpos (Pos.size m) = 2 * 2 ^ (Zpos (Pos.size m) - 1)).
  { rewrite <- Z.pow_succ_r by lia. f_equal. lia. }
  lia.
Qed.

Lemma iter_pos_eq {A} (f : A -> A) (p : positive) : forall x, SpecFloat.iter_pos f p x = Pos.iter f x p.
Proof.
  induction p as [p IH|p IH|]; intros x; cbn [SpecFloat.iter_pos Pos.iter].
  - rewrite !IH. now rewrite <- !Pos.iter_swap.
  - now rewrite !IH.
  - reflexivity.
Qed.

Lemma iter_xO (m p : positive) : Zpos (Pos.iter xO m p) = Zpos m * 2 ^ Zpos p.
Proof.
  induction p as [|p IH] using Pos.peano_ind.
  - cbn [Pos.iter]. lia.
  - rewrite Pos.iter_succ, Pos2Z.inj_xO, IH, Pos2Z.inj_succ, Z.pow_succ_r by lia. lia.
Qed.

Lemma digits2_iter_xO (m p : positive) :
  digits2_pos (Pos.iter xO m p) = (digits2_pos m + p)%positive.
Proof.
  induction p as [|p IH] using Pos.peano_ind.
  - cbn [Pos.iter digits2_pos]. lia.
  - rewrite Pos.iter_succ. cbn [digits2_pos]. rewrite IH. lia.
Qed.

Lemma shr_exact (m p : positive) :
  SpecFloat.iter_pos shr_1 p (Build_shr_record (Zpos (Pos.iter xO m p)) false false) =
  Build_shr_record (Zpos m) false false.
Proof.
  rewrite iter_pos_eq. revert m.
  induction p as [|p IH] using Pos.peano_ind; intros m.
  - reflexivity.
  - rewrite Pos.iter_succ. rewrite Pos.iter_succ, <- Pos.iter_swap.
    cbn [shr_1 orb]. apply IH.
Qed.

Section Rounding.
Variables prec emax : Z.

Lemma canonical_iff (m : positive) (e : Z) :
  canonical_mantissa prec emax m e = true <->
  Z.max (Zpos (digits2_pos m) + e - prec) (3 - emax - prec) = e.
Proof. unfold canonical_mantissa, fexp, emin. apply Z.eqb_eq. Qed.

Lemma bounded_iff (m : positive) (e : Z) :
  bounded prec emax m e = true <->
  Z.max (Zpos (digits2_pos m) + e - prec) (3 - emax - prec) = e /\ e <= emax - prec.
Proof.
  unfold bounded. rewrite andb_true_iff, canonical_iff, Z.leb_le. reflexivity.
Qed.

Lemma shr_fexp_canonical (m : positive) (e : Z) :
  canonical_mantissa prec emax m e = true ->
  shr_fexp prec emax (Zpos m) e loc_Exact =
  (Build_shr_record (Zpos m) false false, e).
Proof.
  intros H. unfold shr_fexp. cbn [Zdigits2 shr_record_of_loc].
  unfold canonical_mantissa in H. apply Z.eqb_eq in H. rewrite H, Z.sub_diag.
  reflexivity.
Qed.

Lemma binary_round_aux_canonical (s : bool) (m : positive) (e : Z) :
  bounded prec emax m e = true ->
  binary_round_aux prec emax s (Zpos m) e loc_Exact = S754_finite s m e.
Proof.
  intros H. unfold bounded in H. apply andb_true_iff in H. destruct H as [Hc He].
  unfold binary_round_aux. rewrite shr_fexp_canonical by assumption.
  cbn [shr_m loc_of_shr_record round_nearest_even].
  rewrite shr_fexp_canonical by assumption. cbn [shr_m]. now rewrite He.
Qed.

Lemma binary_round_canonical (s : bool) (m : positive) (e : Z) :
  bounded prec emax m e = true ->
  binary_round prec emax s m e = S754_finite s m e.
Proof.
  intros H. pose proof H as Hb.
  unfold bounded in H. apply andb_true_iff in H. destruct H as [Hc He].
  unfold binary_round, shl_align.
  unfold canonical_mantissa in Hc. apply Z.eqb_eq in Hc. rewrite Hc, Z.sub_diag.
  now apply binary_round_aux_canonical.
Qed.

(** Rounding a number with too short a mantissa only pads it with zeros. *)
Lemma binary_round_widen (s : bool) (m d : positive) (e : Z) :
  fexp prec emax (Zpos (digits2_pos m) + e) = e - Zpos d ->
  e - Zpos d <= emax - prec ->
  binary_round prec emax s m e = S754_finite s (Pos.iter xO m d) (e - Zpos d).
Proof.
  intros Hf He. unfold binary_round, shl_align. rewrite Hf.
  replace (e - Zpos d - e) with (Zneg d) by lia.
  apply binary_round_aux_canonical.
  unfold bounded, canonical_mantissa. rewrite digits2_iter_xO, Pos2Z.inj_add.
  replace (Zpos (digits2_pos m) + Zpos d + (e - Zpos d))
    with (Zpos (digits2_pos m) + e) by lia.
  rewrite Hf, Z.eqb_refl. cbn [andb]. now apply Z.leb_le.
Qed.

(** Rounding a padded number that fits the format removes the padding. *)
Lemma binary_round_narrow (s : bool) (m d : positive) (e : Z) :
  bounded prec emax m e = true ->
  binary_round prec emax s (Pos.iter xO m d) (e - Zpos d) = S754_finite s m e.
Proof.
  intros H. pose proof H as Hb.
  unfold bounded in H. apply andb_true_iff in H. destruct H as [Hc He].
  pose proof Hc as Hc'. unfold canonical_mantissa in Hc'. apply Z.eqb_eq in Hc'.
  assert (Hf : fexp prec emax (Zpos (digits2_pos (Pos.iter xO m d)) + (e - Zpos d)) = e).
  { rewrite digits2_iter_xO, Pos2Z.inj_add. rewrite <- Hc' at 2. f_equal. lia. }
  unfold binary_round, shl_align. rewrite Hf.
  replace (e - (e - Zpos d)) with (Zpos d) by lia.
  unfold binary_round_aux, shr_fexp. cbn [Zdigits2 shr_record_of_loc].
  rewrite Hf. replace (e - (e - Zpos d)) with (Zpos d) by lia.
  cbn [shr]. rewrite shr_exact.
  cbn [shr_m loc_of_shr_record round_nearest_even Zdigits2 shr_record_of_loc].
  replace (e - Zpos d + Zpos d) with e by lia.
  rewrite Hc', Z.sub_diag. cbn [shr shr_m]. now rewrite He.
Qed.

End Rounding.

Lemma shr_1_m (mrs : shr_record) :
  0 <= shr_m mrs -> shr_m (shr_1 mrs) = shr_m mrs / 2.
Proof.
  destruct mrs as [m r s]. cbn [shr_m shr_1].
  destruct m as [|[p|p|]|p]; cbn [shr_m]; intros H;
    try (Z.to_euclidean_division_equations; lia).
Qed.

Lemma shr_m_iter (p : positive) (mrs : shr_record) :
  0 <= shr_m mrs ->
  shr_m (SpecFloat.iter_pos shr_1 p mrs) = shr_m mrs / 2 ^ Zpos p.
Proof.
  intros Hm. rewrite iter_pos_eq.
  induction p as [|p IH] using Pos.peano_ind.
  - cbn [Pos.iter]. now rewrite shr_1_m.
  - rewrite Pos.iter_succ, shr_1_m, IH.
    + rewrite Z.div_div by lia. rewrite Pos2Z.inj_succ, Z.pow_succ_r by lia.
      f_equal. lia.
    + rewrite IH. apply Z.div_pos; lia.
Qed.

Lemma round_nearest_even_bounds (q : Z) (l : location) :
  q <= round_nearest_even q l <= q + 1.
Proof.
  destruct l as [|[]]; cbn [round_nearest_even]; try lia.
  destruct (Z.even q); lia.
Qed.

Lemma Zdigits2_bounds (z : Z) :
  0 < z -> 2 ^ (Zdigits2 z - 1) <= z < 2 ^ Zdigits2 z.
Proof.
  destruct z as [|p|p]; try lia. intros _. apply digits2_bounds.
Qed.

Lemma Zdigits2_le (z k : Z) : 0 < z -> z < 2 ^ k -> Zdigits2 z <= k.
Proof.
  intros Hz Hk. pose proof (Zdigits2_bounds z Hz) as [Hlo _].
  destruct (Z.le_gt_cases (Zdigits2 z) k) as [|Hgt]; [assumption|].
  assert (2 ^ k <= 2 ^ (Zdigits2 z - 1)) by (apply Z.pow_le_mono_r; lia).
  lia.
Qed.

Lemma binary_round_aux_padded (prec emax : Z) (s : bool) (m d : positive) (e : Z) :
  bounded prec emax m e = true ->
  binary_round_aux prec emax s (Zpos (Pos.iter xO m d)) (e - Zpos d) loc_Exact =
  S754_finite s m e.
Proof.
  intros H. pose proof H as Hb.
  unfold bounded in H. apply andb_true_iff in H. destruct H as [Hc He].
  pose proof Hc as Hc'. unfold canonical_mantissa in Hc'. apply Z.eqb_eq in Hc'.
  assert (Hf : fexp prec emax (Zpos (digits2_pos (Pos.iter xO m d)) + (e - Zpos d)) = e).
  { rewrite digits2_iter_xO, Pos2Z.inj_add. rewrite <- Hc' at 2. f_equal. lia. }
  unfold binary_round_aux, shr_fexp. cbn [Zdigits2 shr_record_of_loc].
  rewrite Hf. replace (e - (e - Zpos d)) with (Zpos d) by lia.
  cbn [shr]. rewrite shr_exact.
  cbn [shr_m loc_of_shr_record round_nearest_even Zdigits2 shr_record_of_loc].
  replace (e - Zpos d + Zpos d) with e by lia.
  rewrite Hc', Z.sub_diag. cbn [shr shr_m]. now rewrite He.
Qed.

(** Rounding a mantissa that is a bounded one times a power of two. *)
Lemma binary_round_aux_exact (prec emax : Z) (s : bool) (M m : positive) (e d : Z) :
  0 <= d -> Zpos M = Zpos m * 2 ^ d ->
  bounded prec emax m e = true ->
  binary_round_aux prec emax s (Zpos M) (e - d) loc_Exact = S754_finite s m e.
Proof.
  intros Hd HM Hb. destruct d as [|d|d]; [| |lia].
  - rewrite Z.pow_0_r, Z.mul_1_r in HM. injection HM as ->.
    rewrite Z.sub_0_r. now apply binary_round_aux_canonical.
  - rewrite <- iter_xO in HM. injection HM as ->.
    now apply binary_round_aux_padded.
Qed.

Lemma digits2_shift (m : positive) (j : Z) :
  0 <= j ->
  Zpos (digits2_pos (Z.to_pos (Zpos m * 2 ^ j))) = Zpos (digits2_pos m) + j.
Proof.
  intros Hj. destruct j as [|j|j]; [| |lia].
  - rewrite Z.pow_0_r, Z.mul_1_r. cbn [Z.to_pos]. lia.
  - rewrite <- iter_xO. cbn [Z.to_pos]. rewrite digits2_iter_xO. lia.
Qed.

Lemma shl_align_fst (mx : positive) (ex ex' : Z) :
  ex' <= ex -> Zpos (fst (shl_align mx ex ex')) = Zpos mx * 2 ^ (ex - ex').
Proof.
  intros H. unfold shl_align.
  destruct (ex' - ex) as [|d|d] eqn:Hd; cbn [fst].
  - replace (ex - ex') with 0 by lia. lia.
  - lia.
  - rewrite iter_xO. do 2 f_equal. lia.
Qed.


End FloatFacts.

(** ** binary32 values and their bit patterns *)

Module Binary32Facts.
Import Binary32.

(** A finite binary32 is normal, with a 24-bit mantissa, or subnormal. *)
Lemma bounded_cases (m : positive) (e : Z) :
  bounded prec emax m e = true ->
  Zpos (digits2_pos m) <= 24 /\ -149 <= e <= 104 /\
  ((2 ^ 23 <= Zpos m < 2 ^ 24) \/ (Zpos m < 2 ^ 23 /\ e = -149)).
Proof.
  intros H. apply FloatFacts.bounded_iff in H. unfold prec, emax in H.
  destruct H as [Hc He].
  pose proof (FloatFacts.digits2_bounds m) as Hd.
  split; [lia|]. split; [lia|].
  destruct (Z.eq_dec (Zpos (digits2_pos m)) 24) as [H24|Hlt].
  - left. rewrite H24 in Hd. exact Hd.
  - right. split; [|lia].
    assert (Hle : 2 ^ Zpos (digits2_pos m) <= 2 ^ 23)
      by (apply Z.pow_le_mono_r; lia).
    lia.
Qed.

Lemma to_double_finite (s : bool) (m : positive) (e : Z) :
  bounded prec emax m e = true ->
  exists d, to_double (S754_finite s m e) =
            S754_finite s (Pos.iter xO m d) (e - Zpos d).
Proof.
  intros H. apply bounded_cases in H. destruct H as (Hd & He & _).
  exists (Z.to_pos (53 - Zpos (digits2_pos m))).
  cbn [to_double]. apply FloatFacts.binary_round_widen.
  - unfold fexp, emin, PyFloat.prec, PyFloat.emax. rewrite Z2Pos.id by lia. lia.
  - unfold PyFloat.prec, PyFloat.emax. rewrite Z2Pos.id by lia. lia.
Qed.

(** Widening and narrowing back gives the binary32 one started from. *)
Lemma of_double_to_double (y : spec_float) :
  valid_binary prec emax y = true -> of_double (to_double y) = y.
Proof.
  destruct y as [s | s | | s m e]; try reflexivity.
  cbn [valid_binary]. intros H.
  destruct (to_double_finite s m e H) as [d ->].
  cbn [of_double]. now apply FloatFacts.binary_round_narrow.
Qed.

Lemma to_double_infinite (y : spec_float) :
  valid_binary prec emax y = true ->
  is_infinite (to_double y) = is_infinite y.
Proof.
  destruct y as [s | s | | s m e]; try reflexivity.
  cbn [valid_binary]. intros H.
  now destruct (to_double_finite s m e H) as [d ->].
Qed.

Lemma decode_fields (s : bool) (E M : Z) :
  0 <= E < 256 -> 0 <= M < 2 ^ 23 ->
  let b := sign_bit s + E * 2 ^ 23 + M in
  Z.testbit b 31 = s /\ (b / 2 ^ 23) mod 256 = E /\ b mod 2 ^ 23 = M /\
  0 <= b < 2 ^ 32.
Proof.
  intros HE HM b. subst b. unfold sign_bit.
  change (2 ^ 23) with 8388608 in *. change (2 ^ 31) with 2147483648.
  change (2 ^ 32) with 4294967296.
  split.
  - destruct s.
    + apply Z.testbit_true; [lia|]. change (2 ^ 31) with 2147483648.
      Z.to_euclidean_division_equations. lia.
    + apply Z.testbit_false; [lia|]. change (2 ^ 31) with 2147483648.
      Z.to_euclidean_division_equations. lia.
  - destruct s; Z.to_euclidean_division_equations; lia.
Qed.

Lemma of_bits_bits_of (y : spec_float) :
  valid_binary prec emax y = true ->
  of_bits (bits_of y) = y /\ 0 <= bits_of y < 2 ^ 32.
Proof.
  destruct y as [s | s | | s m e]; cbn [valid_binary bits_of]; intros H.
  - destruct (decode_fields s 0 0 ltac:(lia) ltac:(lia)) as (Hs & HE & HM & Hb).
    rewrite Z.mul_0_l, !Z.add_0_r in *. split; [|exact Hb].
    unfold of_bits. rewrite Hs, HE, HM. reflexivity.
  - destruct (decode_fields s 255 0 ltac:(lia) ltac:(lia)) as (Hs & HE & HM & Hb).
    rewrite !Z.add_0_r in *. split; [|exact Hb].
    unfold of_bits. rewrite Hs, HE, HM. reflexivity.
  - split; [reflexivity | cbn; lia].
  - apply bounded_cases in H. destruct H as (_ & He & Hm).
    destruct (Z.ltb_spec (Zpos m) (2 ^ 23)) as [Hsub|Hnorm].
    + assert (e = -149) as -> by (destruct Hm as [Hm|[_ Hm]]; [lia | exact Hm]).
      destruct (decode_fields s 0 (Zpos m) ltac:(lia) ltac:(lia)) as (Hs & HE & HM & Hb).
      rewrite Z.mul_0_l, Z.add_0_r in *. split; [|exact Hb].
      unfold of_bits. rewrite Hs, HE, HM. reflexivity.
    + assert (Hm' : Zpos m < 2 ^ 24) by (destruct Hm as [Hm|[Hm _]]; lia).
      destruct (decode_fields s (e + 150) (Zpos m - 2 ^ 23)) as (Hs & HE & HM & Hb);
        [lia | change (2 ^ 24) with (2 * 2 ^ 23) in Hm'; lia |].
      split; [|exact Hb].
      unfold of_bits. rewrite Hs, HE, HM.
      destruct (Z.eqb_spec (e + 150) 0) as [|_]; [lia|].
      destruct (Z.eqb_spec (e + 150) 255) as [|_]; [lia|].
      replace (Zpos m - 2 ^ 23 + 2 ^ 23) with (Zpos m) by lia.
      f_equal. lia.
Qed.

End Binary32Facts.

(** ** [struct.pack] and [struct.unpack] *)

Module StructFacts.
Import Struct.

Lemma take_app_length {A} (a b : list A) (n : nat) :
  length a = n -> take n (a ++ b) = a.
Proof.
  intros <-. unfold take. rewrite firstn_app, Nat.sub_diag, firstn_O, app_nil_r.
  apply firstn_all.
Qed.

Lemma drop_app_length {A} (a b : list A) (n : nat) :
  length a = n -> drop n (a ++ b) = b.
Proof.
  intros <-. unfold drop. rewrite skipn_app, Nat.sub_diag, skipn_O.
  now rewrite skipn_all.
Qed.

Lemma pack_f_to_double (y : spec_float) :
  valid_binary Binary32.prec Binary32.emax y = true ->
  pack_f (Binary32.to_double y) = Ok (be_bytes 4 (Binary32.bits_of y)).
Proof.
  intros Hy. unfold pack_f.
  rewrite Binary32Facts.of_double_to_double, Binary32Facts.to_double_infinite
    by assumption.
  now destruct (Binary32.is_infinite y).
Qed.

Lemma unpack_f_bits (y : spec_float) :
  valid_binary Binary32.prec Binary32.emax y = true ->
  unpack_f (be_bytes 4 (Binary32.bits_of y)) = Binary32.to_double y.
Proof.
  intros Hy. unfold unpack_f.
  destruct (Binary32Facts.of_bits_bits_of y Hy) as [Hof Hrange].
  rewrite ByteFacts.be_int_be_bytes by exact Hrange.
  now rewrite Hof.
Qed.

Lemma pack_uint_ok (k : nat) (n : Z) :
  0 <= n < 256 ^ Z.of_nat k ->
  pack_uint k n = Ok (be_bytes k n).
Proof.
  intros Hn. unfold pack_uint.
  destruct (Z.leb_spec 0 n); [|lia].
  destruct (Z.ltb_spec n (256 ^ Z.of_nat k)); [reflexivity|lia].
Qed.

Lemma pack_one_unpack_one (c : code) (v : pyval) :
  well_typed c v ->
  exists bs, pack_one c v = Ok bs /\ length bs = size_of c /\ unpack_one c bs = v.
Proof.
  destruct c, v as [n|x]; cbn [well_typed]; try contradiction; intros Hwt.
  - exists (be_bytes 2 n). cbn [pack_one size_of unpack_one].
    rewrite pack_uint_ok by (change (256 ^ Z.of_nat 2) with 65536; lia).
    rewrite ByteFacts.length_be_bytes, ByteFacts.be_int_be_bytes
      by (change (256 ^ Z.of_nat 2) with 65536; lia).
    repeat split.
  - exists (be_bytes 1 n). cbn [pack_one size_of unpack_one].
    rewrite pack_uint_ok by (change (256 ^ Z.of_nat 1) with 256; lia).
    rewrite ByteFacts.length_be_bytes, ByteFacts.be_int_be_bytes
      by (change (256 ^ Z.of_nat 1) with 256; lia).
    repeat split.
  - destruct Hwt as (y & Hy & ->).
    exists (be_bytes 4 (Binary32.bits_of y)). cbn [pack_one size_of unpack_one].
    rewrite pack_f_to_double, ByteFacts.length_be_bytes, unpack_f_bits by assumption.
    repeat split.
Qed.

(** Packing well-typed values and unpacking the bytes gives the values back,
    for every format. *)
Lemma pack_unpack (fmt : list code) (vals : list pyval) :
  Forall2 well_typed fmt vals ->
  exists buf,
    pack fmt vals = Ok buf /\
    length buf = calcsize fmt /\
    unpack fmt buf = Ok vals.
Proof.
  intros Hwt.
  assert (Hfields : exists buf,
            pack fmt vals = Ok buf /\ length buf = calcsize fmt /\
            unpack_fields fmt buf = vals).
  { induction Hwt as [|c v fmt vals Hcv Hwt IH].
    - exists []. repeat split.
    - destruct IH as (rest & Hpack & Hlen & Hunpack).
      destruct (pack_one_unpack_one c v Hcv) as (bs & Hone & Hsize & Hback).
      exists (bs ++ rest). cbn [pack calcsize fold_right unpack_fields].
      rewrite Hone, Hpack. cbn [bind].
      rewrite take_app_length, drop_app_length by assumption.
      rewrite length_app, Hsize, Hback, Hunpack.
      fold (calcsize fmt). rewrite Hlen. repeat split. }
  destruct Hfields as (buf & Hpack & Hlen & Hunpack).
  exists buf. split; [exact Hpack|]. split; [exact Hlen|].
  unfold unpack. now rewrite Hlen, Nat.eqb_refl, Hunpack.
Qed.

End StructFacts.

(** ** Conversion of floats to integers *)

Module IntFacts.

Lemma Qtruncate_Z (z : Z) : Qtruncate (inject_Z z) = z.
Proof.
  unfold Qtruncate. destruct (Qle_bool 0 (inject_Z z));
    [apply Qfloor_Z | apply Qceiling_Z].
Qed.

(** [int(x)] is the exact value of [x], truncated toward zero. *)
Lemma to_int_truncates (x : PyFloat.t) (n : Z) :
  PyFloat.to_int x = Ok n -> n = Qtruncate (F2Q x).
Proof.
  destruct x as [s | s | | s m e]; cbn [PyFloat.to_int]; try discriminate.
  - intros H. injection H as <-. reflexivity.
  - intros H. injection H as <-. cbn [F2Q].
    destruct e as [|p|p].
    + rewrite Qtruncate_Z. cbn [Z.shiftl]. now rewrite Z.mul_1_r.
    + rewrite Qtruncate_Z. rewrite Z.shiftl_mul_pow2 by lia.
      destruct s; cbn [cond_Zopp]; lia.
    + change (Z.shiftl (Zpos m) (Zneg p)) with (Z.shiftr (Zpos m) (Zpos p)).
      rewrite Z.shiftr_div_pow2 by lia.
      unfold Qtruncate, Qle_bool, Qceiling, Qfloor, Qopp.
      cbn [Qnum Qden]. rewrite Pos2Z.inj_pow.
      destruct s; cbn [cond_Zopp Z.opp Z.mul Z.leb Z.compare]; reflexivity.
Qed.

Lemma to_byte_truncates (v : PyFloat.t) (b : Z) :
  Converter.to_byte v = Ok b -> b = trunc_byte v /\ 0 <= b <= 255.
Proof.
  unfold Converter.to_byte, trunc_byte. fold (scaled v).
  destruct (PyFloat.to_int (scaled v)) as [n|] eqn:Hn; [|discriminate].
  cbn [bind]. intros H. injection H as <-.
  apply to_int_truncates in Hn. subst n. split; [reflexivity | lia].
Qed.

End IntFacts.

(** ** The error of the quaternion quantization *)

Module QuantizeFacts.
Import FloatFacts.

Lemma fexp_binary64 k : fexp PyFloat.prec PyFloat.emax k = fexp64 k.
Proof. reflexivity. Qed.

(** First half of [binary_round]: alignment and the first shift. *)
Lemma binary_round_first (M : positive) (e : Z) :
  e <= 0 -> Zpos (digits2_pos M) + e <= 52 ->
  let f1 := fexp64 (Zpos (digits2_pos M) + e) in
  let '(mz, ez) := shl_align M e f1 in
  let '(mrs, e1) := shr_fexp PyFloat.prec PyFloat.emax (Zpos mz) ez loc_Exact in
  e1 = f1 /\ 0 <= shr_m mrs < 2 ^ 53 /\
  shr_m mrs / 2 ^ (- f1) = Zpos M / 2 ^ (- e).
Proof.
  intros He Hd f1.
  pose proof (digits2_bounds M) as HdM.
  set (dM := Zpos (digits2_pos M)) in *.
  assert (Hf1 : f1 = Z.max (dM + e - 53) (-1074)) by reflexivity.
  unfold shl_align.
  destruct (f1 - e) as [|n|n] eqn:Hn.
  - (* f1 = e *)
    unfold shr_fexp. cbn [Zdigits2]. fold dM. rewrite fexp_binary64. fold f1.
    rewrite Hn. cbn [shr shr_record_of_loc shr_m].
    assert (f1 = e) by lia.
    split; [lia|]. split; [|now rewrite H].
    split; [lia|].
    assert (2 ^ dM <= 2 ^ 53) by (apply Z.pow_le_mono_r; lia). lia.
  - (* f1 > e: a right shift *)
    unfold shr_fexp. cbn [Zdigits2]. fold dM. rewrite fexp_binary64. fold f1.
    rewrite Hn. cbn [shr shr_record_of_loc].
    rewrite shr_m_iter by (cbn; lia). cbn [shr_m].
    assert (Hpn : Zpos n = f1 - e) by lia.
    split; [lia|].
    assert (Hq : 0 <= Zpos M / 2 ^ Zpos n) by (apply Z.div_pos; lia).
    split; [split; [exact Hq|]|].
    + apply Z.div_lt_upper_bound; [lia|].
      rewrite <- Z.pow_add_r by lia.
      assert (2 ^ dM <= 2 ^ (Zpos n + 53)) by (apply Z.pow_le_mono_r; lia). lia.
    + rewrite Z.div_div by lia. rewrite <- Z.pow_add_r by lia.
      f_equal. f_equal. lia.
  - (* f1 < e: a left shift *)
    assert (Hpn : Zpos n = e - f1) by lia.
    unfold shr_fexp. cbn [Zdigits2]. rewrite digits2_iter_xO, Pos2Z.inj_add. fold dM.
    rewrite fexp_binary64.
    replace (dM + Zpos n + f1) with (dM + e) by lia. fold f1.
    rewrite Z.sub_diag. cbn [shr shr_record_of_loc shr_m].
    rewrite iter_xO.
    split; [reflexivity|].
    split; [split; [lia|]|].
    + assert (2 ^ dM * 2 ^ Zpos n <= 2 ^ 53).
      { rewrite <- Z.pow_add_r by lia. apply Z.pow_le_mono_r; lia. }
      nia.
    + replace (- f1) with (Zpos n + - e) by lia.
      rewrite Z.pow_add_r by lia.
      rewrite (Z.mul_comm (2 ^ Zpos n)).
      apply Z.div_mul_cancel_r; lia.
Qed.

Lemma shiftl_nonpos (a e : Z) : e <= 0 -> Z.shiftl a e = a / 2 ^ (- e).
Proof.
  intros He. rewrite <- Z.shiftr_opp_r. apply Z.shiftr_div_pow2. lia.
Qed.

(** Second half of [binary_round_aux]: rounding and renormalization. *)
Lemma round_second (s : bool) (q f1 : Z) (l : location) :
  0 <= q < 2 ^ 53 -> -1074 <= f1 <= -1 ->
  let r1 := round_nearest_even q l in
  let '(mrs2, e2) := shr_fexp PyFloat.prec PyFloat.emax r1 f1 loc_Exact in
  PyFloat.to_int
    match shr_m mrs2 with
    | Z0 => S754_zero s
    | Zpos m => if e2 <=? PyFloat.emax - PyFloat.prec
                then S754_finite s m e2 else S754_infinity s
    | Zneg _ => S754_nan
    end = Ok (cond_Zopp s (r1 / 2 ^ (- f1))).
Proof.
  intros Hq Hf1 r1.
  pose proof (round_nearest_even_bounds q l) as Hr1. fold r1 in Hr1.
  unfold shr_fexp. rewrite fexp_binary64. cbn [shr_record_of_loc].
  destruct r1 as [|pr|pr] eqn:Hpr; [| |lia].
  - cbn [Zdigits2]. unfold fexp64.
    destruct (Z.max (0 + f1 - 53) (-1074) - f1) as [|n|n] eqn:Hn; [|lia|];
      cbn [shr shr_m PyFloat.to_int]; rewrite Z.div_0_l by lia;
      now destruct s.
  - cbn [Zdigits2].
    pose proof (digits2_bounds pr) as Hd.
    assert (Hd54 : Zpos (digits2_pos pr) <= 54).
    { apply (Zdigits2_le (Zpos pr)); [lia|].
      change (2 ^ 54) with (2 * 2 ^ 53). lia. }
    unfold fexp64.
    destruct (Z.max (Zpos (digits2_pos pr) + f1 - 53) (-1074) - f1) as [|n|n] eqn:Hn.
    + cbn [shr shr_m].
      destruct (Z.leb_spec f1 (PyFloat.emax - PyFloat.prec)) as [_|Hbad];
        [|unfold PyFloat.emax, PyFloat.prec in Hbad; lia].
      cbn [PyFloat.to_int]. now rewrite shiftl_nonpos by lia.
    + (* the mantissa has 54 bits: it is 2^53 *)
      assert (H54 : Zpos (digits2_pos pr) = 54) by lia.
      rewrite H54 in Hd. change (2 ^ (54 - 1)) with (2 ^ 53) in Hd.
      assert (Hpr53 : Zpos pr = 2 ^ 53) by lia.
      assert (Hn1 : n = 1%positive) by lia. subst n.
      change (2 ^ 53) with (Zpos 9007199254740992) in Hpr53.
      injection Hpr53 as ->.
      cbn [shr SpecFloat.iter_pos shr_1 shr_m orb].
      destruct (Z.leb_spec (f1 + 1) (PyFloat.emax - PyFloat.prec)) as [_|Hbad];
        [|unfold PyFloat.emax, PyFloat.prec in Hbad; lia].
      cbn [PyFloat.to_int]. rewrite shiftl_nonpos by lia. do 2 f_equal.
      replace (- f1) with (1 + - (f1 + 1)) by lia.
      rewrite Z.pow_add_r by lia.
      change (Zpos 9007199254740992) with (2 ^ 1 * Zpos 4503599627370496).
      rewrite Z.div_mul_cancel_l by lia. reflexivity.
    + cbn [shr shr_m].
      destruct (Z.leb_spec f1 (PyFloat.emax - PyFloat.prec)) as [_|Hbad];
        [|unfold PyFloat.emax, PyFloat.prec in Hbad; lia].
      cbn [PyFloat.to_int]. now rewrite shiftl_nonpos by lia.
Qed.

(** [int()] of a rounded positive number lies between the integer part of
    the exact number and its successor. *)
Lemma to_int_binary_round (M : positive) (e : Z) :
  e <= 0 -> Zpos (digits2_pos M) + e <= 52 ->
  exists n,
    PyFloat.to_int (binary_round PyFloat.prec PyFloat.emax false M e) = Ok n /\
    Zpos M / 2 ^ (- e) <= n <= Zpos M / 2 ^ (- e) + 1.
Proof.
  intros He Hd.
  pose proof (binary_round_first M e He Hd) as Hfirst. cbv zeta in Hfirst.
  unfold binary_round. rewrite fexp_binary64.
  destruct (shl_align M e (fexp64 (Zpos (digits2_pos M) + e))) as [mz ez].
  unfold binary_round_aux.
  destruct (shr_fexp PyFloat.prec PyFloat.emax (Zpos mz) ez loc_Exact) as [mrs e1].
  destruct Hfirst as (-> & Hq & HJ).
  assert (Hf1 : -1074 <= fexp64 (Zpos (digits2_pos M) + e) <= -1)
    by (unfold fexp64; lia).
  pose proof (round_second false (shr_m mrs) _ (loc_of_shr_record mrs) Hq Hf1) as Hsecond.
  cbv zeta in Hsecond.
  destruct (shr_fexp PyFloat.prec PyFloat.emax
              (round_nearest_even (shr_m mrs) (loc_of_shr_record mrs))
              (fexp64 (Zpos (digits2_pos M) + e)) loc_Exact) as [mrs2 e2].
  cbn [cond_Zopp] in Hsecond. eexists. split; [exact Hsecond|].
  rewrite <- HJ.
  pose proof (round_nearest_even_bounds (shr_m mrs) (loc_of_shr_record mrs)) as Hr.
  set (D := 2 ^ (- fexp64 (Zpos (digits2_pos M) + e))).
  assert (HD : 0 < D) by (apply Z.pow_pos_nonneg; lia).
  split.
  - apply Z.div_le_mono; lia.
  - transitivity ((shr_m mrs + 1 * D) / D).
    + apply Z.div_le_mono; [lia|]. nia.
    + rewrite Z.div_add by lia. lia.
Qed.

Lemma of_int_128 : PyFloat.of_int 128 = float_128.
Proof. reflexivity. Qed.

(** Multiplying a number of magnitude at most one by 128 is exact. *)
Lemma mul_128 (s : bool) (m : positive) (e : Z) :
  bounded PyFloat.prec PyFloat.emax m e = true -> e <= -52 ->
  exists (m' : positive) (j : Z),
    0 <= j <= 7 /\ Zpos m' = Zpos m * 2 ^ j /\
    PyFloat.mul (S754_finite s m e) float_128 = S754_finite s m' (e + 7 - j).
Proof.
  intros Hb He.
  apply bounded_iff in Hb. unfold PyFloat.prec, PyFloat.emax in Hb.
  destruct Hb as [Hc _].
  set (dm := Zpos (digits2_pos m)) in *.
  set (e' := fexp64 (dm + e + 7)).
  assert (He' : e <= e' <= e + 7) by (unfold e', fexp64; lia).
  set (j := e + 7 - e').
  assert (Hpos : 0 < Zpos m * 2 ^ j) by (apply Z.mul_pos_pos; [lia | apply Z.pow_pos_nonneg; lia]).
  exists (Z.to_pos (Zpos m * 2 ^ j)), j.
  split; [lia|]. split; [rewrite Z2Pos.id by exact Hpos; reflexivity|].
  unfold PyFloat.mul, float_128. cbn [SFmul]. rewrite xorb_false_r.
  replace (e + -45) with (e + 7 - j - (52 - j)) by lia.
  apply binary_round_aux_exact.
  - lia.
  - rewrite Z2Pos.id by exact Hpos. rewrite Pos2Z.inj_mul.
    change (Zpos 4503599627370496) with (2 ^ 52).
    rewrite <- Z.mul_assoc, <- Z.pow_add_r by lia. do 2 f_equal. lia.
  - apply bounded_iff. unfold PyFloat.prec, PyFloat.emax.
    rewrite digits2_shift by lia. fold dm.
    replace (dm + j + (e + 7 - j) - 53) with (dm + e + 7 - 53) by lia.
    unfold j, e', fexp64 in *. lia.
Qed.

Lemma one_eq : PyFloat.one = float_one.
Proof. reflexivity. Qed.

(** A finite float between -1 and 1. *)
Lemma unit_interval (s : bool) (m : positive) (e : Z) :
  bounded PyFloat.prec PyFloat.emax m e = true ->
  PyFloat.leb (S754_finite s m e) PyFloat.one = true ->
  PyFloat.leb (SFopp PyFloat.one) (S754_finite s m e) = true ->
  e <= -52 /\ Zpos m <= 2 ^ (- e).
Proof.
  intros Hb Hle Hge.
  apply bounded_iff in Hb. unfold PyFloat.prec, PyFloat.emax in Hb.
  destruct Hb as [Hc _].
  pose proof (digits2_bounds m) as Hd.
  assert (Hm53 : Zpos m < 2 ^ 53).
  { assert (2 ^ Zpos (digits2_pos m) <= 2 ^ 53) by (apply Z.pow_le_mono_r; lia). lia. }
  assert (Hcases : e < -52 \/ (e = -52 /\ Zpos m <= 2 ^ 52)).
  { rewrite one_eq in Hle, Hge. unfold PyFloat.leb, SFleb, float_one in Hle, Hge.
    cbn [SFopp negb SFcompare] in Hle, Hge.
    destruct s.
    - destruct (Z.compare_spec (-52) e) as [Heq|Hlt|Hgt]; [| discriminate |lia].
      right. split; [lia|].
      destruct (Pos.compare_cont Eq 4503599627370496 m) eqn:Hcmp;
        cbn [CompOpp] in Hge; try discriminate.
      + apply Pos.compare_eq in Hcmp. subst m. vm_compute. discriminate.
      + apply Pos.compare_gt_iff, Pos2Z.pos_lt_pos in Hcmp.
        change (2 ^ 52) with (Zpos 4503599627370496). clear - Hcmp. lia.
    - destruct (Z.compare_spec e (-52)) as [Heq|Hlt|Hgt]; [|lia|discriminate].
      right. split; [lia|].
      destruct (Pos.compare_cont Eq m 4503599627370496) eqn:Hcmp; try discriminate.
      + apply Pos.compare_eq in Hcmp. subst m. vm_compute. discriminate.
      + apply Pos.compare_lt_iff, Pos2Z.pos_lt_pos in Hcmp.
        change (2 ^ 52) with (Zpos 4503599627370496). clear - Hcmp. lia. }
  destruct Hcases as [Hlt | [-> Hm]].
  - split; [lia|].
    assert (2 ^ 53 <= 2 ^ (- e)) by (apply Z.pow_le_mono_r; lia). lia.
  - split; [lia | exact Hm].
Qed.

(** The sum [u + 128] of [to_byte] for [u] of magnitude at most 128. *)
Lemma add_128 (s : bool) (m' : positive) (e' : Z) :
  e' <= -45 -> Zpos m' <= 2 ^ (7 - e') ->
  exists n,
    PyFloat.to_int (PyFloat.add (S754_finite s m' e') float_128) = Ok n /\
    let M := cond_Zopp s (Zpos m') + 2 ^ (7 - e') in
    M / 2 ^ (- e') <= n <= M / 2 ^ (- e') + 1.
Proof.
  intros He Hm.
  unfold PyFloat.add, float_128. cbn [SFadd].
  replace (Z.min e' (-45)) with e' by lia.
  rewrite !shl_align_fst by lia.
  rewrite Z.sub_diag, Z.pow_0_r, Z.mul_1_r. cbn [cond_Zopp].
  change (Zpos 4503599627370496) with (2 ^ 52).
  rewrite <- Z.pow_add_r by lia.
  replace (52 + (-45 - e')) with (7 - e') by lia.
  set (C := 2 ^ (7 - e')) in *.
  assert (HC : 0 < C) by (apply Z.pow_pos_nonneg; lia).
  destruct (cond_Zopp s (Zpos m') + C) as [|M|M] eqn:HM.
  - exists 0. cbn [binary_normalize PyFloat.to_int]. split; [reflexivity|].
    cbv zeta. rewrite Z.div_0_l by (apply Z.pow_nonzero; lia). lia.
  - cbn [binary_normalize].
    assert (HMle : Zpos M <= 2 * C) by (destruct s; cbn [cond_Zopp] in HM; lia).
    apply to_int_binary_round; [lia|].
    assert (Hd : Zpos (digits2_pos M) <= 9 - e').
    { apply (Zdigits2_le (Zpos M)); [lia|].
      replace (9 - e') with (2 + (7 - e')) by lia.
      rewrite Z.pow_add_r by lia. fold C. lia. }
    lia.
  - destruct s; cbn [cond_Zopp] in HM; lia.
Qed.

Lemma cond_Zopp_mul (s : bool) (a b : Z) : cond_Zopp s (a * b) = cond_Zopp s a * b.
Proof. destruct s; cbn [cond_Zopp]; lia. Qed.

Lemma to_byte_error (v : PyFloat.t) :
  valid_binary PyFloat.prec PyFloat.emax v = true ->
  PyFloat.leb v PyFloat.one = true ->
  PyFloat.leb (SFopp PyFloat.one) v = true ->
  exists b,
    Converter.to_byte v = Ok b /\ 0 <= b <= 255 /\
    (Qabs (dequantize b - F2Q v) <= 1 # 128)%Q.
Proof.
  intros Hv Hle Hge.
  destruct v as [s | s | | s m e].
  - exists 128. split; [destruct s; vm_compute; reflexivity|].
    split; [lia|]. vm_compute. discriminate.
  - destruct s; vm_compute in Hle, Hge; discriminate.
  - vm_compute in Hle. discriminate.
  - cbn [valid_binary] in Hv.
    destruct (unit_interval s m e Hv Hle Hge) as [He Hm].
    destruct (mul_128 s m e Hv He) as (m' & j & Hj & Hm' & Hmul).
    set (D' := 2 ^ (- e - 7)).
    assert (HD' : 0 < D') by (apply Z.pow_pos_nonneg; lia).
    assert (HD : 2 ^ (- e) = 128 * D').
    { unfold D'. change 128 with (2 ^ 7). rewrite <- Z.pow_add_r by lia.
      f_equal. lia. }
    assert (Hj2 : 0 < 2 ^ j) by (apply Z.pow_pos_nonneg; lia).
    assert (He' : 2 ^ (- (e + 7 - j)) = 2 ^ j * D').
    { unfold D'. rewrite <- Z.pow_add_r by lia. f_equal. lia. }
    assert (HC : 2 ^ (7 - (e + 7 - j)) = 2 ^ j * (128 * D')).
    { rewrite <- HD, <- Z.pow_add_r by lia. f_equal. lia. }
    destruct (add_128 s m' (e + 7 - j)) as (n & Hn & Hbounds); [lia | |].
    { rewrite HC, Hm'. rewrite HD in Hm. nia. }
    cbv zeta in Hbounds. rewrite HC, He', Hm', cond_Zopp_mul in Hbounds.
    replace (cond_Zopp s (Zpos m) * 2 ^ j + 2 ^ j * (128 * D'))
      with (2 ^ j * (cond_Zopp s (Zpos m) + 128 * D')) in Hbounds by lia.
    rewrite Z.div_mul_cancel_l in Hbounds by lia.
    set (Y := cond_Zopp s (Zpos m) + 128 * D') in *.
    assert (HY : 0 <= Y <= 256 * D')
      by (unfold Y; rewrite HD in Hm; destruct s; cbn [cond_Zopp]; lia).
    pose proof (Z.mul_div_le Y D' HD') as Hlo.
    pose proof (Z.mul_succ_div_gt Y D' HD') as Hhi.
    set (J := Y / D') in *.
    assert (HJ : 0 <= J) by (apply Z.div_pos; lia).
    exists (Z.max 0 (Z.min 255 n)).
    split.
    { unfold Converter.to_byte. rewrite of_int_128, Hmul, Hn. reflexivity. }
    split; [lia|].
    destruct e as [|p|p]; try lia. cbn [F2Q].
    apply Qabs_Qle_condition. unfold dequantize, Qle, Qminus, Qplus, Qopp.
    cbn [Qnum Qden]. rewrite !Pos2Z.inj_mul, Pos2Z.inj_pow.
    change (- Zneg p) with (Zpos p) in HD. rewrite HD.
    assert (HX : cond_Zopp s (Zpos m) = Y - 128 * D') by (unfold Y; lia).
    rewrite HX. clearbody J Y D'.
    clear - HD' Hbounds HY Hlo Hhi HJ.
    assert (Hb : Z.max 0 (Z.min 255 n) = n \/
                 (Z.max 0 (Z.min 255 n) = 255 /\ 255 <= n)) by lia.
    destruct Hb as [-> | [-> Hbig]]; nia.
Qed.

Lemma to_byte_returns (v : PyFloat.t) :
  unit_component v -> exists b, Converter.to_byte v = Ok b.
Proof.
  intros (Hv & Hle & Hge).
  destruct (to_byte_error v Hv Hle Hge) as (b & Hb & _). now exists b.
Qed.

End QuantizeFacts.

(** ** [validate_dat] *)

Module ValidateFacts.
Import Converter.

Lemma converter_RECORD_SIZE_eq : RECORD_SIZE = 36%nat.
Proof. reflexivity. Qed.

(** The loop decodes the first [n] blocks of the unread part of the file. *)
Lemma validate_loop_blocks (n : nat) : forall (i : Z) (rest : list byte),
  (36 * n <= length rest)%nat ->
  validate_loop n i rest =
  Ok (map (fun j => Rec (i + Z.of_nat j)
                        (Struct.unpack_fields FMT_STR (block rest j)))
          (seq 0 n)).
Proof.
  induction n as [|n IH]; intros i rest Hlen.
  - reflexivity.
  - cbn [validate_loop]. rewrite converter_RECORD_SIZE_eq. unfold Struct.unpack, take, drop.
    rewrite length_firstn.
    replace (Nat.min 36 (length rest)) with 36%nat by lia.
    change (Struct.calcsize FMT_STR) with 36%nat.
    rewrite Nat.eqb_refl. cbn [bind].
    rewrite IH by (rewrite length_skipn; lia). cbn [bind seq map].
    do 2 f_equal.
    + unfold block, take, drop. rewrite Nat.mul_0_r, skipn_O, Z.add_0_r. reflexivity.
    + rewrite <- seq_shift, map_map. apply map_ext. intros j.
      unfold block, take, drop. rewrite skipn_skipn.
      f_equal; [lia|]. do 3 f_equal. lia.
Qed.

End ValidateFacts.

(** ** The conversion pipeline *)

Module ConvertFacts.
Import Converter.

Lemma identity_rotation_bytes :
  normalize_quaternion_to_bytes
    (PyFloat.one, PyFloat.zero, PyFloat.zero, PyFloat.zero) =
  Ok (255, 128, 128, 128).
Proof. vm_compute. reflexivity. Qed.

Lemma scale_two_float32 :
  Binary32.to_double (np_full_float32 (PyFloat.of_int 2)) = PyFloat.of_int 2.
Proof. vm_compute. reflexivity. Qed.

Lemma two_float32_valued : float32_valued (PyFloat.of_int 2).
Proof.
  exists (Binary32.of_double (PyFloat.of_int 2)).
  split; vm_compute; reflexivity.
Qed.

Lemma generate_single (v : vertex) (frame : Z) :
  generate_records_for_file [v] frame frame 200 (PyFloat.of_int 2)
    (PyFloat.one, PyFloat.zero, PyFloat.zero, PyFloat.zero) =
  Ok [example_fields frame v].
Proof.
  unfold generate_records_for_file.
  change (np_full_uint8 200) with (@Ok Z 200). cbn [bind].
  rewrite identity_rotation_bytes. cbn [bind map].
  rewrite scale_two_float32. reflexivity.
Qed.

Lemma example_fields_well_typed (v : vertex) (frame : Z) :
  vertex_ok v -> 0 <= frame <= 65535 ->
  Forall2 well_typed FMT_STR (example_fields frame v).
Proof.
  intros (Hx & Hy & Hz & Hr & Hg & Hb) Hframe.
  unfold example_fields.
  change FMT_STR with
    [Struct.H; Struct.H; Struct.f; Struct.f; Struct.f;
     Struct.B; Struct.B; Struct.B; Struct.B;
     Struct.f; Struct.f; Struct.f;
     Struct.B; Struct.B; Struct.B; Struct.B].
  repeat (apply Forall2_cons || apply Forall2_nil); cbn [well_typed];
    try lia; try apply two_float32_valued;
    eexists; (split; [|reflexivity]); assumption.
Qed.

End ConvertFacts.

(** ** Rounding to a format *)

Module RoundingFacts.
Import FloatFacts.

Lemma Zdigits2_unique (z k : Z) :
  2 ^ (k - 1) <= z < 2 ^ k -> 0 < z -> Zdigits2 z = k.
Proof.
  intros [Hlo Hhi] Hz.
  pose proof (Zdigits2_bounds z Hz) as [Hlo' Hhi'].
  destruct (Z.lt_trichotomy (Zdigits2 z) k) as [Hlt | [Heq | Hgt]]; [|exact Heq|].
  - assert (2 ^ Zdigits2 z <= 2 ^ (k - 1)) by (apply Z.pow_le_mono_r; lia). lia.
  - assert (2 ^ k <= 2 ^ (Zdigits2 z - 1)) by (apply Z.pow_le_mono_r; lia). lia.
Qed.

Section Valid.
Variables prec emax : Z.
Hypothesis Hprec : 0 < prec.

Let emin := 3 - emax - prec.
Let fexp' (k : Z) := Z.max (k - prec) emin.

Lemma fexp_eq (k : Z) : fexp prec emax k = fexp' k.
Proof. reflexivity. Qed.

(** After alignment and the first shift the mantissa fits the format. *)
Lemma round_first_fits (m : positive) (e : Z) :
  let f1 := fexp' (Zpos (digits2_pos m) + e) in
  let '(mz, ez) := shl_align m e f1 in
  let '(mrs, e1) := shr_fexp prec emax (Zpos mz) ez loc_Exact in
  e1 = f1 /\ 0 <= shr_m mrs /\
  (shr_m mrs = 0 -> f1 = emin) /\
  (0 < shr_m mrs -> Zdigits2 (shr_m mrs) + f1 = Zpos (digits2_pos m) + e).
Proof.
  intros f1.
  pose proof (digits2_bounds m) as HdM.
  set (dM := Zpos (digits2_pos m)) in *.
  assert (Hf1 : f1 = Z.max (dM + e - prec) emin) by reflexivity.
  unfold shl_align.
  destruct (f1 - e) as [|n|n] eqn:Hn.
  - unfold shr_fexp. cbn [Zdigits2]. fold dM. rewrite fexp_eq. fold f1.
    rewrite Hn. cbn [shr shr_record_of_loc shr_m].
    split; [lia|]. split; [lia|]. split; [lia|]. intros _. cbn [Zdigits2]. fold dM. lia.
  - unfold shr_fexp. cbn [Zdigits2]. fold dM. rewrite fexp_eq. fold f1.
    rewrite Hn. cbn [shr shr_record_of_loc].
    rewrite shr_m_iter by (cbn; lia). cbn [shr_m].
    assert (Hpn : Zpos n = f1 - e) by lia.
    assert (Hq : 0 <= Zpos m / 2 ^ Zpos n) by (apply Z.div_pos; lia).
    split; [lia|]. split; [exact Hq|]. split.
    + intros Hzero.
      destruct (Z.le_gt_cases dM (Zpos n)) as [Hbig|Hsmall]; [lia|].
      exfalso.
      assert (2 ^ Zpos n <= 2 ^ (dM - 1)) by (apply Z.pow_le_mono_r; lia).
      assert (1 <= Zpos m / 2 ^ Zpos n).
      { apply Z.div_le_lower_bound; lia. }
      lia.
    + intros Hpos.
      assert (Hk : Zpos n < dM).
      { destruct (Z.lt_ge_cases (Zpos n) dM) as [|Hge]; [assumption|].
        assert (2 ^ dM <= 2 ^ Zpos n) by (apply Z.pow_le_mono_r; lia).
        rewrite Z.div_small in Hpos by lia. lia. }
      rewrite (Zdigits2_unique _ (dM - Zpos n)); [lia| |exact Hpos].
      split.
      * apply Z.div_le_lower_bound; [lia|].
        rewrite <- Z.pow_add_r by lia.
        replace (Zpos n + (dM - Zpos n - 1)) with (dM - 1) by lia. lia.
      * apply Z.div_lt_upper_bound; [lia|].
        rewrite <- Z.pow_add_r by lia.
        replace (Zpos n + (dM - Zpos n)) with dM by lia. lia.
  - assert (Hpn : Zpos n = e - f1) by lia.
    unfold shr_fexp. cbn [Zdigits2]. rewrite digits2_iter_xO, Pos2Z.inj_add. fold dM.
    rewrite fexp_eq.
    replace (dM + Zpos n + f1) with (dM + e) by lia. fold f1.
    rewrite Z.sub_diag. cbn [shr shr_record_of_loc shr_m].
    split; [reflexivity|]. split; [lia|]. split; [lia|].
    intros _. cbn [Zdigits2]. rewrite digits2_iter_xO, Pos2Z.inj_add. fold dM. lia.
Qed.

Lemma Zdigits2_ge (z k : Z) : 0 < z -> 2 ^ (k - 1) <= z -> k <= Zdigits2 z.
Proof.
  intros Hz Hk. pose proof (Zdigits2_bounds z Hz) as [_ Hhi].
  destruct (Z.le_gt_cases k (Zdigits2 z)) as [|Hgt]; [assumption|].
  assert (2 ^ Zdigits2 z <= 2 ^ (k - 1)) by (apply Z.pow_le_mono_r; lia). lia.
Qed.

(** Rounding a mantissa that fits and renormalizing gives a valid number. *)
Lemma round_second_valid (s : bool) (q f1 : Z) (l : location) :
  0 <= q -> emin <= f1 ->
  (q = 0 -> f1 = emin) ->
  (0 < q -> fexp' (Zdigits2 q + f1) = f1) ->
  let r1 := round_nearest_even q l in
  let '(mrs2, e2) := shr_fexp prec emax r1 f1 loc_Exact in
  valid_binary prec emax
    match shr_m mrs2 with
    | Z0 => S754_zero s
    | Zpos m => if e2 <=? emax - prec then S754_finite s m e2 else S754_infinity s
    | Zneg _ => S754_nan
    end = true.
Proof.
  intros Hq Hf1 Hzero Hcanon r1.
  pose proof (round_nearest_even_bounds q l) as Hr1. fold r1 in Hr1.
  unfold shr_fexp. rewrite fexp_eq. cbn [shr_record_of_loc].
  destruct r1 as [|pr|pr] eqn:Hpr; [| |lia].
  - cbn [Zdigits2]. unfold fexp'.
    destruct (Z.max (0 + f1 - prec) emin - f1) as [|n|n] eqn:Hn; [|lia|];
      reflexivity.
  - cbn [Zdigits2].
    pose proof (digits2_bounds pr) as Hd.
    set (d1 := Zpos (digits2_pos pr)) in *.
    assert (Hmono : f1 <= fexp' (d1 + f1) <= f1 + 1 /\
                    (fexp' (d1 + f1) = f1 + 1 ->
                     d1 = prec + 1 /\ Zpos pr = 2 ^ prec)).
    { destruct (Z.eq_dec q 0) as [Hq0|Hq0].
      - assert (Zpos pr = 1) by lia.
        assert (d1 = 1).
        { apply (Zdigits2_unique (Zpos pr) 1); [cbn; lia | lia]. }
        specialize (Hzero Hq0). unfold fexp'. lia.
      - assert (Hqpos : 0 < q) by lia. specialize (Hcanon Hqpos).
        pose proof (Zdigits2_bounds q Hqpos) as [Hqlo Hqhi].
        set (dq := Zdigits2 q) in *.
        assert (Hge : dq <= d1) by (apply (Zdigits2_ge (Zpos pr)); lia).
        assert (Hle : d1 <= dq + 1).
        { apply (Zdigits2_le (Zpos pr)); [lia|].
          rewrite Z.pow_add_r by (unfold dq; destruct q; cbn; lia). lia. }
        unfold fexp' in *. split; [lia|]. intros Hup.
        assert (d1 = dq + 1) by lia.
        assert (dq = prec) by lia.
        split; [lia|].
        subst d1. replace (Zpos (digits2_pos pr) - 1) with dq in Hd by lia.
        assert (Zpos pr <= 2 ^ dq) by lia.
        assert (Hpw : 2 ^ dq = 2 ^ prec) by (f_equal; lia). lia. }
    destruct Hmono as [Hrange Hup].
    destruct (fexp' (d1 + f1) - f1) as [|n|n] eqn:Hn; [| |lia].
    + cbn [shr shr_m].
      destruct (f1 <=? emax - prec) eqn:Hov; [|reflexivity].
      cbn [valid_binary]. unfold bounded, canonical_mantissa.
      rewrite fexp_eq. fold d1. rewrite Hov, andb_true_r. apply Z.eqb_eq. lia.
    + assert (Hn1 : Zpos n = 1) by lia.
      destruct Hup as [Hd1 Hpow]; [lia|].
      cbn [shr]. rewrite shr_m_iter by (cbn; lia). cbn [shr_m].
      rewrite Hn1, Hpow.
      assert (Hhalf : 2 ^ prec / 2 ^ 1 = 2 ^ (prec - 1)).
      { replace (2 ^ prec) with (2 ^ (prec - 1) * 2 ^ 1)
          by (rewrite <- Z.pow_add_r by lia; f_equal; lia).
        apply Z.div_mul. lia. }
      rewrite Hhalf.
      assert (Hpm : 0 < 2 ^ (prec - 1)) by (apply Z.pow_pos_nonneg; lia).
      destruct (2 ^ (prec - 1)) as [|pm|pm] eqn:Hpm2; [lia| |lia].
      destruct (f1 + 1 <=? emax - prec) eqn:Hov; [|reflexivity].
      cbn [valid_binary]. unfold bounded, canonical_mantissa.
      rewrite fexp_eq, Hov, andb_true_r. apply Z.eqb_eq.
      assert (Hdpm : Zpos (digits2_pos pm) = prec).
      { apply (Zdigits2_unique (Zpos pm) prec); [|lia].
        rewrite <- Hpm2. split; [lia|].
        apply Z.pow_lt_mono_r; lia. }
      rewrite Hdpm. unfold fexp'. lia.
Qed.

(** Rounding to a format gives a number of that format. *)
Lemma binary_round_valid (s : bool) (m : positive) (e : Z) :
  valid_binary prec emax (binary_round prec emax s m e) = true.
Proof.
  pose proof (round_first_fits m e) as Hfirst. cbv zeta in Hfirst.
  unfold binary_round. rewrite fexp_eq.
  destruct (shl_align m e (fexp' (Zpos (digits2_pos m) + e))) as [mz ez].
  unfold binary_round_aux.
  destruct (shr_fexp prec emax (Zpos mz) ez loc_Exact) as [mrs e1].
  destruct Hfirst as (-> & Hq & Hzero & Hpos).
  assert (Hf1 : emin <= fexp' (Zpos (digits2_pos m) + e)) by (unfold fexp'; lia).
  pose proof (round_second_valid s (shr_m mrs) _ (loc_of_shr_record mrs)
                Hq Hf1 Hzero) as Hsecond.
  cbv zeta in Hsecond.
  destruct (shr_fexp prec emax
              (round_nearest_even (shr_m mrs) (loc_of_shr_record mrs))
              (fexp' (Zpos (digits2_pos m) + e)) loc_Exact) as [mrs2 e2].
  apply Hsecond. intros Hqpos. rewrite (Hpos Hqpos). reflexivity.
Qed.

End Valid.

End RoundingFacts.

(** ** Files made of whole records *)

Module MoreReaderFacts.
Import Downsample.

(** A file made of whole records splits into exactly these records. *)
Lemma records_of_chunk_concat_records (recs : list (list byte)) :
  Forall (fun r => length r = 36%nat) recs ->
  records_of_chunk (concat recs) = recs.
Proof.
  induction 1 as [|r recs Hr Hall IH]; [reflexivity|].
  cbn [concat]. rewrite (ReaderFacts.records_of_chunk_app 1) by (rewrite Hr; reflexivity).
  rewrite IH. rewrite ReaderFacts.records_of_chunk_cons by lia.
  rewrite firstn_all2, skipn_all2 by lia.
  rewrite ReaderFacts.records_of_chunk_short by (cbn; lia). reflexivity.
Qed.

Lemma length_concat_records (recs : list (list byte)) :
  Forall (fun r => length r = 36%nat) recs ->
  length (concat recs) = (36 * length recs)%nat.
Proof.
  induction 1 as [|r recs Hr Hall IH]; [reflexivity|].
  cbn [concat length]. rewrite length_app, Hr, IH. lia.
Qed.

Lemma be_int_range (bs : list byte) :
  0 <= be_int bs < 256 ^ Z.of_nat (length bs).
Proof.
  induction bs as [|b bs IH] using rev_ind.
  - cbn. lia.
  - rewrite ByteFacts.be_int_snoc, length_app. cbn [length].
    rewrite Nat.add_1_r, Nat2Z.inj_succ, Z.pow_succ_r by lia.
    pose proof (ByteFacts.Z_of_byte_range b). lia.
Qed.

Lemma frame_range (rec : list byte) :
  0 <= start_frame rec <= 65535 /\ 0 <= end_frame rec <= 65535.
Proof.
  unfold start_frame, end_frame, take, drop.
  pose proof (be_int_range (firstn 2 rec)) as H1.
  pose proof (be_int_range (firstn 2 (skipn 2 rec))) as H2.
  assert (Hp : forall l : list byte, 256 ^ Z.of_nat (length (firstn 2 l)) <= 65536).
  { intros l. change 65536 with (256 ^ 2). apply Z.pow_le_mono_r; [lia|].
    rewrite length_firstn. lia. }
  pose proof (Hp rec). pose proof (Hp (skipn 2 rec)). lia.
Qed.

Lemma Forall_firstn {A : Type} (P : A -> Prop) (n : nat) (l : list A) :
  Forall P l -> Forall P (firstn n l).
Proof.
  intros H. revert n. induction H as [|x l Hx _ IH]; intros [|n]; cbn [firstn];
    constructor; auto.
Qed.

End MoreReaderFacts.

(** ** The filter as a function of its parameters *)

Module FilterFacts.

Lemma survivors_Forall (P : list byte -> Prop) (min_span stride : Z)
    (recs : list (list byte)) : forall pos,
  Forall P recs ->
  Forall (fun r => P r /\ span_ok min_span r = true)
         (survivors min_span stride pos recs).
Proof.
  induction recs as [|r recs IH]; intros pos Hall; cbn [survivors].
  - constructor.
  - inversion Hall as [|? ? Hr Hrest]; subst.
    destruct (stride_eligible stride (pos + 1) && span_ok min_span r) eqn:Hpass.
    + apply andb_true_iff in Hpass. constructor; [tauto|]. now apply IH.
    + now apply IH.
Qed.

(** No record has a span above 65535. *)
Lemma survivors_large_span (min_span stride : Z) (recs : list (list byte)) :
  65535 < min_span -> forall pos, survivors min_span stride pos recs = [].
Proof.
  intros Hbig. induction recs as [|r recs IH]; intros pos; cbn [survivors].
  - reflexivity.
  - replace (span_ok min_span r) with false.
    + rewrite andb_false_r. apply IH.
    + symmetry. unfold span_ok. apply Z.leb_gt.
      pose proof (MoreReaderFacts.frame_range r). lia.
Qed.

(** Without a stride, filtering what passed the span test keeps it all. *)
Lemma survivors_fixpoint (min_span stride : Z) (recs : list (list byte)) :
  stride <= 1 ->
  Forall (fun r => span_ok min_span r = true) recs ->
  forall pos, survivors min_span stride pos recs = recs.
Proof.
  intros Hs. induction 1 as [|r recs Hr Hall IH]; intros pos; cbn [survivors].
  - reflexivity.
  - unfold stride_eligible. replace (stride <=? 1) with true by (symmetry; now apply Z.leb_le).
    cbn [orb andb]. rewrite Hr, IH. reflexivity.
Qed.

Lemma survivors_min_span_mono (ms1 ms2 stride : Z) (recs : list (list byte)) :
  ms1 <= ms2 -> forall pos,
  Subseq (survivors ms2 stride pos recs) (survivors ms1 stride pos recs).
Proof.
  intros Hms. induction recs as [|r recs IH]; intros pos; cbn [survivors].
  - constructor.
  - destruct (stride_eligible stride (pos + 1)); cbn [andb]; [|apply IH].
    unfold span_ok.
    destruct (Z.leb_spec ms2 (end_frame r - start_frame r)) as [H2|H2].
    + replace (ms1 <=? end_frame r - start_frame r) with true
        by (symmetry; apply Z.leb_le; lia).
      apply Subseq_keep, IH.
    + destruct (ms1 <=? end_frame r - start_frame r);
        [apply Subseq_skip, IH | apply IH].
Qed.

Lemma div_succ (p s : Z) :
  0 <= p -> 0 < s ->
  (p + 1) / s = p / s + (if (p + 1) mod s =? 0 then 1 else 0).
Proof.
  intros Hp Hs. destruct (Z.eqb_spec ((p + 1) mod s) 0) as [Hz|Hnz];
    Z.to_euclidean_division_equations; nia.
Qed.

(** With the span test out of the way, a stride [k] keeps the records at the
    multiples of [k]. *)
Lemma survivors_stride_count (min_span stride : Z) (recs : list (list byte)) :
  1 < stride -> min_span <= -65535 -> forall pos, 0 <= pos ->
  Z.of_nat (length (survivors min_span stride pos recs)) =
  (pos + Z.of_nat (length recs)) / stride - pos / stride.
Proof.
  intros Hs Hms. induction recs as [|r recs IH]; intros pos Hpos; cbn [survivors length].
  - rewrite Z.add_0_r. lia.
  - assert (Hspan : span_ok min_span r = true).
    { unfold span_ok. apply Z.leb_le. pose proof (MoreReaderFacts.frame_range r). lia. }
    rewrite Hspan, andb_true_r. unfold stride_eligible.
    replace (stride <=? 1) with false by (symmetry; apply Z.leb_gt; lia).
    cbn [orb].
    pose proof (div_succ pos stride Hpos ltac:(lia)) as Hdiv.
    replace (pos + Z.of_nat (S (length recs))) with (pos + 1 + Z.of_nat (length recs)) by lia.
    destruct ((pos + 1) mod stride =? 0); cbn [length];
      try rewrite Nat2Z.inj_succ; rewrite IH by lia; lia.
Qed.

End FilterFacts.

(** ** The records of a conversion *)

Module PipelineFacts.
Import Converter.

Lemma of_double_valid (x : PyFloat.t) :
  valid_binary Binary32.prec Binary32.emax (Binary32.of_double x) = true.
Proof.
  destruct x as [s|s| |s m e]; try reflexivity.
  cbn [Binary32.of_double]. apply RoundingFacts.binary_round_valid. reflexivity.
Qed.

Lemma scale_float32_valued (scale : PyFloat.t) :
  float32_valued (Binary32.to_double (Binary32.of_double scale)).
Proof.
  exists (Binary32.of_double scale). split; [|reflexivity].
  apply of_double_valid.
Qed.

Lemma to_byte_range (v : PyFloat.t) (b : Z) :
  to_byte v = Ok b -> 0 <= b <= 255.
Proof.
  unfold to_byte.
  destruct (PyFloat.to_int _) as [n|e]; cbn [bind]; [|discriminate].
  intros Hb. assert (b = Z.max 0 (Z.min 255 n)) by congruence. lia.
Qed.

Lemma rotation_bytes_range (q : quaternion) (rw rx ry rz : Z) :
  normalize_quaternion_to_bytes q = Ok (rw, rx, ry, rz) ->
  0 <= rw <= 255 /\ 0 <= rx <= 255 /\ 0 <= ry <= 255 /\ 0 <= rz <= 255.
Proof.
  unfold normalize_quaternion_to_bytes.
  destruct (normalized q) as [[[[w x] y] z]|e]; cbn [bind]; [|discriminate].
  destruct (to_byte w) as [bw|e] eqn:Hw; cbn [bind]; [|discriminate].
  destruct (to_byte x) as [bx|e] eqn:Hx; cbn [bind]; [|discriminate].
  destruct (to_byte y) as [by_|e] eqn:Hy; cbn [bind]; [|discriminate].
  destruct (to_byte z) as [bz|e] eqn:Hz; cbn [bind]; [|discriminate].
  intros Hq.
  apply to_byte_range in Hw, Hx, Hy, Hz.
  assert (rw = bw /\ rx = bx /\ ry = by_ /\ rz = bz) as (-> & -> & -> & ->)
    by (repeat split; congruence).
  repeat split; lia.
Qed.

Lemma FMT_STR_eq :
  FMT_STR =
  [Struct.H; Struct.H; Struct.f; Struct.f; Struct.f;
   Struct.B; Struct.B; Struct.B; Struct.B;
   Struct.f; Struct.f; Struct.f;
   Struct.B; Struct.B; Struct.B; Struct.B].
Proof. reflexivity. Qed.

Lemma record_fields_well_typed (sf ef o : Z) (scale : PyFloat.t)
    (rw rx ry rz : Z) (v : vertex) :
  vertex_ok v -> 0 <= sf <= 65535 -> 0 <= ef <= 65535 -> 0 <= o <= 255 ->
  0 <= rw <= 255 /\ 0 <= rx <= 255 /\ 0 <= ry <= 255 /\ 0 <= rz <= 255 ->
  Forall2 well_typed FMT_STR (record_fields sf ef o scale (rw, rx, ry, rz) v).
Proof.
  intros (Hx & Hy & Hz & Hr & Hg & Hb) Hsf Hef Ho (Hrw & Hrx & Hry & Hrz).
  rewrite FMT_STR_eq. unfold record_fields.
  repeat (apply Forall2_cons || apply Forall2_nil); cbn [well_typed];
    try lia; try apply scale_float32_valued;
    eexists; (split; [|reflexivity]); assumption.
Qed.

Lemma generate_ok (ply : list vertex) (sf ef o : Z) (scale : PyFloat.t)
    (q : quaternion) (rot : Z * Z * Z * Z) :
  0 <= o <= 255 -> normalize_quaternion_to_bytes q = Ok rot ->
  generate_records_for_file ply sf ef o scale q =
  Ok (map (record_fields sf ef o scale rot) ply).
Proof.
  intros Ho Hq. unfold generate_records_for_file, np_full_uint8.
  destruct (Z.leb_spec 0 o); [|lia]. destruct (Z.leb_spec o 255); [|lia].
  cbn [andb bind]. rewrite Hq. cbn [bind].
  destruct rot as [[[rw rx] ry] rz]. reflexivity.
Qed.

Lemma chain_records_ok (a : args) (rot : Z * Z * Z * Z) (files : list (list vertex)) :
  0 <= default_opacity a <= 255 ->
  normalize_quaternion_to_bytes (rotation a) = Ok rot ->
  forall first : nat,
    chain_records a (Z.of_nat first) files = Ok (frame_records a rot first files).
Proof.
  intros Ho Hq. unfold frame_records.
  induction files as [|ply files IH]; intros first; [reflexivity|].
  cbn [chain_records length seq combine map concat].
  rewrite (generate_ok _ _ _ _ _ _ rot) by assumption. cbn [bind].
  replace (Z.of_nat first + 1) with (Z.of_nat (S first)) by lia.
  rewrite IH. reflexivity.
Qed.

(** Every written record is one 36-byte block that unpacks to its tuple. *)
Lemma write_dat_ok (recs : list (list Struct.pyval)) :
  Forall (Forall2 well_typed FMT_STR) recs ->
  exists bufs,
    write_dat recs = Ok (concat bufs, Z.of_nat (length recs)) /\
    Forall2 (fun buf rec => length buf = 36%nat /\
                            Struct.unpack_fields FMT_STR buf = rec) bufs recs.
Proof.
  induction 1 as [|rec recs Hrec _ IH].
  - exists []. split; [reflexivity | constructor].
  - destruct IH as (bufs & Hw & Hall).
    destruct (StructFacts.pack_unpack _ _ Hrec) as (buf & Hpack & Hlen & Hun).
    exists (buf :: bufs). cbn [write_dat]. rewrite Hpack. cbn [bind].
    rewrite Hw. cbn [bind concat length].
    split; [do 2 f_equal; lia|].
    constructor; [|exact Hall]. split; [exact Hlen|].
    unfold Struct.unpack in Hun. rewrite Hlen, Nat.eqb_refl in Hun. congruence.
Qed.

Lemma Forall2_length_36 (bufs : list (list byte)) (recs : list (list Struct.pyval)) :
  Forall2 (fun buf rec => length buf = 36%nat /\
                          Struct.unpack_fields FMT_STR buf = rec) bufs recs ->
  Forall (fun r => length r = 36%nat) bufs /\
  map (Struct.unpack_fields FMT_STR) bufs = recs /\
  length bufs = length recs.
Proof.
  induction 1 as [|buf rec bufs recs [Hlen Hun] _ (IH1 & IH2 & IH3)].
  - repeat split. constructor.
  - split; [constructor; assumption|]. cbn [map length]. split; congruence.
Qed.

Lemma validate_loop_written (bufs : list (list byte)) (recs : list (list Struct.pyval)) :
  Forall2 (fun buf rec => length buf = 36%nat /\
                          Struct.unpack_fields FMT_STR buf = rec) bufs recs ->
  forall (n : nat) (i : Z),
    validate_loop n i (concat bufs) = Ok (numbered i (firstn n recs)) \/
    (length recs < n)%nat.
Proof.
  induction 1 as [|buf rec bufs recs [Hlen Hun] _ IH]; intros [|n] i.
  - now left.
  - right. cbn [length]. lia.
  - now left.
  - destruct (IH n (i + 1)) as [Hloop | Hshort]; [left | right; cbn [length]; lia].
    cbn [validate_loop concat firstn numbered].
    rewrite ValidateFacts.converter_RECORD_SIZE_eq.
    rewrite StructFacts.take_app_length, StructFacts.drop_app_length by exact Hlen.
    unfold Struct.unpack. change (Struct.calcsize FMT_STR) with 36%nat.
    rewrite Hlen, Nat.eqb_refl. cbn [bind]. rewrite Hloop. cbn [bind].
    now rewrite Hun.
Qed.

Lemma pack_bad_frame (n : Z) (rest : list Struct.pyval) :
  ~ 0 <= n <= 65535 ->
  Struct.pack FMT_STR (Struct.VInt n :: rest) = Err StructError.
Proof.
  intros Hn. rewrite FMT_STR_eq. cbn [Struct.pack Struct.pack_one].
  unfold Struct.pack_uint. change (256 ^ Z.of_nat 2) with 65536.
  destruct (Z.leb_spec 0 n); destruct (Z.ltb_spec n 65536); try reflexivity. lia.
Qed.

Lemma write_dat_first_failure (recs : list (list Struct.pyval)) :
  Forall (fun rec => Forall2 well_typed FMT_STR rec \/
                     Struct.pack FMT_STR rec = Err StructError) recs ->
  Exists (fun rec => Struct.pack FMT_STR rec = Err StructError) recs ->
  write_dat recs = Err StructError.
Proof.
  induction 1 as [|rec recs Hrec _ IH]; intros Hex.
  - inversion Hex.
  - cbn [write_dat]. destruct Hrec as [Hwt | Hbad].
    + destruct (StructFacts.pack_unpack _ _ Hwt) as (buf & Hpack & _ & _).
      rewrite Hpack. cbn [bind].
      rewrite IH; [reflexivity|].
      inversion Hex as [? ? Hhead | ? ? Htail]; [congruence | exact Htail].
    + rewrite Hbad. reflexivity.
Qed.

Lemma frame_records_cons (a : args) (rot : Z * Z * Z * Z) (first : nat)
    (ply : list vertex) (files : list (list vertex)) :
  frame_records a rot first (ply :: files) =
  map (record_fields (Z.of_nat first * frame_step a) (Z.of_nat first * frame_step a)
         (default_opacity a) (default_scale a) rot) ply ++
  frame_records a rot (S first) files.
Proof. reflexivity. Qed.

Lemma length_frame_records (a : args) (rot : Z * Z * Z * Z)
    (files : list (list vertex)) : forall first : nat,
  length (frame_records a rot first files) = length (concat files).
Proof.
  induction files as [|ply files IH]; intros first; [reflexivity|].
  rewrite frame_records_cons. cbn [concat].
  now rewrite !length_app, length_map, IH.
Qed.

(** Each record of a conversion either fits the format or has a frame number
    that [struct.pack] refuses. *)
Lemma frame_records_cases (a : args) (rw rx ry rz : Z) (files : list (list vertex)) :
  Forall (Forall vertex_ok) files ->
  0 <= default_opacity a <= 255 ->
  0 <= rw <= 255 /\ 0 <= rx <= 255 /\ 0 <= ry <= 255 /\ 0 <= rz <= 255 ->
  forall first : nat,
    Forall (fun rec => Forall2 well_typed FMT_STR rec \/
                       Struct.pack FMT_STR rec = Err StructError)
           (frame_records a (rw, rx, ry, rz) first files).
Proof.
  intros Hfiles Ho Hrot.
  induction Hfiles as [|ply files Hply _ IH]; intros first; [constructor|].
  rewrite frame_records_cons. apply Forall_app. split; [|apply IH].
  apply Forall_map. eapply Forall_impl; [|exact Hply].
  intros v Hv. cbv beta.
  set (frame := Z.of_nat first * frame_step a).
  destruct (Z_le_dec 0 frame) as [H0|H0]; [destruct (Z_le_dec frame 65535) as [H1|H1]|].
  - left. apply record_fields_well_typed; auto.
  - right. apply pack_bad_frame. lia.
  - right. apply pack_bad_frame. lia.
Qed.

Lemma frame_records_well_typed (a : args) (rw rx ry rz : Z) (files : list (list vertex)) :
  Forall (Forall vertex_ok) files ->
  0 <= default_opacity a <= 255 ->
  0 <= rw <= 255 /\ 0 <= rx <= 255 /\ 0 <= ry <= 255 /\ 0 <= rz <= 255 ->
  forall first : nat,
    (forall i, (first <= i < first + length files)%nat ->
               0 <= Z.of_nat i * frame_step a <= 65535) ->
    Forall (Forall2 well_typed FMT_STR) (frame_records a (rw, rx, ry, rz) first files).
Proof.
  intros Hfiles Ho Hrot.
  induction Hfiles as [|ply files Hply _ IH]; intros first Hframes; [constructor|].
  rewrite frame_records_cons. apply Forall_app. split.
  - apply Forall_map. eapply Forall_impl; [|exact Hply].
    intros v Hv. cbv beta.
    assert (Hf : 0 <= Z.of_nat first * frame_step a <= 65535)
      by (apply Hframes; cbn [length]; lia).
    apply record_fields_well_typed; auto.
  - apply IH. intros i Hi. apply Hframes. cbn [length]. lia.
Qed.

Lemma frame_records_bad_frame (a : args) (rot : Z * Z * Z * Z)
    (files : list (list vertex)) : forall (first i : nat) (ply : list vertex),
  nth_error files i = Some ply -> ply <> [] ->
  ~ 0 <= Z.of_nat (first + i) * frame_step a <= 65535 ->
  Exists (fun rec => Struct.pack FMT_STR rec = Err StructError)
         (frame_records a rot first files).
Proof.
  induction files as [|ply0 files IH]; intros first [|i] ply Hnth Hne Hbad;
    try discriminate; rewrite frame_records_cons; apply Exists_app.
  - left. cbn [nth_error] in Hnth. assert (ply0 = ply) as -> by congruence.
    destruct ply as [|v ply]; [contradiction|].
    cbn [map]. apply Exists_cons_hd.
    destruct rot as [[[rw rx] ry] rz]. unfold record_fields.
    apply pack_bad_frame. now rewrite Nat.add_0_r in Hbad.
  - right. apply (IH (S first) i ply); [exact Hnth | exact Hne |].
    now replace (S first + i)%nat with (first + S i)%nat by lia.
Qed.

End PipelineFacts.

(** ** Quaternions with a NaN or an infinite component *)

Module NonFiniteFacts.
Import FloatFacts.

Lemma shr_fexp_nonneg (prec emax m e : Z) (l : location) :
  0 <= m -> 0 <= shr_m (fst (shr_fexp prec emax m e l)).
Proof.
  intros Hm. unfold shr_fexp, shr.
  destruct (fexp prec emax (Zdigits2 m + e) - e) as [|p|p]; cbn [fst];
    try (destruct l as [|[]]; destruct m; cbn; lia).
  rewrite shr_m_iter by (destruct l as [|[]]; destruct m; cbn; lia).
  apply Z.div_pos; [destruct l as [|[]]; destruct m; cbn; lia | lia].
Qed.

Lemma binary_round_aux_unsigned (prec emax m e : Z) (l : location) :
  0 <= m -> unsigned_float (binary_round_aux prec emax false m e l) = true.
Proof.
  intros Hm. unfold binary_round_aux.
  pose proof (shr_fexp_nonneg prec emax m e l Hm) as H1.
  destruct (shr_fexp prec emax m e l) as [mrs1 e1]. cbn [fst] in H1.
  pose proof (round_nearest_even_bounds (shr_m mrs1) (loc_of_shr_record mrs1)) as Hr.
  pose proof (shr_fexp_nonneg prec emax
                (round_nearest_even (shr_m mrs1) (loc_of_shr_record mrs1)) e1 loc_Exact
                ltac:(lia)) as H2.
  destruct (shr_fexp prec emax _ e1 loc_Exact) as [mrs2 e2]. cbn [fst] in H2.
  destruct (shr_m mrs2) as [|p|p]; [reflexivity | | lia].
  destruct (e2 <=? emax - prec); reflexivity.
Qed.

Lemma binary_round_unsigned (prec emax : Z) (m : positive) (e : Z) :
  unsigned_float (binary_round prec emax false m e) = true.
Proof.
  unfold binary_round.
  destruct (shl_align m e (fexp prec emax (Zpos (digits2_pos m) + e))) as [mz ez].
  now apply binary_round_aux_unsigned.
Qed.

Lemma mul_self_unsigned (a : PyFloat.t) :
  is_nan a = false ->
  unsigned_float (PyFloat.mul a a) = true /\
  (non_finite a = true -> PyFloat.mul a a = S754_infinity false).
Proof.
  destruct a as [s|s| |s m e]; try discriminate; intros _.
  - destruct s; split; try reflexivity; discriminate.
  - destruct s; split; reflexivity.
  - split; [|discriminate]. unfold PyFloat.mul, SFmul.
    rewrite xorb_nilpotent. now apply binary_round_aux_unsigned.
Qed.

Lemma add_unsigned (a b : PyFloat.t) :
  unsigned_float a = true -> unsigned_float b = true ->
  unsigned_float (PyFloat.add a b) = true /\
  (non_finite a || non_finite b = true -> PyFloat.add a b = S754_infinity false).
Proof.
  destruct a as [[]|[]| |[] ma ea]; try discriminate;
    destruct b as [[]|[]| |[] mb eb]; try discriminate; intros _ _;
    try (split; [reflexivity | try reflexivity; discriminate]).
  split; [|discriminate].
  unfold PyFloat.add, SFadd. cbn [cond_Zopp].
  unfold binary_normalize.
  destruct (shl_align ma ea (Z.min ea eb)) as [m1 e1].
  destruct (shl_align mb eb (Z.min ea eb)) as [m2 e2]. cbn [fst Z.add].
  apply binary_round_unsigned.
Qed.

Lemma add_nan_l (b : PyFloat.t) : PyFloat.add S754_nan b = S754_nan.
Proof. reflexivity. Qed.

Lemma add_nan_r (a : PyFloat.t) : PyFloat.add a S754_nan = S754_nan.
Proof. now destruct a. Qed.

Lemma mul_self_nan (a : PyFloat.t) : is_nan a = true -> PyFloat.mul a a = S754_nan.
Proof. destruct a; try discriminate. reflexivity. Qed.

Lemma to_byte_nan : Converter.to_byte S754_nan = Err ValueError.
Proof. reflexivity. Qed.

Lemma to_byte_zero (s : bool) : Converter.to_byte (S754_zero s) = Ok 128.
Proof. destruct s; vm_compute; reflexivity. Qed.

(** The norm of a quaternion with a NaN component is NaN; with an infinite
    component and no NaN it is plus infinity. *)
Lemma length_non_finite (w x y z : PyFloat.t) :
  non_finite w || non_finite x || non_finite y || non_finite z = true ->
  Converter.quaternion_length (w, x, y, z) =
  Ok (if is_nan w || is_nan x || is_nan y || is_nan z
      then S754_nan else S754_infinity false).
Proof.
  intros Hnf. unfold Converter.quaternion_length.
  destruct (is_nan w) eqn:Hw.
  { rewrite (mul_self_nan w Hw), !add_nan_l. reflexivity. }
  destruct (is_nan x) eqn:Hx.
  { rewrite (mul_self_nan x Hx), add_nan_r, !add_nan_l. reflexivity. }
  destruct (is_nan y) eqn:Hy.
  { rewrite (mul_self_nan y Hy), add_nan_r, !add_nan_l. reflexivity. }
  destruct (is_nan z) eqn:Hz.
  { rewrite (mul_self_nan z Hz), add_nan_r. reflexivity. }
  cbn [orb].
  destruct (mul_self_unsigned w Hw) as [Uw Iw].
  destruct (mul_self_unsigned x Hx) as [Ux Ix].
  destruct (mul_self_unsigned y Hy) as [Uy Iy].
  destruct (mul_self_unsigned z Hz) as [Uz Iz].
  destruct (add_unsigned _ _ Uw Ux) as [U1 I1].
  destruct (add_unsigned _ _ U1 Uy) as [U2 I2].
  destruct (add_unsigned _ _ U2 Uz) as [U3 I3].
  assert (Hsum : PyFloat.add (PyFloat.add (PyFloat.add (PyFloat.mul w w) (PyFloat.mul x x))
                                (PyFloat.mul y y)) (PyFloat.mul z z) = S754_infinity false).
  { apply I3. apply orb_true_iff.
    destruct (non_finite z); [right; now rewrite Iz | left].
    rewrite orb_false_r in Hnf. rewrite I2; [reflexivity|]. apply orb_true_iff.
    destruct (non_finite y); [right; now rewrite Iy | left].
    rewrite orb_false_r in Hnf. rewrite I1; [reflexivity|]. apply orb_true_iff.
    destruct (non_finite x); [right; now rewrite Ix | left].
    rewrite orb_false_r in Hnf. now rewrite Iw. }
  rewrite Hsum. reflexivity.
Qed.

Lemma div_nan (a : PyFloat.t) : PyFloat.div a S754_nan = Ok S754_nan.
Proof. now destruct a. Qed.

(** Dividing by plus infinity gives a zero, or NaN for an infinite dividend. *)
Lemma div_infinity (a : PyFloat.t) :
  is_nan a = false ->
  exists r, PyFloat.div a (S754_infinity false) = Ok r /\
            (non_finite a = true -> r = S754_nan) /\
            (non_finite a = false -> Converter.to_byte r = Ok 128).
Proof.
  destruct a as [s|s| |s m e]; try discriminate; intros _.
  - exists (S754_zero (xorb s false)). split; [reflexivity|].
    split; [discriminate | intros _; apply to_byte_zero].
  - exists S754_nan. split; [reflexivity|]. split; [reflexivity | discriminate].
  - exists (S754_zero (xorb s false)). split; [reflexivity|].
    split; [discriminate | intros _; apply to_byte_zero].
Qed.

End NonFiniteFacts.

(** ** Decoding arbitrary bytes *)

Module DecodeFacts.
Import FloatFacts.

(** Every bit pattern decodes to a binary32 number. *)
Lemma of_bits_valid (b : Z) :
  valid_binary Binary32.prec Binary32.emax (Binary32.of_bits b) = true.
Proof.
  unfold Binary32.of_bits.
  assert (Hfrac : 0 <= b mod 2 ^ 23 < 2 ^ 23) by (apply Z.mod_pos_bound; lia).
  assert (Hexp : 0 <= (b / 2 ^ 23) mod 256 < 256) by (apply Z.mod_pos_bound; lia).
  set (frac := b mod 2 ^ 23) in *. set (biased := (b / 2 ^ 23) mod 256) in *.
  destruct (Z.eqb_spec biased 0) as [H0 | H0].
  - destruct frac as [|m|m] eqn:Hm; try reflexivity.
    cbn [valid_binary]. apply bounded_iff.
    pose proof (Zdigits2_le (Zpos m) 23 ltac:(lia) ltac:(lia)) as Hd.
    cbn [Zdigits2] in Hd. unfold Binary32.prec, Binary32.emax. lia.
  - destruct (Z.eqb_spec biased 255) as [H255 | H255].
    + destruct (frac =? 0); reflexivity.
    + destruct (frac + 2 ^ 23) as [|m|m] eqn:Hm; try reflexivity.
      cbn [valid_binary]. apply bounded_iff.
      assert (Hd : Zdigits2 (Zpos m) = 24).
      { apply RoundingFacts.Zdigits2_unique; [|lia]. change (2 ^ (24 - 1)) with (2 ^ 23).
        change (2 ^ 24) with (2 * 2 ^ 23). lia. }
      cbn [Zdigits2] in Hd. unfold Binary32.prec, Binary32.emax. lia.
Qed.

Lemma unpack_f_float32_valued (bs : list byte) : float32_valued (Struct.unpack_f bs).
Proof.
  exists (Binary32.of_bits (be_int bs)). split; [apply of_bits_valid | reflexivity].
Qed.

Lemma unpack_one_well_typed (c : Struct.code) (bs : list byte) :
  length bs = Struct.size_of c -> well_typed c (Struct.unpack_one c bs).
Proof.
  intros Hlen. pose proof (MoreReaderFacts.be_int_range bs) as Hr. rewrite Hlen in Hr.
  destruct c; cbn [Struct.unpack_one well_typed Struct.size_of] in *.
  - change (256 ^ Z.of_nat 2) with 65536 in Hr. lia.
  - change (256 ^ Z.of_nat 1) with 256 in Hr. lia.
  - apply unpack_f_float32_valued.
Qed.

Lemma unpack_fields_well_typed (fmt : list Struct.code) : forall buf : list byte,
  length buf = Struct.calcsize fmt ->
  Forall2 well_typed fmt (Struct.unpack_fields fmt buf).
Proof.
  induction fmt as [|c fmt IH]; intros buf Hlen; [constructor|].
  cbn [Struct.unpack_fields]. cbn [Struct.calcsize fold_right] in Hlen.
  fold (Struct.calcsize fmt) in Hlen.
  constructor.
  - apply unpack_one_well_typed. unfold take. rewrite length_firstn. lia.
  - apply IH. unfold drop. rewrite length_skipn. lia.
Qed.

End DecodeFacts.

(** ** Text replacement *)

Module PyStrFacts.
Import PyStr.

Section Facts.
Context {A : Type} (eqb : A -> A -> bool).
Hypothesis eqb_eq : forall a b, eqb a b = true <-> a = b.

Lemma startswith_iff (p s : list A) :
  startswith eqb p s = true <-> exists post, s = p ++ post.
Proof.
  revert s. induction p as [|a p IH]; intros s; cbn [startswith].
  - split; [intros _; now exists s | reflexivity].
  - destruct s as [|b s].
    + split; [discriminate | intros [post H]; discriminate].
    + rewrite andb_true_iff, eqb_eq, IH. cbn [app]. split.
      * intros [-> [post ->]]. now exists post.
      * intros [post H]. split; [congruence|]. exists post. congruence.
Qed.

Lemma startswith_app (p s t : list A) :
  startswith eqb p s = true -> startswith eqb p (s ++ t) = true.
Proof.
  rewrite !startswith_iff. intros [post ->]. exists (post ++ t). now rewrite app_assoc.
Qed.

Lemma contains_cons (m : list A) (c : A) (s : list A) :
  contains eqb m (c :: s) = startswith eqb m (c :: s) || contains eqb m s.
Proof. reflexivity. Qed.

Lemma contains_app_r (m s t : list A) :
  contains eqb m s = true -> contains eqb m (s ++ t) = true.
Proof.
  induction s as [|c s IH].
  - cbn [contains app]. rewrite orb_false_r. intros H.
    destruct m; [|discriminate]. now destruct t.
  - cbn [app]. rewrite !contains_cons, !orb_true_iff.
    intros [H | H]; [left; now apply (startswith_app m (c :: s) t) | right; auto].
Qed.

Lemma contains_app_l (m s t : list A) :
  contains eqb m t = true -> contains eqb m (s ++ t) = true.
Proof.
  intros H. induction s as [|c s IH]; [exact H|].
  cbn [app]. rewrite contains_cons, IH. apply orb_true_r.
Qed.

(** A text without the pattern is returned as it is. *)
Lemma replace_absent (old new s : list A) :
  contains eqb old s = false -> replace eqb old new s = s.
Proof.
  unfold replace. induction s as [|c s IH]; [reflexivity|].
  rewrite contains_cons, orb_false_iff. intros [Hstart Hrest].
  cbn [replace_from]. rewrite Hstart. now rewrite IH.
Qed.

Lemma replace_from_skip (old new pre post : list A) :
  replace_from eqb old new (length pre) (pre ++ post) = replace_from eqb old new 0 post.
Proof.
  induction pre as [|c pre IH]; [reflexivity|].
  cbn [length app replace_from]. destruct post; exact IH.
Qed.

(** The first occurrence is replaced, the text before it is kept and the text
    after it is processed in the same way. *)
Lemma replace_present (old new s : list A) :
  old <> [] -> contains eqb old s = true ->
  exists pre post,
    s = pre ++ old ++ post /\
    contains eqb old pre = false /\
    replace eqb old new s = pre ++ new ++ replace eqb old new post.
Proof.
  intros Hold. unfold replace. induction s as [|c s IH].
  - cbn [contains]. rewrite orb_false_r. destruct old; [contradiction | discriminate].
  - rewrite contains_cons. cbn [replace_from].
    destruct (startswith eqb old (c :: s)) eqn:Hstart.
    + intros _. apply startswith_iff in Hstart. destruct Hstart as [post Hs].
      exists [], post. split; [exact Hs|]. split.
      { destruct old; [contradiction | reflexivity]. }
      cbn [app]. f_equal.
      destruct old as [|a old]; [contradiction|].
      cbn [app] in Hs. assert (s = old ++ post) as -> by congruence.
      replace (length (a :: old) - 1)%nat with (length old) by (cbn [length]; lia).
      apply replace_from_skip.
    + cbn [orb]. intros Hrest. destruct (IH Hrest) as (pre & post & Hs & Hpre & Hrep).
      exists (c :: pre), post. split; [cbn [app]; congruence|]. split.
      * rewrite contains_cons, Hpre, orb_false_r.
        destruct (startswith eqb old (c :: pre)) eqn:Hp; [|reflexivity].
        apply (startswith_app _ _ (old ++ post)) in Hp.
        cbn [app] in Hp. rewrite <- Hs in Hp. congruence.
      * cbn [app]. now rewrite Hrep.
Qed.

End Facts.

End PyStrFacts.

(** ** The demo directory *)

Module DemoFacts.
Import PrepareDemo.


End DemoFacts.

(** ** UTF-8 and universal newlines *)

Module TextFacts.
Import PyText.

Lemma byte_of_Z_small (z : Z) : 0 <= z < 256 -> Z_of_byte (byte_of_Z z) = z.
Proof. intros H. rewrite ByteFacts.Z_of_byte_of_Z. now apply Z.mod_small. Qed.

(** Decoding the UTF-8 form of a scalar value gives the value back. *)
Lemma decode_encode_char (c : Z) :
  scalar c ->
  exists bs, utf8_encode_char c = Some bs /\
             forall rest, utf8_decode (bs ++ rest) = option_map (cons c) (utf8_decode rest).
Proof.
  intros [Hrange Hsur]. unfold utf8_encode_char.
  destruct (Z.ltb_spec c 128) as [H1|H1].
  { eexists. split; [reflexivity|]. intros rest. cbn [app utf8_decode].
    rewrite byte_of_Z_small by lia.
    destruct (Z.ltb_spec c 128); [reflexivity | lia]. }
  destruct (Z.ltb_spec c 2048) as [H2|H2].
  { eexists. split; [reflexivity|]. intros rest. cbn [app utf8_decode].
    assert (Hq : 2 <= c / 64 <= 31) by (Z.to_euclidean_division_equations; lia).
    assert (Hr : 0 <= c mod 64 < 64) by (apply Z.mod_pos_bound; lia).
    rewrite !byte_of_Z_small by lia. unfold continuation.
    destruct (Z.ltb_spec (192 + c / 64) 128); [lia|].
    destruct (Z.leb_spec 194 (192 + c / 64)); [|lia].
    destruct (Z.leb_spec (192 + c / 64) 223); [|lia].
    destruct (Z.leb_spec 128 (128 + c mod 64)); [|lia].
    destruct (Z.leb_spec (128 + c mod 64) 191); [|lia].
    cbn [andb]. do 2 f_equal. Z.to_euclidean_division_equations; lia. }
  destruct (Z.ltb_spec c 65536) as [H3|H3].
  { rewrite Hsur. eexists. split; [reflexivity|]. intros rest. cbn [app utf8_decode].
    assert (Hq : 0 <= c / 4096 <= 15) by (Z.to_euclidean_division_equations; lia).
    assert (Hm : 0 <= (c / 64) mod 64 < 64) by (apply Z.mod_pos_bound; lia).
    assert (Hr : 0 <= c mod 64 < 64) by (apply Z.mod_pos_bound; lia).
    assert (Hcp : (224 + c / 4096 - 224) * 4096 + (128 + (c / 64) mod 64 - 128) * 64 +
                  (128 + c mod 64 - 128) = c)
      by (Z.to_euclidean_division_equations; lia).
    rewrite !byte_of_Z_small by lia. rewrite Hcp, Hsur. unfold continuation.
    destruct (Z.ltb_spec (224 + c / 4096) 128); [lia|].
    destruct (Z.leb_spec 194 (224 + c / 4096)); [|lia].
    destruct (Z.leb_spec (224 + c / 4096) 223); [lia|].
    destruct (Z.leb_spec 224 (224 + c / 4096)); [|lia].
    destruct (Z.leb_spec (224 + c / 4096) 239); [|lia].
    destruct (Z.leb_spec 128 (128 + (c / 64) mod 64)); [|lia].
    destruct (Z.leb_spec (128 + (c / 64) mod 64) 191); [|lia].
    destruct (Z.leb_spec 128 (128 + c mod 64)); [|lia].
    destruct (Z.leb_spec (128 + c mod 64) 191); [|lia].
    destruct (Z.leb_spec 2048 c); [|lia].
    reflexivity. }
  eexists. split; [reflexivity|]. intros rest. cbn [app utf8_decode].
  assert (Hq : 0 <= c / 262144 <= 4) by (Z.to_euclidean_division_equations; lia).
  assert (Hm1 : 0 <= (c / 4096) mod 64 < 64) by (apply Z.mod_pos_bound; lia).
  assert (Hm2 : 0 <= (c / 64) mod 64 < 64) by (apply Z.mod_pos_bound; lia).
  assert (Hr : 0 <= c mod 64 < 64) by (apply Z.mod_pos_bound; lia).
  assert (Hcp : (240 + c / 262144 - 240) * 262144 +
                (128 + (c / 4096) mod 64 - 128) * 4096 +
                (128 + (c / 64) mod 64 - 128) * 64 + (128 + c mod 64 - 128) = c)
    by (Z.to_euclidean_division_equations; lia).
  rewrite !byte_of_Z_small by lia. rewrite Hcp. unfold continuation.
  destruct (Z.ltb_spec (240 + c / 262144) 128); [lia|].
  destruct (Z.leb_spec 194 (240 + c / 262144)); [|lia].
  destruct (Z.leb_spec (240 + c / 262144) 223); [lia|].
  destruct (Z.leb_spec 224 (240 + c / 262144)); [|lia].
  destruct (Z.leb_spec (240 + c / 262144) 239); [lia|].
  destruct (Z.leb_spec 240 (240 + c / 262144)); [|lia].
  destruct (Z.leb_spec (240 + c / 262144) 244); [|lia].
  destruct (Z.leb_spec 128 (128 + (c / 4096) mod 64)); [|lia].
  destruct (Z.leb_spec (128 + (c / 4096) mod 64) 191); [|lia].
  destruct (Z.leb_spec 128 (128 + (c / 64) mod 64)); [|lia].
  destruct (Z.leb_spec (128 + (c / 64) mod 64) 191); [|lia].
  destruct (Z.leb_spec 128 (128 + c mod 64)); [|lia].
  destruct (Z.leb_spec (128 + c mod 64) 191); [|lia].
  destruct (Z.leb_spec 65536 c); [|lia].
  destruct (Z.leb_spec c 1114111); [|lia].
  reflexivity.
Qed.

(** A text of scalar values can be encoded, and decoding gives it back. *)
Lemma decode_encode (s : str) :
  Forall scalar s ->
  exists bs, utf8_encode s = Some bs /\ utf8_decode bs = Some s.
Proof.
  induction 1 as [|c s Hc _ (rest & Henc & Hdec)].
  - exists []. split; reflexivity.
  - destruct (decode_encode_char c Hc) as (bs & Hchar & Hback).
    exists (bs ++ rest). cbn [utf8_encode]. rewrite Hchar, Henc.
    split; [reflexivity|]. now rewrite Hback, Hdec.
Qed.

Lemma scalar_intro (c : Z) :
  0 <= c <= 1114111 -> ~ 55296 <= c <= 57343 -> scalar c.
Proof.
  intros Hr Hs. split; [exact Hr|]. unfold surrogate.
  destruct (Z.leb_spec 55296 c); destruct (Z.leb_spec c 57343); try reflexivity. lia.
Qed.

(** The decoder only returns scalar values. *)
Lemma decode_scalar (n : nat) : forall (bs : list byte) (s : str),
  (length bs <= n)%nat -> utf8_decode bs = Some s -> Forall scalar s.
Proof.
  induction n as [|n IH]; intros bs s Hlen Hdec.
  - destruct bs; [|cbn [length] in Hlen; lia].
    cbn [utf8_decode] in Hdec. assert (s = []) as -> by congruence. constructor.
  - destruct bs as [|b0 r0].
    { cbn [utf8_decode] in Hdec. assert (s = []) as -> by congruence. constructor. }
    cbn [length] in Hlen. cbn [utf8_decode] in Hdec.
    pose proof (ByteFacts.Z_of_byte_range b0) as Ha.
    set (a := Z_of_byte b0) in *.
    destruct (Z.ltb_spec a 128) as [H1|H1].
    { destruct (utf8_decode r0) as [t|] eqn:Hr; [|discriminate].
      cbn [option_map] in Hdec. assert (s = a :: t) as -> by congruence.
      constructor; [apply scalar_intro; lia | apply (IH r0); [lia | exact Hr]]. }
    destruct ((194 <=? a) && (a <=? 223)) eqn:H2.
    { apply andb_true_iff in H2. destruct H2 as [H2a H2b].
      apply Z.leb_le in H2a, H2b.
      destruct r0 as [|b1 r1]; [discriminate|]. cbn [length] in Hlen.
      pose proof (ByteFacts.Z_of_byte_range b1) as Hb.
      set (b := Z_of_byte b1) in *.
      destruct (continuation b) eqn:Hcb; [|discriminate].
      unfold continuation in Hcb. apply andb_true_iff in Hcb.
      destruct Hcb as [Hb1 Hb2]. apply Z.leb_le in Hb1, Hb2.
      destruct (utf8_decode r1) as [t|] eqn:Hr; [|discriminate].
      cbn [option_map] in Hdec.
      assert (s = ((a - 192) * 64 + (b - 128)) :: t) as -> by congruence.
      constructor; [apply scalar_intro; lia | apply (IH r1); [lia | exact Hr]]. }
    destruct ((224 <=? a) && (a <=? 239)) eqn:H3.
    { destruct r0 as [|b1 [|b2 r2]]; try discriminate. cbn [length] in Hlen.
      set (cp := (a - 224) * 4096 + (Z_of_byte b1 - 128) * 64 + (Z_of_byte b2 - 128)) in *.
      destruct (continuation (Z_of_byte b1) && continuation (Z_of_byte b2) &&
                (2048 <=? cp) && negb (surrogate cp)) eqn:Hc; [|discriminate].
      apply andb_true_iff in Hc. destruct Hc as [Hc Hsur].
      apply andb_true_iff in Hc. destruct Hc as [Hc Hlow].
      apply andb_true_iff in Hc. destruct Hc as [Hc1 Hc2].
      unfold continuation in Hc1, Hc2.
      apply andb_true_iff in Hc1, Hc2, H3.
      destruct Hc1 as [Hb1 Hb2]. destruct Hc2 as [Hc1 Hc2]. destruct H3 as [H3a H3b].
      apply Z.leb_le in Hb1, Hb2, Hc1, Hc2, H3a, H3b, Hlow.
      apply negb_true_iff in Hsur.
      destruct (utf8_decode r2) as [t|] eqn:Hr; [|discriminate].
      cbn [option_map] in Hdec. assert (s = cp :: t) as -> by congruence.
      constructor; [|apply (IH r2); [lia | exact Hr]].
      split; [subst cp; lia | exact Hsur]. }
    destruct ((240 <=? a) && (a <=? 244)) eqn:H4; [|discriminate].
    destruct r0 as [|b1 [|b2 [|b3 r3]]]; try discriminate. cbn [length] in Hlen.
    set (cp := (a - 240) * 262144 + (Z_of_byte b1 - 128) * 4096 +
               (Z_of_byte b2 - 128) * 64 + (Z_of_byte b3 - 128)) in *.
    destruct (continuation (Z_of_byte b1) && continuation (Z_of_byte b2) &&
              continuation (Z_of_byte b3) && (65536 <=? cp) && (cp <=? 1114111)) eqn:Hc;
      [|discriminate].
    apply andb_true_iff in Hc. destruct Hc as [Hc Hhigh].
    apply andb_true_iff in Hc. destruct Hc as [Hc Hlow].
    apply Z.leb_le in Hhigh, Hlow.
    destruct (utf8_decode r3) as [t|] eqn:Hr; [|discriminate].
    cbn [option_map] in Hdec. assert (s = cp :: t) as -> by congruence.
    constructor; [apply scalar_intro; lia | apply (IH r3); [lia | exact Hr]].
Qed.

(** After the translation no carriage return is left. *)
Lemma universal_newlines_Forall (P : Z -> Prop) (n : nat) : forall s : str,
  (length s <= n)%nat -> P 10 -> Forall P s ->
  Forall (fun c => P c /\ c <> 13) (universal_newlines s).
Proof.
  induction n as [|n IH]; intros s Hlen H10 Hs.
  - destruct s; [constructor | cbn [length] in Hlen; lia].
  - destruct Hs as [|c s Hc Hs]; [constructor|].
    cbn [length] in Hlen. cbn [universal_newlines].
    destruct (Z.eqb_spec c 13) as [->|Hne].
    + destruct Hs as [|d s Hd Hs]; [repeat constructor; (assumption || lia)|].
      cbn [length] in Hlen.
      destruct (Z.eqb_spec d 10) as [->|Hd10].
      * constructor; [split; [assumption | lia]|]. apply IH; [lia | assumption..].
      * constructor; [split; [assumption | lia]|].
        apply IH; [cbn [length]; lia | assumption | now constructor].
    + constructor; [now split|]. apply IH; [lia | assumption..].
Qed.

(** A text without a carriage return is read as it is. *)
Lemma universal_newlines_id (s : str) :
  Forall (fun c => c <> 13) s -> universal_newlines s = s.
Proof.
  induction 1 as [|c s Hc _ IH]; [reflexivity|].
  cbn [universal_newlines]. destruct (Z.eqb_spec c 13); [contradiction|]. now rewrite IH.
Qed.

End TextFacts.

(** ** The patch of [main.js] *)

Module ReplaceFacts.
Import PyStr.

Lemma replace_from_Forall {A : Type} (eqb : A -> A -> bool) (P : A -> Prop)
    (old new s : list A) :
  Forall P new -> Forall P s -> forall k, Forall P (replace_from eqb old new k s).
Proof.
  intros Hnew Hs. induction Hs as [|c s Hc _ IH]; intros k; [constructor|].
  cbn [replace_from]. destruct k as [|k]; [|apply IH].
  destruct (startswith eqb old (c :: s)).
  - apply Forall_app. split; [exact Hnew | apply IH].
  - constructor; [exact Hc | apply IH].
Qed.

End ReplaceFacts.

Module PatchFacts.
Import PrepareDemo.

Lemma Z_eqb_eq (a b : Z) : Z.eqb a b = true <-> a = b.
Proof. apply Z.eqb_eq. Qed.

Lemma local_config_has_marker :
  PyStr.contains Z.eqb local_marker local_config = true.
Proof. vm_compute. reflexivity. Qed.

Lemma remote_config_nonempty : remote_config <> [].
Proof. vm_compute. discriminate. Qed.

(** The replacement text is plain ASCII without a carriage return. *)
Lemma local_config_plain : Forall (fun c => scalar c /\ c <> 13) local_config.
Proof.
  assert (H : forallb (fun c => (0 <=? c) && (c <? 128) && negb (c =? 13)) local_config = true)
    by (vm_compute; reflexivity).
  apply Forall_forall. intros c Hin.
  apply (proj1 (forallb_forall _ _) H) in Hin.
  apply andb_true_iff in Hin. destruct Hin as [Hin H13].
  apply andb_true_iff in Hin. destruct Hin as [H0 H128].
  apply Z.leb_le in H0. apply Z.ltb_lt in H128.
  apply negb_true_iff, Z.eqb_neq in H13.
  split; [apply TextFacts.scalar_intro; lia | exact H13].
Qed.

(** What [read] returns holds scalar values and no carriage return. *)
Lemma read_text_plain (file : list byte) (src : text) :
  PyText.read_text file = Some src -> Forall (fun c => scalar c /\ c <> 13) src.
Proof.
  unfold PyText.read_text.
  destruct (PyText.utf8_decode file) as [s|] eqn:Hdec; [|discriminate].
  cbn [option_map]. intros Hsrc. assert (src = PyText.universal_newlines s) as -> by congruence.
  apply (TextFacts.universal_newlines_Forall scalar (length s)); [lia | |].
  - apply TextFacts.scalar_intro; lia.
  - now apply (TextFacts.decode_scalar (length file) file).
Qed.

(** A text of scalar values without a carriage return is written and read
    back as it is. *)
Lemma write_then_read (t : text) :
  Forall (fun c => scalar c /\ c <> 13) t ->
  exists content, PyText.write_text t = Some content /\
                  PyText.utf8_decode content = Some t /\
                  PyText.read_text content = Some t.
Proof.
  intros Ht.
  assert (Hs : Forall scalar t) by (eapply Forall_impl; [|exact Ht]; now intros c [H _]).
  assert (Hn : Forall (fun c => c <> 13) t)
    by (eapply Forall_impl; [|exact Ht]; now intros c [_ H]).
  destruct (TextFacts.decode_encode t Hs) as (content & Henc & Hdec).
  exists content. split; [exact Henc|]. split; [exact Hdec|].
  unfold PyText.read_text. rewrite Hdec. cbn [option_map].
  now rewrite TextFacts.universal_newlines_id.
Qed.

(** On a readable [main.js] the patch returns early or writes the replaced
    text, which reads back as it was written. *)
Lemma patch_readable (file : list byte) (src : text) :
  PyText.read_text file = Some src ->
  (PyStr.contains Z.eqb local_marker src = true /\
   patch_main_js_for_local_config file = Unchanged) \/
  (PyStr.contains Z.eqb local_marker src = false /\
   exists content,
     patch_main_js_for_local_config file = Written content /\
     PyText.write_text (PyStr.replace Z.eqb remote_config local_config src) =
       Some content /\
     PyText.read_text content =
       Some (PyStr.replace Z.eqb remote_config local_config src)).
Proof.
  intros Hread. unfold patch_main_js_for_local_config. rewrite Hread.
  destruct (PyStr.contains Z.eqb local_marker src); [left; now split | right].
  split; [reflexivity|].
  destruct (write_then_read (PyStr.replace Z.eqb remote_config local_config src))
    as (content & Hw & _ & Hr).
  { apply ReplaceFacts.replace_from_Forall;
      [apply local_config_plain | now apply (read_text_plain file)]. }
  exists content. rewrite Hw. now repeat split.
Qed.

(** A text that mentions the marker or lacks the pattern is left as it is
    by the replacement; any other now mentions the marker. *)
Lemma replace_settles (src : text) :
  PyStr.contains Z.eqb local_marker src = false ->
  let src' := PyStr.replace Z.eqb remote_config local_config src in
  PyStr.contains Z.eqb local_marker src' = true \/
  (src' = src /\ PyStr.contains Z.eqb remote_config src = false).
Proof.
  intros Hmark src'. subst src'.
  destruct (PyStr.contains Z.eqb remote_config src) eqn:Hold.
  - left.
    destruct (PyStrFacts.replace_present Z.eqb Z_eqb_eq remote_config local_config src
                remote_config_nonempty Hold) as (pre & post & _ & _ & Hrep).
    rewrite Hrep. apply PyStrFacts.contains_app_l.
    apply PyStrFacts.contains_app_r; [exact Z_eqb_eq | exact local_config_has_marker].
  - right. split; [now apply PyStrFacts.replace_absent | reflexivity].
Qed.

End PatchFacts.

(** ** Properties of the record reader and of the downsample filter *)

(** C4: for a chunk budget [chunk_bytes >= 0], [iter_records] reads with the
    largest multiple of 36 that does not exceed the budget; every read starts
    at an offset that is a multiple of 36; and every yielded buffer is the
    36-byte block of the input at 36 times its index, taken whole from a single
    chunk.  With a negative budget the first [f.read] raises, so nothing is
    yielded at all. *)
Theorem iter_records_aligned_reads (input : list byte) (chunk_bytes : Z) :
  (chunk_bytes < 0 ->
   Downsample.iter_records input chunk_bytes = Err ValueError) /\
  (0 <= chunk_bytes ->
  exists (n : nat) (chunks : list (list byte)),
    Downsample.aligned chunk_bytes = Z.of_nat n /\
    (n mod 36 = 0)%nat /\
    Z.of_nat n <= chunk_bytes < Z.of_nat n + 36 /\
    Downsample.chunks_read input chunk_bytes = Ok chunks /\
    Downsample.iter_records input chunk_bytes =
      Ok (flat_map Downsample.records_of_chunk chunks) /\
    (forall i c, nth_error chunks i = Some c ->
       c = take n (drop (i * n) input) /\ ((i * n) mod 36 = 0)%nat) /\
    (forall k r,
       nth_error (flat_map Downsample.records_of_chunk chunks) k = Some r ->
       length r = 36%nat /\ r = block input k /\
       (36 * k + 36 <= length input)%nat /\
       exists i c j, nth_error chunks i = Some c /\ r = block c j /\
                     (36 * j + 36 <= length c)%nat)).
Proof.
  split.
  { intros Hneg. unfold Downsample.iter_records, Downsample.chunks_read.
    destruct (ReaderFacts.aligned_spec chunk_bytes) as [Hmod Hbound].
    assert (Hlt : Downsample.aligned chunk_bytes < -1)
      by (Z.to_euclidean_division_equations; lia).
    rewrite ReaderFacts.read_chunks_negative by exact Hlt. reflexivity. }
  intros Hc.
  destruct (ReaderFacts.aligned_spec chunk_bytes) as [_ Hbound].
  destruct (ReaderFacts.aligned_multiple chunk_bytes Hc) as [k Hk].
  exists (36 * k)%nat.
  assert (Hmod : forall i, ((i * (36 * k)) mod 36 = 0)%nat).
  { intros i. replace (i * (36 * k))%nat with (i * k * 36)%nat by lia.
    apply Nat.Div0.mod_mul. }
  destruct k as [|k].
  - exists []. unfold Downsample.iter_records, Downsample.chunks_read.
    rewrite Hk. change (Z.of_nat (36 * 0)) with 0.
    rewrite ReaderFacts.read_chunks_zero. cbn [bind flat_map].
    split; [reflexivity|]. split; [reflexivity|].
    split; [change (Z.of_nat (36 * 0)) with 0 in Hk; lia|].
    split; [reflexivity|]. split; [reflexivity|].
    split; intros [|i] c Hnth; discriminate.
  - destruct (ReaderFacts.read_chunks_aligned (S k) (S (length input)) input)
      as (chunks & Hrun & _ & Hrecs & Hnth); [lia | lia |].
    exists chunks. unfold Downsample.iter_records, Downsample.chunks_read.
    rewrite Hk, Hrun. cbn [bind].
    split; [reflexivity|].
    split; [specialize (Hmod 1%nat); now rewrite Nat.mul_1_l in Hmod|].
    split; [lia|]. split; [reflexivity|]. split; [reflexivity|].
    split.
    + intros i c Hi. split; [|apply Hmod]. now apply Hnth in Hi.
    + intros j r Hj.
      destruct (RunFacts.nth_error_flat_map _ _ _ _ Hj) as (i & c & j' & Hi & Hj').
      rewrite Hrecs in Hj.
      apply ReaderFacts.records_of_chunk_nth in Hj. destruct Hj as (Hr & Hlen & Hsize).
      apply ReaderFacts.records_of_chunk_nth in Hj'. destruct Hj' as (Hr' & Hlen' & _).
      split; [exact Hsize|]. split; [exact Hr|]. split; [exact Hlen|].
      exists i, c, j'. split; [exact Hi|]. split; [exact Hr' | exact Hlen'].
Qed.

Lemma iter_records_aligned_reads_witness :
  exists chunks,
    Downsample.chunks_read sample_file 80 = Ok chunks /\
    map (@length byte) chunks = [72; 41]%nat /\
    nth_error (flat_map Downsample.records_of_chunk chunks) 2 =
      Some (sample_record 1 10).
Proof.
  destruct (iter_records_aligned_reads sample_file 80) as [_ Haligned].
  destruct (Haligned ltac:(lia))
    as (n & chunks & Hn & _ & _ & Hread & _ & _ & _).
  exists chunks. vm_compute in Hread.
  injection Hread as <-. vm_compute. repeat split.
Defined.

(** C10: whatever the size of the input, the reader of [downsample] yields
    exactly [size / 36] records, all of 36 bytes, which are the input without
    its last [size mod 36] bytes; neither the reader nor [downsample] raises. *)
Theorem iter_records_ignores_partial_tail (input : list byte) :
  exists recs tail,
    Downsample.iter_records input Downsample.default_chunk_bytes = Ok recs /\
    length recs = (length input / 36)%nat /\
    Forall (fun r => length r = 36%nat) recs /\
    input = concat recs ++ tail /\
    length tail = (length input mod 36)%nat /\
    forall min_span stride limit,
      exists r, Downsample.downsample input min_span stride limit = Ok r.
Proof.
  exists (Downsample.records_of_chunk input),
         (skipn (36 * (length input / 36)) input).
  split; [apply ReaderFacts.iter_records_blocks, RunFacts.default_chunk_large|].
  split; [apply ReaderFacts.length_records_of_chunk|].
  split; [apply ReaderFacts.Forall_records_of_chunk|].
  split; [rewrite ReaderFacts.records_of_chunk_concat; symmetry; apply firstn_skipn|].
  split.
  - rewrite length_skipn. rewrite (Nat.Div0.mod_eq (length input) 36). reflexivity.
  - intros min_span stride limit.
    destruct (RunFacts.run_prefix input min_span stride limit) as (st & Hrun & _).
    unfold Downsample.downsample. rewrite Hrun. cbn [bind]. eexists. reflexivity.
Qed.



(** C5: with a cap [limit > 0] the run writes the first [limit] passing
    records and no other; when at least [limit] records pass, exactly [limit]
    records are written and the loop stops at the [limit]-th of them: the last
    record read is the last record written, and nothing behind it is read. *)
Theorem downsample_stops_at_cap
    (input : list byte) (min_span stride limit : Z) :
  0 < limit ->
  exists st,
    Downsample.downsample_run input min_span stride (Some limit) = Ok st /\
    Downsample.downsample input min_span stride (Some limit) =
      Ok (Downsample.kept st, concat (Downsample.out st)) /\
    Downsample.out st =
      firstn (Z.to_nat limit)
        (survivors min_span stride 0 (Downsample.records_of_chunk input)) /\
    Downsample.kept st = Z.of_nat (length (Downsample.out st)) /\
    (limit <= Z.of_nat (length (survivors min_span stride 0
                                  (Downsample.records_of_chunk input))) ->
     Downsample.kept st = limit /\
     exists pre r post,
       Downsample.records_of_chunk input = pre ++ r :: post /\
       Downsample.total st = Z.of_nat (length pre) + 1 /\
       Downsample.out st = survivors min_span stride 0 pre ++ [r]).
Proof.
  intros Hlimit.
  destruct (RunFacts.run_capped input min_span stride limit ltac:(lia))
    as (st & Hrun & Hout & Hkept & _ & Hfull).
  assert (Hq : quota limit 0 = Z.to_nat limit) by (unfold quota; lia).
  rewrite Hq in Hout, Hfull.
  exists st. split; [exact Hrun|].
  split; [unfold Downsample.downsample; rewrite Hrun; reflexivity|].
  split; [exact Hout|]. split; [exact Hkept|].
  intros Hmany. split.
  - rewrite Hkept, Hout, length_firstn. lia.
  - destruct Hfull as (pre & r & post & Hrecs & Htot & Hpre & _); [lia|].
    exists pre, r, post. repeat split; assumption.
Qed.

Lemma downsample_stops_at_cap_witness :
  exists st,
    Downsample.downsample_run sample_file 5 1 (Some 1) = Ok st /\
    Downsample.kept st = 1 /\ Downsample.total st = 2 /\
    Downsample.out st = [sample_record 3 10].
Proof.
  destruct (downsample_stops_at_cap sample_file 5 1 1 ltac:(lia))
    as (st & Hrun & _ & _ & _ & _).
  exists st. split; [exact Hrun|].
  vm_compute in Hrun. injection Hrun as <-. vm_compute. repeat split.
Defined.

(** C9: when [limit] is [None] or [0] there is no cap: every record of the
    input that passes the stride and span tests is written, all records are
    read, and the count returned is the number of passing records. *)
Theorem downsample_without_cap
    (input : list byte) (min_span stride : Z) (limit : option Z) :
  limit = None \/ limit = Some 0 ->
  Downsample.downsample_run input min_span stride limit =
    Ok (Downsample.mkState
          (survivors min_span stride 0 (Downsample.records_of_chunk input))
          (Z.of_nat (length (survivors min_span stride 0
                               (Downsample.records_of_chunk input))))
          (Z.of_nat (length (Downsample.records_of_chunk input)))) /\
  Downsample.downsample input min_span stride limit =
    Ok (Z.of_nat (length (survivors min_span stride 0
                            (Downsample.records_of_chunk input))),
        concat (survivors min_span stride 0 (Downsample.records_of_chunk input))).
Proof.
  intros Hlimit.
  assert (Hfalsy : truthy limit = false) by (destruct Hlimit as [-> | ->]; reflexivity).
  pose proof (RunFacts.run_uncapped input min_span stride limit Hfalsy) as Hrun.
  cbv zeta in Hrun. split; [exact Hrun|].
  unfold Downsample.downsample. rewrite Hrun. reflexivity.
Qed.

Lemma downsample_without_cap_witness :
  Downsample.downsample sample_file 5 1 (Some 0) =
    Ok (2, sample_record 3 10 ++ sample_record 1 10).
Proof.
  destruct (downsample_without_cap sample_file 5 1 (Some 0) (or_intror eq_refl))
    as [_ Hret].
  rewrite Hret. vm_compute. reflexivity.
Defined.

(** C6, as the code has it: the records written are an order-preserving
    subsequence of the records of the input, so there are at most as many; a
    cap [limit > 0] bounds their number by [min limit (number of input
    records)], while [None] and [0] bound nothing. *)
Theorem downsample_output_subsequence
    (input : list byte) (min_span stride : Z) (limit : option Z) :
  exists st,
    Downsample.downsample_run input min_span stride limit = Ok st /\
    Downsample.downsample input min_span stride limit =
      Ok (Z.of_nat (length (Downsample.out st)), concat (Downsample.out st)) /\
    Subseq (Downsample.out st) (Downsample.records_of_chunk input) /\
    (length (Downsample.out st) <= length (Downsample.records_of_chunk input))%nat /\
    (forall l, limit = Some l -> 0 < l ->
       Z.of_nat (length (Downsample.out st)) <=
       Z.min l (Z.of_nat (length (Downsample.records_of_chunk input)))).
Proof.
  destruct (RunFacts.run_prefix input min_span stride limit)
    as (st & Hrun & Hkept & Htotal & Hout).
  assert (Hsub : Subseq (Downsample.out st) (Downsample.records_of_chunk input)).
  { rewrite Hout. eapply Subseq_trans;
      [apply LoopFacts.survivors_Subseq | apply Subseq_firstn]. }
  exists st. split; [exact Hrun|].
  split; [unfold Downsample.downsample; rewrite Hrun; cbn [bind]; now rewrite Hkept|].
  split; [exact Hsub|].
  split; [now apply Subseq_length|].
  intros l -> Hl. apply Z.min_glb; [|apply Subseq_length in Hsub; lia].
  destruct (RunFacts.run_cap_bound input min_span stride l Hl) as (st' & Hrun' & Hlen).
  rewrite Hrun in Hrun'. injection Hrun' as <-. exact Hlen.
Qed.

Lemma downsample_output_subsequence_witness :
  exists st,
    Downsample.downsample_run sample_file 5 1 (Some 1) = Ok st /\
    Z.of_nat (length (Downsample.out st)) <= Z.min 1 3.
Proof.
  destruct (downsample_output_subsequence sample_file 5 1 (Some 1))
    as (st & Hrun & _ & _ & _ & Hcap).
  exists st. split; [exact Hrun|].
  exact (Hcap 1 eq_refl ltac:(lia)).
Defined.

(** C6 as the specification words it fails for the cap value [0]: the three
    records of [sample_file] with [min_span = 5], [stride = 1] and
    [limit = 0] give two output records, more than [min 0 3]. *)
Lemma downsample_zero_limit_exceeds_min :
  ~ (forall input min_span stride l count bytes,
       Downsample.downsample input min_span stride (Some l) = Ok (count, bytes) ->
       count <= Z.min l (Z.of_nat (length (Downsample.records_of_chunk input)))).
Proof.
  intros Hclaim.
  specialize (Hclaim sample_file 5 1 0 2 (sample_record 3 10 ++ sample_record 1 10)).
  assert (Hrun : Downsample.downsample sample_file 5 1 (Some 0) =
                 Ok (2, sample_record 3 10 ++ sample_record 1 10))
    by (vm_compute; reflexivity).
  apply Hclaim in Hrun. vm_compute in Hrun. apply Hrun. reflexivity.
Qed.

(** C7, as the code has it: on a file whose size is not a multiple of 36,
    [validate_dat] prints a warning, reports [size / 36] records and decodes
    the first [min head (size / 36)] of them without raising, while
    [count_records] raises [RuntimeError]; [count_records] returns
    [size / 36] only when the division is exact. *)
Theorem size_mismatch_warns_in_validate_raises_in_count (dat : list byte) (head : Z) :
  let size := Z.of_nat (length dat) in
  (size mod 36 <> 0 ->
   PrepareDemo.count_records dat = Err RuntimeError /\
   Converter.validate_dat dat head =
   Ok (Converter.Warning size :: Converter.Format (size / 36) ::
       map (fun j => Converter.Rec (Z.of_nat j)
                       (Struct.unpack_fields Converter.FMT_STR (block dat j)))
           (seq 0 (Z.to_nat (Z.min head (size / 36)))))) /\
  (size mod 36 = 0 -> PrepareDemo.count_records dat = Ok (size / 36)).
Proof.
  intros size.
  assert (Hloop : forall n, (n <= Z.to_nat (size / 36))%nat ->
            Converter.validate_loop n 0 dat =
            Ok (map (fun j => Converter.Rec (Z.of_nat j)
                       (Struct.unpack_fields Converter.FMT_STR (block dat j)))
                    (seq 0 n))).
  { intros n Hn. apply ValidateFacts.validate_loop_blocks.
    assert (Hdiv : 36 * (size / 36) <= size) by (apply Z.mul_div_le; lia).
    assert (H0 : 0 <= size / 36) by (apply Z.div_pos; lia).
    lia. }
  unfold PrepareDemo.count_records, Converter.validate_dat.
  change (Z.of_nat PrepareDemo.RECORD_SIZE) with 36.
  change (Z.of_nat Converter.RECORD_SIZE) with 36.
  fold size. split; intros Hmod.
  - destruct (Z.eqb_spec (size mod 36) 0) as [|_]; [contradiction|].
    cbn [negb]. split; [reflexivity|].
    rewrite Hloop by lia. reflexivity.
  - rewrite Hmod. reflexivity.
Qed.

Lemma size_mismatch_warns_in_validate_raises_in_count_witness :
  PrepareDemo.count_records sample_file = Err RuntimeError /\
  PrepareDemo.count_records (sample_record 0 1) = Ok 1 /\
  exists lines,
    Converter.validate_dat sample_file 3 =
    Ok (Converter.Warning 113 :: Converter.Format 3 :: lines) /\
    length lines = 3%nat.
Proof.
  pose proof (size_mismatch_warns_in_validate_raises_in_count sample_file 3) as [Hbad _].
  pose proof (size_mismatch_warns_in_validate_raises_in_count (sample_record 0 1) 3) as [_ Hgood].
  destruct Hbad as [Hcount Hval]; [vm_compute; discriminate|].
  split; [exact Hcount|].
  split; [apply Hgood; reflexivity|].
  eexists. split; [rewrite Hval; reflexivity|]. reflexivity.
Defined.

(** C7 as the specification words it fails: summarizing the 113-byte
    [sample_file] raises instead of returning [113 / 36 = 3]. *)
Lemma count_records_raises_on_size_mismatch :
  Z.of_nat (length sample_file) mod 36 <> 0 /\
  PrepareDemo.count_records sample_file = Err RuntimeError /\
  PrepareDemo.count_records sample_file <> Ok (Z.of_nat (length sample_file) / 36).
Proof.
  split; [vm_compute; discriminate|].
  split; [reflexivity | vm_compute; discriminate].
Qed.

(** ** The quaternion encoder *)

(** C1, as the code has it: when the computed norm compares equal to zero the
    encoder takes the identity quaternion and returns (255, 128, 128, 128);
    otherwise it divides each component by the norm; each component [v] is
    then mapped to [int(v*128 + 128)], the truncation toward zero of that
    float, clamped to [[0,255]].  The encoder returns whenever the norm is
    zero or the normalized components lie in [[-1, 1]]. *)
Theorem normalize_quaternion_to_bytes_truncates (q : Converter.quaternion) :
  (forall len,
     Converter.quaternion_length q = Ok len ->
     PyFloat.eqb len PyFloat.zero = true ->
     Converter.normalized q =
       Ok (PyFloat.one, PyFloat.zero, PyFloat.zero, PyFloat.zero) /\
     Converter.normalize_quaternion_to_bytes q = Ok (255, 128, 128, 128)) /\
  (forall w x y z len,
     q = (w, x, y, z) ->
     Converter.quaternion_length q = Ok len ->
     PyFloat.eqb len PyFloat.zero = false ->
     let div v := SFdiv PyFloat.prec PyFloat.emax v len in
     Converter.normalized q = Ok (div w, div x, div y, div z) /\
     forall bs,
       Converter.normalize_quaternion_to_bytes q = Ok bs ->
       bs = (trunc_byte (div w), trunc_byte (div x),
             trunc_byte (div y), trunc_byte (div z))) /\
  (forall bw bx by_ bz,
     Converter.normalize_quaternion_to_bytes q = Ok (bw, bx, by_, bz) ->
     0 <= bw <= 255 /\ 0 <= bx <= 255 /\ 0 <= by_ <= 255 /\ 0 <= bz <= 255) /\
  (forall w x y z,
     Converter.normalized q = Ok (w, x, y, z) ->
     unit_component w -> unit_component x ->
     unit_component y -> unit_component z ->
     exists bs, Converter.normalize_quaternion_to_bytes q = Ok bs).
Proof.
  split; [|split; [|split]].
  - intros len Hlen Hzero.
    assert (Hnorm : Converter.normalized q =
                    Ok (PyFloat.one, PyFloat.zero, PyFloat.zero, PyFloat.zero)).
    { unfold Converter.normalized. destruct q as [[[w x] y] z].
      rewrite Hlen. cbn [bind]. now rewrite Hzero. }
    split; [exact Hnorm|].
    unfold Converter.normalize_quaternion_to_bytes. rewrite Hnorm.
    vm_compute. reflexivity.
  - intros w x y z len -> Hlen Hnonzero div.
    assert (Hnorm : Converter.normalized (w, x, y, z) =
                    Ok (div w, div x, div y, div z)).
    { unfold Converter.normalized. rewrite Hlen. cbn [bind]. rewrite Hnonzero.
      unfold PyFloat.div. rewrite Hnonzero. reflexivity. }
    split; [exact Hnorm|].
    intros bs. unfold Converter.normalize_quaternion_to_bytes.
    rewrite Hnorm. cbn [bind].
    destruct (Converter.to_byte (div w)) as [bw|] eqn:Hw; [|discriminate].
    destruct (Converter.to_byte (div x)) as [bx|] eqn:Hx; [|discriminate].
    destruct (Converter.to_byte (div y)) as [by_|] eqn:Hy; [|discriminate].
    destruct (Converter.to_byte (div z)) as [bz|] eqn:Hz; [|discriminate].
    cbn [bind]. intros H. injection H as <-.
    apply IntFacts.to_byte_truncates in Hw, Hx, Hy, Hz.
    destruct Hw as [-> _], Hx as [-> _], Hy as [-> _], Hz as [-> _].
    reflexivity.
  - intros bw bx by_ bz. unfold Converter.normalize_quaternion_to_bytes.
    destruct (Converter.normalized q) as [[[[w x] y] z]|]; [|discriminate].
    cbn [bind].
    destruct (Converter.to_byte w) as [bw'|] eqn:Hw; [|discriminate].
    destruct (Converter.to_byte x) as [bx'|] eqn:Hx; [|discriminate].
    destruct (Converter.to_byte y) as [by'|] eqn:Hy; [|discriminate].
    destruct (Converter.to_byte z) as [bz'|] eqn:Hz; [|discriminate].
    cbn [bind]. intros H. injection H as <- <- <- <-.
    apply IntFacts.to_byte_truncates in Hw, Hx, Hy, Hz.
    repeat split; lia.
  - intros w x y z Hnorm Hw Hx Hy Hz.
    destruct (QuantizeFacts.to_byte_returns w Hw) as [bw Hbw].
    destruct (QuantizeFacts.to_byte_returns x Hx) as [bx Hbx].
    destruct (QuantizeFacts.to_byte_returns y Hy) as [by_ Hby].
    destruct (QuantizeFacts.to_byte_returns z Hz) as [bz Hbz].
    exists (bw, bx, by_, bz).
    unfold Converter.normalize_quaternion_to_bytes.
    rewrite Hnorm. cbn [bind]. rewrite Hbw, Hbx, Hby, Hbz. reflexivity.
Qed.

Lemma normalize_quaternion_to_bytes_truncates_witness :
  Converter.normalize_quaternion_to_bytes quaternion_zero = Ok (255, 128, 128, 128) /\
  Converter.normalize_quaternion_to_bytes quaternion_3_4 = Ok (204, 230, 128, 128) /\
  trunc_byte (SFdiv PyFloat.prec PyFloat.emax (PyFloat.of_int 3) (PyFloat.of_int 5)) = 204.
Proof.
  destruct (normalize_quaternion_to_bytes_truncates quaternion_zero) as (Hzero & _).
  destruct (normalize_quaternion_to_bytes_truncates quaternion_3_4) as (_ & Hnonzero & _).
  split; [apply (Hzero PyFloat.zero); reflexivity|].
  destruct (Hnonzero (PyFloat.of_int 3) (PyFloat.of_int 4) PyFloat.zero PyFloat.zero
              (PyFloat.of_int 5) eq_refl) as [_ Hbytes];
    [vm_compute; reflexivity | reflexivity |].
  assert (Hrun : Converter.normalize_quaternion_to_bytes quaternion_3_4 =
                 Ok (204, 230, 128, 128)) by (vm_compute; reflexivity).
  split; [exact Hrun|].
  apply Hbytes in Hrun. symmetry.
  exact (f_equal (fun t : Z * Z * Z * Z => fst (fst (fst t))) Hrun).
Defined.

(** C1 as the specification words it fails: for the quaternion (3, 4, 0, 0)
    the first component is 0.6 and [0.6*128 + 128] is 204.8, which the code
    maps to 204 where rounding gives 205. *)
Lemma quantization_truncates_where_spec_rounds :
  Converter.normalize_quaternion_to_bytes quaternion_3_4 = Ok (204, 230, 128, 128) /\
  quantize_by_rounding quaternion_3_4 = Ok (205, 230, 128, 128) /\
  Converter.normalize_quaternion_to_bytes quaternion_3_4 <>
  quantize_by_rounding quaternion_3_4.
Proof.
  split; [vm_compute; reflexivity|].
  split; [vm_compute; reflexivity|].
  vm_compute. discriminate.
Qed.

(** ** The conversion example *)

(** C8: converting two files of one vertex each with [frame_step = 10],
    opacity 200, scale 2.0 and the identity rotation ends with status 0 and
    writes 72 bytes; the first 36 decode to frames 0 and 0, the vertex's
    position and colour, opacity 200, scale (2.0, 2.0, 2.0) and rotation bytes
    (255, 128, 128, 128), the last 36 to the same for the second vertex with
    both frames 10. *)
Theorem two_single_vertex_files (v1 v2 : Converter.vertex) :
  vertex_ok v1 -> vertex_ok v2 ->
  exists out,
    Converter.main (example_args v1 v2) = Ok (0, Some out) /\
    length out = 72%nat /\
    Struct.unpack Converter.FMT_STR (take 36 out) = Ok (example_fields 0 v1) /\
    Struct.unpack Converter.FMT_STR (drop 36 out) = Ok (example_fields 10 v2).
Proof.
  intros Hv1 Hv2.
  destruct (StructFacts.pack_unpack _ _
              (ConvertFacts.example_fields_well_typed v1 0 Hv1 ltac:(lia)))
    as (buf1 & Hpack1 & Hlen1 & Hunpack1).
  destruct (StructFacts.pack_unpack _ _
              (ConvertFacts.example_fields_well_typed v2 10 Hv2 ltac:(lia)))
    as (buf2 & Hpack2 & Hlen2 & Hunpack2).
  change (Struct.calcsize Converter.FMT_STR) with 36%nat in Hlen1, Hlen2.
  exists (buf1 ++ buf2 ++ []).
  split.
  - unfold Converter.main, example_args.
    cbn [Converter.ply_files Converter.chain_records Converter.frame_step
         Converter.default_opacity Converter.default_scale Converter.rotation].
    change (0 * 10) with 0. change ((0 + 1) * 10) with 10.
    rewrite !ConvertFacts.generate_single. cbn [bind app Converter.write_dat].
    rewrite Hpack1, Hpack2. reflexivity.
  - rewrite app_nil_r.
    split; [rewrite length_app, Hlen1, Hlen2; reflexivity|].
    rewrite StructFacts.take_app_length, StructFacts.drop_app_length by assumption.
    split; assumption.
Qed.

Lemma two_single_vertex_files_witness :
  exists out,
    Converter.main (example_args sample_vertex sample_vertex) = Ok (0, Some out) /\
    length out = 72%nat /\
    Struct.unpack Converter.FMT_STR (take 36 out) = Ok (example_fields 0 sample_vertex).
Proof.
  assert (Hv : vertex_ok sample_vertex)
    by (unfold vertex_ok; repeat split; vm_compute; (reflexivity || discriminate)).
  destruct (two_single_vertex_files sample_vertex sample_vertex Hv Hv)
    as (out & Hmain & Hlen & Hfirst & _).
  exists out. repeat split; assumption.
Defined.

(** ** The record codec *)




(** ** Further properties of the record reader *)

(** X1: the records [iter_records] yields do not depend on the chunk budget:
    with any budget of at least 36 bytes it yields what it yields with the
    default budget of 4 MiB, namely the [size / 36] whole 36-byte blocks of
    the file in order. *)
Theorem iter_records_budget_independent (input : list byte) (chunk_bytes : Z) :
  36 <= chunk_bytes ->
  Downsample.iter_records input chunk_bytes =
    Downsample.iter_records input Downsample.default_chunk_bytes /\
  Downsample.iter_records input chunk_bytes =
    Ok (map (block input) (seq 0 (length input / 36))).
Proof.
  intros Hc.
  rewrite !ReaderFacts.iter_records_blocks
    by (assumption || apply RunFacts.default_chunk_large).
  split; [reflexivity|]. f_equal.
  unfold Downsample.records_of_chunk, block. apply map_ext. intros k.
  now rewrite Nat.mul_comm.
Qed.

Lemma iter_records_budget_independent_witness :
  Downsample.iter_records sample_file 36 =
  Downsample.iter_records sample_file Downsample.default_chunk_bytes.
Proof.
  exact (proj1 (iter_records_budget_independent sample_file 36 ltac:(lia))).
Defined.

(** X2: with a budget of 0 to 35 bytes the aligned read size is 0, the first
    [f.read(0)] returns no bytes and the reader stops: it yields no record
    and raises nothing, whatever the file holds. *)
Theorem iter_records_small_budget_yields_nothing (input : list byte) (chunk_bytes : Z) :
  0 <= chunk_bytes < 36 ->
  Downsample.iter_records input chunk_bytes = Ok [].
Proof.
  intros Hc. unfold Downsample.iter_records, Downsample.chunks_read.
  assert (Ha : Downsample.aligned chunk_bytes = 0).
  { unfold Downsample.aligned. change (Z.of_nat Downsample.RECORD_SIZE) with 36.
    rewrite Z.mod_small by lia. lia. }
  rewrite Ha, ReaderFacts.read_chunks_zero. reflexivity.
Qed.

Lemma iter_records_small_budget_yields_nothing_witness :
  Downsample.iter_records sample_file 35 = Ok [].
Proof.
  apply iter_records_small_budget_yields_nothing. lia.
Defined.

(** X3: with a budget of at least 36 bytes the chunks the reader reads are,
    put end to end, the whole file; every chunk is non-empty and no longer
    than the budget. *)
Theorem chunks_read_cover_input (input : list byte) (chunk_bytes : Z) :
  36 <= chunk_bytes ->
  exists chunks,
    Downsample.chunks_read input chunk_bytes = Ok chunks /\
    concat chunks = input /\
    Forall (fun c => (0 < length c)%nat /\ Z.of_nat (length c) <= chunk_bytes) chunks.
Proof.
  intros Hc.
  destruct (ReaderFacts.aligned_spec chunk_bytes) as [_ Hbound].
  destruct (ReaderFacts.aligned_multiple chunk_bytes ltac:(lia)) as [k Hk].
  destruct (ReaderFacts.read_chunks_aligned k (S (length input)) input)
    as (chunks & Hrun & Hcat & _ & Hnth); [lia | lia |].
  exists chunks. unfold Downsample.chunks_read. rewrite Hk.
  split; [exact Hrun|]. split; [exact Hcat|].
  apply Forall_forall. intros c Hin.
  apply In_nth_error in Hin. destruct Hin as [i Hi].
  apply Hnth in Hi. destruct Hi as [Hc_eq Hne].
  split.
  - destruct c; [contradiction|]. cbn [length]. lia.
  - rewrite Hc_eq, length_firstn. lia.
Qed.

Lemma chunks_read_cover_input_witness :
  exists chunks,
    Downsample.chunks_read sample_file 80 = Ok chunks /\
    concat chunks = sample_file.
Proof.
  destruct (chunks_read_cover_input sample_file 80 ltac:(lia))
    as (chunks & Hread & Hcat & _).
  exists chunks. split; assumption.
Defined.

(** ** Further properties of [downsample] *)

(** X4: [main] of downsample_dat.py never raises; the size it prints,
    [kept * 36], is the size of the file it wrote; [count_records] of
    prepare_demo.py accepts that file and counts [kept] records; and reading
    the file back with [iter_records] gives exactly the [kept] records
    written, which are records of the input in their order. *)
Theorem downsample_output_is_whole_records
    (input : list byte) (min_span stride limit : Z) :
  exists kept output,
    Downsample.main input min_span stride limit = Ok (kept, kept * 36, output) /\
    Z.of_nat (length output) = kept * 36 /\
    PrepareDemo.count_records output = Ok kept /\
    exists recs,
      Downsample.iter_records output Downsample.default_chunk_bytes = Ok recs /\
      Z.of_nat (length recs) = kept /\ concat recs = output /\
      Subseq recs (Downsample.records_of_chunk input).
Proof.
  destruct (RunFacts.run_prefix input min_span stride (Some limit))
    as (st & Hrun & Hkept & _ & Hout).
  assert (Hall : Forall (fun r => length r = 36%nat) (Downsample.out st)).
  { rewrite Hout.
    eapply Forall_impl; [|apply (FilterFacts.survivors_Forall (fun r => length r = 36%nat))].
    - intros r [Hr _]. exact Hr.
    - apply MoreReaderFacts.Forall_firstn, ReaderFacts.Forall_records_of_chunk. }
  pose proof (MoreReaderFacts.length_concat_records _ Hall) as Hlen.
  exists (Downsample.kept st), (concat (Downsample.out st)).
  split.
  { unfold Downsample.main, Downsample.downsample. rewrite Hrun. reflexivity. }
  split; [lia|].
  split.
  { unfold PrepareDemo.count_records.
    change (Z.of_nat PrepareDemo.RECORD_SIZE) with 36.
    replace (Z.of_nat (length (concat (Downsample.out st))))
      with (Downsample.kept st * 36) by lia.
    rewrite Z.mod_mul, Z.div_mul by lia. reflexivity. }
  exists (Downsample.out st).
  rewrite ReaderFacts.iter_records_blocks by apply RunFacts.default_chunk_large.
  rewrite MoreReaderFacts.records_of_chunk_concat_records by exact Hall.
  split; [reflexivity|]. split; [lia|]. split; [reflexivity|].
  rewrite Hout. eapply Subseq_trans;
    [apply LoopFacts.survivors_Subseq | apply Subseq_firstn].
Qed.

(** X5: whatever the stride and the cap, every record [downsample] writes
    is a 36-byte block whose span [end_frame - start_frame] is at least
    [min_span]. *)
Theorem downsample_written_records_pass_span
    (input : list byte) (min_span stride : Z) (limit : option Z) :
  exists st,
    Downsample.downsample_run input min_span stride limit = Ok st /\
    Forall (fun r => length r = 36%nat /\ min_span <= end_frame r - start_frame r)
           (Downsample.out st).
Proof.
  destruct (RunFacts.run_prefix input min_span stride limit)
    as (st & Hrun & _ & _ & Hout).
  exists st. split; [exact Hrun|]. rewrite Hout.
  eapply Forall_impl; [|apply (FilterFacts.survivors_Forall (fun r => length r = 36%nat))].
  - intros r [Hr Hs]. split; [exact Hr|]. now apply Z.leb_le.
  - apply MoreReaderFacts.Forall_firstn, ReaderFacts.Forall_records_of_chunk.
Qed.

(** X6: a negative [limit] is truthy and [kept >= limit] holds after the
    first write, so [downsample] stops after the first record that passes
    both tests: the output is that record alone, or empty when no record
    passes. *)
Theorem downsample_negative_limit_keeps_one
    (input : list byte) (min_span stride limit : Z) :
  limit < 0 ->
  Downsample.downsample input min_span stride (Some limit) =
  Ok (Z.of_nat (length (firstn 1 (survivors min_span stride 0
                                    (Downsample.records_of_chunk input)))),
      concat (firstn 1 (survivors min_span stride 0
                          (Downsample.records_of_chunk input)))).
Proof.
  intros Hneg.
  destruct (RunFacts.run_capped input min_span stride limit ltac:(lia))
    as (st & Hrun & Hout & Hkept & _).
  replace (quota limit 0) with 1%nat in Hout by (unfold quota; lia).
  unfold Downsample.downsample. rewrite Hrun. cbn [bind].
  now rewrite Hkept, Hout.
Qed.

Lemma downsample_negative_limit_keeps_one_witness :
  Downsample.downsample sample_file 5 1 (Some (-3)) = Ok (1, sample_record 3 10).
Proof.
  rewrite (downsample_negative_limit_keeps_one sample_file 5 1 (-3)) by lia.
  vm_compute. reflexivity.
Defined.

(** X7: without a stride ([stride <= 1]) and without a cap ([limit] is
    [None] or 0), downsampling the output of [downsample] again with the same
    parameters returns the same count and the same bytes. *)
Theorem downsample_span_filter_idempotent
    (input : list byte) (min_span stride : Z) (limit : option Z) (count : Z)
    (output : list byte) :
  stride <= 1 -> limit = None \/ limit = Some 0 ->
  Downsample.downsample input min_span stride limit = Ok (count, output) ->
  Downsample.downsample output min_span stride limit = Ok (count, output).
Proof.
  intros Hstride Hlimit Hfirst.
  assert (Hfalsy : truthy limit = false) by (destruct Hlimit as [-> | ->]; reflexivity).
  unfold Downsample.downsample in *.
  rewrite RunFacts.run_uncapped in Hfirst by assumption.
  cbn [bind Downsample.kept Downsample.out] in Hfirst.
  set (survs := survivors min_span stride 0 (Downsample.records_of_chunk input)) in *.
  assert (Hall : Forall (fun r => length r = 36%nat /\ span_ok min_span r = true) survs).
  { apply FilterFacts.survivors_Forall, ReaderFacts.Forall_records_of_chunk. }
  assert (Hout : output = concat survs) by congruence.
  assert (Hcount : count = Z.of_nat (length survs)) by congruence.
  rewrite RunFacts.run_uncapped by assumption.
  cbn [bind Downsample.kept Downsample.out].
  rewrite Hout, MoreReaderFacts.records_of_chunk_concat_records
    by (eapply Forall_impl; [|exact Hall]; intros r [Hr _]; exact Hr).
  rewrite FilterFacts.survivors_fixpoint;
    [now rewrite Hcount | assumption |].
  eapply Forall_impl; [|exact Hall]. intros r [_ Hs]. exact Hs.
Qed.

Lemma downsample_span_filter_idempotent_witness :
  Downsample.downsample (sample_record 3 10 ++ sample_record 1 10) 5 1 None =
  Ok (2, sample_record 3 10 ++ sample_record 1 10).
Proof.
  apply (downsample_span_filter_idempotent sample_file 5 1 None);
    [lia | now left | vm_compute; reflexivity].
Defined.

(** X8: both frames are uint16, so no span exceeds 65535: with
    [min_span > 65535], [downsample] keeps no record and writes an empty
    file, whatever the input, the stride and the cap. *)
Theorem downsample_min_span_above_range_keeps_nothing
    (input : list byte) (min_span stride : Z) (limit : option Z) :
  65535 < min_span ->
  Downsample.downsample input min_span stride limit = Ok (0, []).
Proof.
  intros Hbig.
  destruct (RunFacts.run_prefix input min_span stride limit)
    as (st & Hrun & Hkept & _ & Hout).
  rewrite FilterFacts.survivors_large_span in Hout by assumption.
  unfold Downsample.downsample. rewrite Hrun. cbn [bind].
  rewrite Hkept, Hout. reflexivity.
Qed.

Lemma downsample_min_span_above_range_keeps_nothing_witness :
  Downsample.downsample sample_file 65536 1 (Some 800000) = Ok (0, []).
Proof.
  apply downsample_min_span_above_range_keeps_nothing. lia.
Defined.

(** X9: with a stride [k > 1], no cap and a [min_span] no span can fall
    below ([min_span <= -65535]), [downsample] keeps exactly
    [(size / 36) / k] records. *)
Theorem downsample_stride_count
    (input : list byte) (min_span stride : Z) (limit : option Z) :
  1 < stride -> min_span <= -65535 -> limit = None \/ limit = Some 0 ->
  exists output,
    Downsample.downsample input min_span stride limit =
      Ok (Z.of_nat (length input / 36) / stride, output).
Proof.
  intros Hs Hms Hlimit.
  assert (Hfalsy : truthy limit = false) by (destruct Hlimit as [-> | ->]; reflexivity).
  unfold Downsample.downsample.
  rewrite RunFacts.run_uncapped by assumption.
  cbn [bind Downsample.kept Downsample.out]. eexists. f_equal. f_equal.
  rewrite FilterFacts.survivors_stride_count by lia.
  rewrite ReaderFacts.length_records_of_chunk.
  rewrite Z.add_0_l, Z.div_0_l by lia. lia.
Qed.

Lemma downsample_stride_count_witness :
  exists output,
    Downsample.downsample sample_file (-65535) 2 None = Ok (1, output).
Proof.
  destruct (downsample_stride_count sample_file (-65535) 2 None)
    as [output Hrun]; [lia | lia | now left |].
  exists output. exact Hrun.
Defined.

(** X10: without a cap, raising [min_span] only removes records: the
    records written with the larger [min_span] are a subsequence of the
    records written with the smaller one. *)
Theorem downsample_min_span_monotone
    (input : list byte) (ms1 ms2 stride : Z) (limit : option Z) :
  ms1 <= ms2 -> limit = None \/ limit = Some 0 ->
  exists st1 st2,
    Downsample.downsample_run input ms1 stride limit = Ok st1 /\
    Downsample.downsample_run input ms2 stride limit = Ok st2 /\
    Subseq (Downsample.out st2) (Downsample.out st1).
Proof.
  intros Hms Hlimit.
  assert (Hfalsy : truthy limit = false) by (destruct Hlimit as [-> | ->]; reflexivity).
  rewrite !RunFacts.run_uncapped by assumption.
  do 2 eexists. split; [reflexivity|]. split; [reflexivity|].
  cbn [Downsample.out]. now apply FilterFacts.survivors_min_span_mono.
Qed.

Lemma downsample_min_span_monotone_witness :
  exists st1 st2,
    Downsample.downsample_run sample_file 5 1 None = Ok st1 /\
    Downsample.downsample_run sample_file 8 1 None = Ok st2 /\
    Subseq (Downsample.out st2) (Downsample.out st1).
Proof.
  apply downsample_min_span_monotone; [lia | now left].
Defined.

(** ** Further properties of the converter *)

(** X11: [write_dat] on tuples that fit the format writes 36 bytes per
    tuple and returns their number; [validate_dat] on that file prints no
    warning, reports the same number of records and prints the first [head]
    tuples exactly as they were written, numbered from 0 (none when [head]
    is not positive). *)
Theorem write_dat_then_validate (recs : list (list Struct.pyval)) (head : Z) :
  Forall (Forall2 well_typed Converter.FMT_STR) recs ->
  exists out,
    Converter.write_dat recs = Ok (out, Z.of_nat (length recs)) /\
    Z.of_nat (length out) = 36 * Z.of_nat (length recs) /\
    Converter.validate_dat out head =
      Ok (Converter.Format (Z.of_nat (length recs)) ::
          numbered 0 (firstn (Z.to_nat head) recs)).
Proof.
  intros Hwt.
  destruct (PipelineFacts.write_dat_ok recs Hwt) as (bufs & Hw & Hall).
  destruct (PipelineFacts.Forall2_length_36 _ _ Hall) as (H36 & _ & Hlen).
  pose proof (MoreReaderFacts.length_concat_records _ H36) as Hsize.
  exists (concat bufs). split; [exact Hw|]. split; [lia|].
  unfold Converter.validate_dat. change (Z.of_nat Converter.RECORD_SIZE) with 36.
  replace (Z.of_nat (length (concat bufs))) with (Z.of_nat (length recs) * 36) by lia.
  rewrite Z.mod_mul, Z.div_mul by lia. cbn [Z.eqb negb app].
  destruct (PipelineFacts.validate_loop_written _ _ Hall
              (Z.to_nat (Z.min head (Z.of_nat (length recs)))) 0) as [Hloop | Hshort];
    [|lia].
  rewrite Hloop. cbn [bind]. do 3 f_equal.
  destruct (Z.le_ge_cases head (Z.of_nat (length recs))) as [Hle | Hge].
  - now rewrite Z.min_l by lia.
  - rewrite Z.min_r, Nat2Z.id by lia. now rewrite !firstn_all2 by lia.
Qed.

Lemma write_dat_then_validate_witness :
  exists out,
    Converter.write_dat [example_fields 7 sample_vertex] = Ok (out, 1) /\
    Converter.validate_dat out 3 =
      Ok [Converter.Format 1; Converter.Rec 0 (example_fields 7 sample_vertex)].
Proof.
  assert (Hv : vertex_ok sample_vertex)
    by (unfold vertex_ok; repeat split; vm_compute; (reflexivity || discriminate)).
  destruct (write_dat_then_validate [example_fields 7 sample_vertex] 3)
    as (out & Hw & _ & Hval).
  - constructor; [|constructor].
    apply ConvertFacts.example_fields_well_typed; [exact Hv | lia].
  - exists out. split; [exact Hw | exact Hval].
Defined.

(** X12: [main] on a non-empty list of files whose vertices are float32
    and uint8 valued, with an opacity in [[0,255]], a rotation the encoder
    accepts (giving the bytes [rot]), a frame step [>= 0] and a last frame
    [(files - 1) * frame_step <= 65535], returns 0 and writes 36 bytes per
    vertex, for any [default_scale]; the reader of downsample_dat.py splits
    the output into records that unpack to the tuples of [frame_records]:
    the vertices of file [i] in order, all at frame [i * frame_step]. *)
Theorem main_converts_every_vertex (a : Converter.args) (rot : Z * Z * Z * Z) :
  Converter.ply_files a <> [] ->
  Forall (Forall vertex_ok) (Converter.ply_files a) ->
  0 <= Converter.default_opacity a <= 255 ->
  Converter.normalize_quaternion_to_bytes (Converter.rotation a) = Ok rot ->
  0 <= Converter.frame_step a ->
  (Z.of_nat (length (Converter.ply_files a)) - 1) * Converter.frame_step a <= 65535 ->
  exists out bufs,
    Converter.main a = Ok (0, Some out) /\
    Z.of_nat (length out) = 36 * Z.of_nat (length (concat (Converter.ply_files a))) /\
    Downsample.iter_records out Downsample.default_chunk_bytes = Ok bufs /\
    map (Struct.unpack_fields Converter.FMT_STR) bufs =
      frame_records a rot 0 (Converter.ply_files a).
Proof.
  intros Hne Hfiles Ho Hq Hstep Hlast.
  destruct rot as [[[rw rx] ry] rz].
  pose proof (PipelineFacts.rotation_bytes_range _ _ _ _ _ Hq) as Hrot.
  assert (Hwt : Forall (Forall2 well_typed Converter.FMT_STR)
                  (frame_records a (rw, rx, ry, rz) 0 (Converter.ply_files a))).
  { apply PipelineFacts.frame_records_well_typed; auto.
    intros i Hi. split; [lia|].
    apply Z.le_trans with
      ((Z.of_nat (length (Converter.ply_files a)) - 1) * Converter.frame_step a);
      [|exact Hlast].
    apply Z.mul_le_mono_nonneg_r; lia. }
  destruct (PipelineFacts.write_dat_ok _ Hwt) as (bufs & Hw & Hall).
  destruct (PipelineFacts.Forall2_length_36 _ _ Hall) as (H36 & Hmap & Hlen).
  exists (concat bufs), bufs.
  split.
  { unfold Converter.main.
    destruct (Converter.ply_files a) as [|ply files] eqn:Hfs; [contradiction|].
    rewrite (PipelineFacts.chain_records_ok a (rw, rx, ry, rz) _ Ho Hq 0).
    cbn [bind]. rewrite Hw. reflexivity. }
  split.
  { rewrite (MoreReaderFacts.length_concat_records _ H36), Hlen,
      PipelineFacts.length_frame_records. lia. }
  split; [|exact Hmap].
  rewrite ReaderFacts.iter_records_blocks by apply RunFacts.default_chunk_large.
  now rewrite MoreReaderFacts.records_of_chunk_concat_records.
Qed.

Lemma main_converts_every_vertex_witness :
  exists out bufs,
    Converter.main
      (Converter.mkArgs [[sample_vertex]; []; [sample_vertex; sample_vertex]]
         10 200 (PyFloat.of_int 2) quaternion_3_4) = Ok (0, Some out) /\
    Z.of_nat (length out) = 108 /\
    Downsample.iter_records out Downsample.default_chunk_bytes = Ok bufs.
Proof.
  assert (Hv : vertex_ok sample_vertex)
    by (unfold vertex_ok; repeat split; vm_compute; (reflexivity || discriminate)).
  destruct (main_converts_every_vertex
              (Converter.mkArgs [[sample_vertex]; []; [sample_vertex; sample_vertex]]
                 10 200 (PyFloat.of_int 2) quaternion_3_4)
              (204, 230, 128, 128))
    as (out & bufs & Hmain & Hlen & Hread & _).
  - discriminate.
  - repeat (apply Forall_cons || apply Forall_nil); exact Hv.
  - cbn; lia.
  - vm_compute. reflexivity.
  - cbn; lia.
  - cbn; lia.
  - exists out, bufs. split; [exact Hmain|]. split; [exact Hlen | exact Hread].
Defined.

(** X13: when some non-empty file has an index [i] whose frame
    [i * frame_step] is outside [[0, 65535]] (the other arguments being as
    in X12), [struct.pack] refuses the frame and [main] ends with
    [struct.error]. *)
Theorem main_frame_overflow_raises (a : Converter.args) (rot : Z * Z * Z * Z)
    (i : nat) (ply : list Converter.vertex) :
  Forall (Forall vertex_ok) (Converter.ply_files a) ->
  0 <= Converter.default_opacity a <= 255 ->
  Converter.normalize_quaternion_to_bytes (Converter.rotation a) = Ok rot ->
  nth_error (Converter.ply_files a) i = Some ply -> ply <> [] ->
  ~ 0 <= Z.of_nat i * Converter.frame_step a <= 65535 ->
  Converter.main a = Err StructError.
Proof.
  intros Hfiles Ho Hq Hnth Hne Hbad.
  destruct rot as [[[rw rx] ry] rz].
  pose proof (PipelineFacts.rotation_bytes_range _ _ _ _ _ Hq) as Hrot.
  unfold Converter.main.
  destruct (Converter.ply_files a) as [|ply0 files] eqn:Hfs;
    [destruct i; discriminate|].
  rewrite (PipelineFacts.chain_records_ok a (rw, rx, ry, rz) _ Ho Hq 0).
  cbn [bind].
  rewrite PipelineFacts.write_dat_first_failure; [reflexivity | |].
  - now apply PipelineFacts.frame_records_cases.
  - now apply (PipelineFacts.frame_records_bad_frame a _ _ 0 i ply).
Qed.

Lemma main_frame_overflow_raises_witness :
  Converter.main
    (Converter.mkArgs [[sample_vertex]; [sample_vertex]]
       65536 200 (PyFloat.of_int 2) quaternion_3_4) = Err StructError.
Proof.
  assert (Hv : vertex_ok sample_vertex)
    by (unfold vertex_ok; repeat split; vm_compute; (reflexivity || discriminate)).
  apply (main_frame_overflow_raises
           (Converter.mkArgs [[sample_vertex]; [sample_vertex]]
              65536 200 (PyFloat.of_int 2) quaternion_3_4)
           (204, 230, 128, 128) 1 [sample_vertex]).
  - repeat (apply Forall_cons || apply Forall_nil); exact Hv.
  - cbn; lia.
  - vm_compute. reflexivity.
  - reflexivity.
  - discriminate.
  - cbn; lia.
Defined.

(** X14: when packing a double [x] as a float32 field succeeds, it gives 4
    bytes; unpacking them gives a double that holds a float32 value, and
    packing that double gives the same 4 bytes again. *)
Theorem pack_f_round_trip_idempotent (x : PyFloat.t) (bs : list byte) :
  Struct.pack_f x = Ok bs ->
  length bs = 4%nat /\
  float32_valued (Struct.unpack_f bs) /\
  Struct.pack_f (Struct.unpack_f bs) = Ok bs.
Proof.
  unfold Struct.pack_f at 1.
  destruct (Binary32.is_infinite (Binary32.of_double x) &&
            negb (Binary32.is_infinite x)); [discriminate|].
  intros Hbs. assert (bs = be_bytes 4 (Binary32.bits_of (Binary32.of_double x)))
    as -> by congruence.
  pose proof (PipelineFacts.of_double_valid x) as Hvalid.
  rewrite StructFacts.unpack_f_bits by exact Hvalid.
  split; [apply ByteFacts.length_be_bytes|].
  split; [apply PipelineFacts.scale_float32_valued|].
  now apply StructFacts.pack_f_to_double.
Qed.

Lemma pack_f_round_trip_idempotent_witness :
  Struct.pack_f (Struct.unpack_f [x3f; xb9; x99; x9a]) = Ok [x3f; xb9; x99; x9a].
Proof.
  apply (pack_f_round_trip_idempotent
           (S754_finite false 6530219459687219 (-52)) [x3f; xb9; x99; x9a]).
  vm_compute. reflexivity.
Defined.

(** X15: a quaternion with a NaN or an infinite component is not encoded:
    the norm is NaN or infinite, a component divided by it is NaN, and
    [int()] of a NaN raises [ValueError]. *)
Theorem normalize_quaternion_non_finite_raises (w x y z : PyFloat.t) :
  non_finite w || non_finite x || non_finite y || non_finite z = true ->
  Converter.normalize_quaternion_to_bytes (w, x, y, z) = Err ValueError.
Proof.
  intros Hnf.
  unfold Converter.normalize_quaternion_to_bytes, Converter.normalized.
  rewrite (NonFiniteFacts.length_non_finite w x y z Hnf). cbn [bind].
  destruct (is_nan w || is_nan x || is_nan y || is_nan z) eqn:Hnan.
  - change (PyFloat.eqb S754_nan PyFloat.zero) with false. cbv iota.
    rewrite !NonFiniteFacts.div_nan. cbn [bind].
    now rewrite NonFiniteFacts.to_byte_nan.
  - change (PyFloat.eqb (S754_infinity false) PyFloat.zero) with false. cbv iota.
    apply orb_false_iff in Hnan. destruct Hnan as [Hnan Hz].
    apply orb_false_iff in Hnan. destruct Hnan as [Hnan Hy].
    apply orb_false_iff in Hnan. destruct Hnan as [Hw Hx].
    destruct (NonFiniteFacts.div_infinity w Hw) as (w' & -> & Nw & Fw).
    destruct (NonFiniteFacts.div_infinity x Hx) as (x' & -> & Nx & Fx).
    destruct (NonFiniteFacts.div_infinity y Hy) as (y' & -> & Ny & Fy).
    destruct (NonFiniteFacts.div_infinity z Hz) as (z' & -> & Nz & Fz).
    cbn [bind].
    destruct (non_finite w); [now rewrite (Nw eq_refl)|]. rewrite (Fw eq_refl). cbn [bind].
    destruct (non_finite x); [now rewrite (Nx eq_refl)|]. rewrite (Fx eq_refl). cbn [bind].
    destruct (non_finite y); [now rewrite (Ny eq_refl)|]. rewrite (Fy eq_refl). cbn [bind].
    destruct (non_finite z); [now rewrite (Nz eq_refl)|]. discriminate.
Qed.

Lemma normalize_quaternion_non_finite_raises_witness :
  Converter.normalize_quaternion_to_bytes
    (PyFloat.one, S754_infinity true, PyFloat.zero, PyFloat.zero) = Err ValueError.
Proof.
  apply normalize_quaternion_non_finite_raises. reflexivity.
Defined.

(** X16: unpacking never fails on a buffer of the format's size, for any
    format of [H], [B] and [f] fields: every bit pattern decodes to a tuple
    whose values fit their fields, so the tuple can be packed again, and the
    packed bytes unpack to the same tuple. *)
Theorem unpack_gives_packable_tuple (fmt : list Struct.code) (buf : list byte) :
  length buf = Struct.calcsize fmt ->
  exists vals buf',
    Struct.unpack fmt buf = Ok vals /\
    Forall2 well_typed fmt vals /\
    Struct.pack fmt vals = Ok buf' /\
    Struct.unpack fmt buf' = Ok vals.
Proof.
  intros Hlen.
  pose proof (DecodeFacts.unpack_fields_well_typed fmt buf Hlen) as Hwt.
  destruct (StructFacts.pack_unpack _ _ Hwt) as (buf' & Hpack & _ & Hun).
  exists (Struct.unpack_fields fmt buf), buf'.
  split; [|now repeat split].
  unfold Struct.unpack. now rewrite Hlen, Nat.eqb_refl.
Qed.

Lemma unpack_gives_packable_tuple_witness :
  exists vals buf',
    Struct.unpack Converter.FMT_STR (repeat xff 36) = Ok vals /\
    Struct.pack Converter.FMT_STR vals = Ok buf'.
Proof.
  destruct (unpack_gives_packable_tuple Converter.FMT_STR (repeat xff 36) eq_refl)
    as (vals & buf' & Hun & _ & Hpack & _).
  exists vals, buf'. split; assumption.
Defined.

(** ** Properties of prepare_demo.py *)

(** X17: when [count_records] returns [n], the reader of
    downsample_dat.py yields exactly [n] records on the same file, they make
    up the whole file, and [n * STREAM_ROW_LENGTH] is the file size. *)
Theorem count_records_agrees_with_reader (dat : list byte) (n : Z) :
  PrepareDemo.count_records dat = Ok n ->
  exists recs,
    Downsample.iter_records dat Downsample.default_chunk_bytes = Ok recs /\
    Z.of_nat (length recs) = n /\ concat recs = dat /\
    n * PrepareDemo.STREAM_ROW_LENGTH = Z.of_nat (length dat).
Proof.
  unfold PrepareDemo.count_records.
  change (Z.of_nat PrepareDemo.RECORD_SIZE) with 36.
  destruct (Z.eqb_spec (Z.of_nat (length dat) mod 36) 0) as [Hmod|_]; [|discriminate].
  cbn [negb]. intros Hn. assert (Hn' : n = Z.of_nat (length dat) / 36) by congruence.
  exists (Downsample.records_of_chunk dat).
  split; [apply ReaderFacts.iter_records_blocks, RunFacts.default_chunk_large|].
  assert (Hdiv : Z.of_nat (length dat) = 36 * (Z.of_nat (length dat) / 36))
    by (apply Z.div_exact; lia).
  assert (Hnat : Z.of_nat (length dat / 36) = Z.of_nat (length dat) / 36)
    by (rewrite Nat2Z.inj_div; reflexivity).
  split; [rewrite ReaderFacts.length_records_of_chunk; lia|].
  split.
  - rewrite ReaderFacts.records_of_chunk_concat. apply firstn_all2. lia.
  - unfold PrepareDemo.STREAM_ROW_LENGTH. lia.
Qed.

Lemma count_records_agrees_with_reader_witness :
  exists recs,
    Downsample.iter_records (sample_record 3 10 ++ sample_record 1 10)
      Downsample.default_chunk_bytes = Ok recs /\
    Z.of_nat (length recs) = 2.
Proof.
  destruct (count_records_agrees_with_reader
              (sample_record 3 10 ++ sample_record 1 10) 2 eq_refl)
    as (recs & Hread & Hlen & _).
  exists recs. split; assumption.
Defined.

(** X18: patching [main.js] is idempotent on the file: when a call of
    [patch_main_js_for_local_config] does not raise and leaves [main.js] with
    the bytes [content], a second call does not raise either and leaves the
    same bytes. *)
Theorem patch_main_js_idempotent (file content : list byte) :
  PrepareDemo.patched_content file = Some content ->
  PrepareDemo.patched_content content = Some content.
Proof.
  unfold PrepareDemo.patched_content at 1.
  destruct (PrepareDemo.patch_main_js_for_local_config file) as [c| | |] eqn:Hpatch;
    try discriminate; intros Hc.
  - assert (c = content) as -> by congruence.
    unfold PrepareDemo.patch_main_js_for_local_config in Hpatch.
    destruct (PyText.read_text file) as [src|] eqn:Hread; [|discriminate].
    destruct (PatchFacts.patch_readable file src Hread)
      as [[Hmark Hun] | (Hmark & c' & Hw & _ & Hback)].
    { rewrite Hmark in Hpatch. discriminate. }
    unfold PrepareDemo.patch_main_js_for_local_config in Hw. rewrite Hread, Hmark in Hw.
    rewrite Hmark in Hpatch.
    assert (c' = content) as ->.
    { destruct (PyText.write_text _); [congruence | discriminate]. }
    unfold PrepareDemo.patched_content.
    destruct (PatchFacts.patch_readable content _ Hback)
      as [[_ ->] | (Hmark' & c'' & Hw' & _ & _)]; [reflexivity|].
    rewrite Hw'. f_equal.
    destruct (PatchFacts.replace_settles src Hmark) as [Hyes | [Hsame Habs]];
      [congruence|].
    unfold PrepareDemo.patch_main_js_for_local_config in Hw'.
    rewrite Hback, Hmark', Hsame in Hw'.
    rewrite Hsame in Hpatch.
    destruct (PyText.write_text src); congruence.
  - assert (file = content) as -> by congruence.
    unfold PrepareDemo.patched_content. now rewrite Hpatch.
Qed.

Lemma patch_main_js_idempotent_witness :
  PrepareDemo.patched_content [x61; x0a; x62] = Some [x61; x0a; x62].
Proof.
  apply (patch_main_js_idempotent [x61; x0d; x0a; x62]). vm_compute. reflexivity.
Defined.

(** X19: on a [main.js] that is read as the text [src] (UTF-8 decoded, line
    ends translated to ['\n']) and does not mention [config_local.json], the
    file is rewritten with the UTF-8 form of [src.replace(old, new)], which
    reads back as that text: if the remote URL construction does not occur
    in [src], the text is [src] itself (with its line ends now ['\n']); if it
    occurs, the text before its first occurrence is kept, that occurrence
    becomes the local assignment, the rest is processed in the same way, and
    the result mentions [config_local.json]. *)
Theorem patch_main_js_rewrites_first_remote_config (file : list byte) (src : PrepareDemo.text) :
  PyText.read_text file = Some src ->
  PyStr.contains Z.eqb PrepareDemo.local_marker src = false ->
  exists content,
    PrepareDemo.patch_main_js_for_local_config file = PrepareDemo.Written content /\
    PyText.utf8_encode (PyStr.replace Z.eqb PrepareDemo.remote_config PrepareDemo.local_config src) =
      Some content /\
    PyText.read_text content =
      Some (PyStr.replace Z.eqb PrepareDemo.remote_config PrepareDemo.local_config src) /\
    (PyStr.contains Z.eqb PrepareDemo.remote_config src = false ->
     PyStr.replace Z.eqb PrepareDemo.remote_config PrepareDemo.local_config src = src) /\
    (PyStr.contains Z.eqb PrepareDemo.remote_config src = true ->
     exists pre post,
       src = pre ++ PrepareDemo.remote_config ++ post /\
       PyStr.contains Z.eqb PrepareDemo.remote_config pre = false /\
       PyStr.replace Z.eqb PrepareDemo.remote_config PrepareDemo.local_config src =
         pre ++ PrepareDemo.local_config ++
         PyStr.replace Z.eqb PrepareDemo.remote_config PrepareDemo.local_config post /\
       PyStr.contains Z.eqb PrepareDemo.local_marker
         (PyStr.replace Z.eqb PrepareDemo.remote_config PrepareDemo.local_config src) = true).
Proof.
  intros Hread Hmark.
  destruct (PatchFacts.patch_readable file src Hread)
    as [[Hyes _] | (_ & content & Hw & Henc & Hback)]; [congruence|].
  exists content. split; [exact Hw|]. split; [exact Henc|]. split; [exact Hback|].
  split; intros Hold.
  - now apply PyStrFacts.replace_absent.
  - destruct (PyStrFacts.replace_present Z.eqb PatchFacts.Z_eqb_eq
                PrepareDemo.remote_config PrepareDemo.local_config src
                PatchFacts.remote_config_nonempty Hold)
      as (pre & post & Hsrc & Hpre & Hrep).
    exists pre, post. split; [exact Hsrc|]. split; [exact Hpre|].
    split; [exact Hrep|]. rewrite Hrep.
    apply PyStrFacts.contains_app_l.
    apply PyStrFacts.contains_app_r; [exact PatchFacts.Z_eqb_eq|].
    exact PatchFacts.local_config_has_marker.
Qed.

Lemma patch_main_js_rewrites_first_remote_config_witness :
  PrepareDemo.patch_main_js_for_local_config [x61; x0d; x0a; x62] =
  PrepareDemo.Written [x61; x0a; x62].
Proof.
  destruct (patch_main_js_rewrites_first_remote_config
              [x61; x0d; x0a; x62] [97; 10; 98] eq_refl eq_refl)
    as (content & Hw & Henc & _).
  rewrite Hw. f_equal. vm_compute in Henc. congruence.
Defined.




